(** * Trace-context propagation over text maps (ddtrace/tracer/textmap.go)

    A shallow embedding of the propagators of [textmap.go]: the chained
    propagator and its configuration, the first-party (Datadog) format, the B3
    format and the W3C format, together with the fragments of Go's [strings],
    [strconv] and [fmt] packages they call.

    Conventions.
    - A Go [string] is a sequence of bytes: [String.string]; [len] is
      [String.length].
    - [uint64] values are [N], [int] values are [Z]; statements that depend on
      the 64-bit range say so.
    - A Go [map[string]string] is the sequence of entries a [range] statement
      over it yields.  Go leaves that order unspecified, so statements
      quantify over every sequence.
    - A Go [error] result is an [option error]; a [panic] is an [outcome].
    - The per-trace mutex and the calls into the logger change no value that
      the functions below return or store; the embedding is sequential and
      keeps the logger's messages only where the propagator lists are
      configured ([getPropagators], [NewPropagator]). *)

From Stdlib Require Import String Ascii List ZArith NArith Lia Bool.
From Stdlib Require Import Permutation.
Import ListNotations.
Local Open Scope list_scope.
Local Open Scope string_scope.

(** ** Go's [strings] package *)

Module Strings.

Definition byte_of (c : ascii) : N := N_of_ascii c.

(** [utf8.RuneSelf] is 0x80: bytes below it are single-byte runes. *)
Definition isASCIIchar (c : ascii) : bool := (byte_of c <? 128)%N.

Fixpoint isASCII (s : string) : bool :=
  match s with
  | EmptyString => true
  | String c r => isASCIIchar c && isASCII r
  end.

Definition lowerByte (c : ascii) : ascii :=
  if ((65 <=? byte_of c) && (byte_of c <=? 90))%N
  then ascii_of_N (byte_of c + 32) else c.

Fixpoint mapBytes (f : ascii -> ascii) (s : string) : string :=
  match s with
  | EmptyString => EmptyString
  | String c r => String (f c) (mapBytes f r)
  end.

(** [strings.ToLower]: byte-wise on ASCII-only input; any other input goes
    through [strings.Map(unicode.ToLower, s)], which depends on Go's Unicode
    tables and is taken as the parameter [unicodeLower]. *)
Definition ToLower (unicodeLower : string -> string) (s : string) : string :=
  if isASCII s then mapBytes lowerByte s else unicodeLower s.

Fixpoint HasPrefix (s prefix : string) : bool :=
  match prefix, s with
  | EmptyString, _ => true
  | String p pr, String c r => Ascii.eqb p c && HasPrefix r pr
  | String _ _, EmptyString => false
  end.

(** [s[n:]] for [n <= len(s)]. *)
Fixpoint drop (n : nat) (s : string) : string :=
  match n, s with
  | O, _ => s
  | S n', String _ r => drop n' r
  | S _, EmptyString => EmptyString
  end.

(** [s[:n]] for [n <= len(s)]. *)
Fixpoint take (n : nat) (s : string) : string :=
  match n, s with
  | O, _ => EmptyString
  | S n', String c r => String c (take n' r)
  | S _, EmptyString => EmptyString
  end.

Definition TrimPrefix (s prefix : string) : string :=
  if HasPrefix s prefix then drop (String.length prefix) s else s.

(** [strings.Split(s, sep)] for a one-byte separator: always at least one
    piece. *)
Fixpoint Split (s : string) (sep : ascii) : list string :=
  match s with
  | EmptyString => [EmptyString]
  | String c r =>
      if Ascii.eqb c sep then EmptyString :: Split r sep
      else match Split r sep with
           | p :: ps => String c p :: ps
           | [] => [String c EmptyString]
           end
  end.

(** [strings.Count(s, sep)] for a one-byte separator. *)
Fixpoint Count (s : string) (sep : ascii) : nat :=
  match s with
  | EmptyString => O
  | String c r => (if Ascii.eqb c sep then 1 else 0) + Count r sep
  end.

(** [strings.Index(s, sep)] for a one-byte separator; [None] is Go's -1. *)
Fixpoint Index (s : string) (sep : ascii) : option nat :=
  match s with
  | EmptyString => None
  | String c r =>
      if Ascii.eqb c sep then Some O
      else option_map S (Index r sep)
  end.

(** [strings.LastIndex(s, sep)] for a one-byte separator. *)
Fixpoint LastIndex (s : string) (sep : ascii) : option nat :=
  match s with
  | EmptyString => None
  | String c r =>
      match LastIndex r sep with
      | Some i => Some (S i)
      | None => if Ascii.eqb c sep then Some O else None
      end
  end.

(** [strings.SplitAfterN(s, sep, n)[0]] for a one-byte separator: the
    slice is empty when [n = 0], so indexing it panics ([None]); with
    [n = 1] the only piece is [s]; otherwise the first piece ends with the
    first separator, or is [s] when there is none.  A negative [n] splits
    at every separator. *)
Definition SplitAfterN_first (s : string) (sep : ascii) (n : Z)
  : option string :=
  if (n =? 0)%Z then None
  else if (n =? 1)%Z then Some s
  else match Index s sep with
       | Some m => Some (take (S m) s)
       | None => Some s
       end.

(** Every byte of [s] satisfies [p]. *)
Fixpoint allBytes (p : ascii -> bool) (s : string) : bool :=
  match s with
  | EmptyString => true
  | String c r => p c && allBytes p r
  end.

(** [strings.ReplaceAll(s, old, new)] for one-byte [old] and [new]. *)
Definition ReplaceAll (s : string) (old new : ascii) : string :=
  mapBytes (fun c => if Ascii.eqb c old then new else c) s.

End Strings.

(** ** Go's [strconv] and [fmt] packages *)

Module Strconv.

Definition digitChar (d : N) : ascii :=
  if (d <? 10)%N then ascii_of_N (48 + d) else ascii_of_N (87 + d).

(** Digits of [n] in [base], most significant first, pushed in front of
    [acc]; [fuel] bounds the number of digits. *)
Fixpoint formatBits (fuel : nat) (base n : N) (acc : string) : string :=
  match fuel with
  | O => acc
  | S f =>
      let acc' := String (digitChar (n mod base)) acc in
      if (n / base =? 0)%N then acc' else formatBits f base (n / base) acc'
  end.

(** [strconv.FormatUint(n, base)]: a number has at most as many digits as
    bits. *)
Definition FormatUint (n : N) (base : N) : string :=
  formatBits (S (N.to_nat (N.size n))) base n "".

(** [strconv.Itoa(i)]. *)
Definition Itoa (i : Z) : string :=
  if (i <? 0)%Z then String "-" (FormatUint (Z.to_N (- i)) 10)
  else FormatUint (Z.to_N i) 10.

(** Value of a digit byte, as [strconv.ParseUint] reads it. *)
Definition digitVal (c : ascii) : option N :=
  let b := N_of_ascii c in
  if ((48 <=? b) && (b <=? 57))%N then Some (b - 48)%N
  else if ((97 <=? b) && (b <=? 122))%N then Some (b - 97 + 10)%N
  else if ((65 <=? b) && (b <=? 90))%N then Some (b - 65 + 10)%N
  else None.

Fixpoint parseDigits (base : N) (s : string) (acc : N) : option N :=
  match s with
  | EmptyString => Some acc
  | String c r =>
      match digitVal c with
      | Some d =>
          if (d <? base)%N then parseDigits base r (acc * base + d) else None
      | None => None
      end
  end.

Definition maxUint64 : N := 18446744073709551615.

(** [strconv.ParseUint(s, base, 64)] for an explicit base between 2 and
    36: no sign, no prefix, no underscore; [None] is a non-nil error (syntax
    or range). *)
Definition ParseUint (s : string) (base : N) : option N :=
  match s with
  | EmptyString => None
  | _ =>
      match parseDigits base s 0 with
      | Some n => if (n <=? maxUint64)%N then Some n else None
      | None => None
      end
  end.

(** [strconv.Atoi(s)] on a 64-bit platform: an optional sign, then at least
    one decimal digit, the value within [int]. *)
Definition Atoi (s : string) : option Z :=
  match s with
  | EmptyString => None
  | String c r =>
      let neg := Ascii.eqb c "-" in
      let body := if neg || Ascii.eqb c "+" then r else s in
      match body with
      | EmptyString => None
      | _ =>
          match parseDigits 10 body 0 with
          | None => None
          | Some un =>
              if neg then
                if (un <=? 9223372036854775808)%N
                then Some (- Z.of_N un)%Z else None
              else
                if (un <? 9223372036854775808)%N
                then Some (Z.of_N un) else None
          end
      end
  end.

Fixpoint zeros (n : nat) : string :=
  match n with
  | O => EmptyString
  | S k => String "0" (zeros k)
  end.

(** [fmt.Sprintf("%0<width>x", n)] for an unsigned [n]: lower-case
    hexadecimal, padded with zeros on the left up to [width]. *)
Definition Sprintf_0x (width : nat) (n : N) : string :=
  let d := FormatUint n 16 in
  zeros (width - String.length d) ++ d.

(** [fmt.Sprintf("%d", i)] for an [int]. *)
Definition Sprintf_d (i : Z) : string := Itoa i.

End Strconv.

(** ** The two regular expressions of [composeTracestate] *)

Module Regexp.

(** [[^\x20-\x7E]]: a byte outside printable ASCII.  Every byte of a
    multi-byte or invalid UTF-8 sequence is at least 0x80, so a maximal run
    of runes outside the range is a maximal run of such bytes. *)
Definition nonPrintable (c : ascii) : bool :=
  let b := N_of_ascii c in ((b <? 32) || (126 <? b))%N.

(** [rgx.ReplaceAllString(s, "_")] for a pattern
    [c1|c2|...|[^\x20-\x7E]+]: [single] recognises the one-byte
    alternatives, each replaced on its own; a maximal run of non-printable
    bytes is replaced once.  [inRun] tells that the previous byte belonged
    to such a run. *)
Fixpoint replaceAll (single : ascii -> bool) (inRun : bool) (s : string)
  : string :=
  match s with
  | EmptyString => EmptyString
  | String c r =>
      if single c then String "_" (replaceAll single false r)
      else if nonPrintable c then
        if inRun then replaceAll single true r
        else String "_" (replaceAll single true r)
      else String c (replaceAll single false r)
  end.

(** [",|=|[^\\x20-\\x7E]+"] *)
Definition keyRgx (s : string) : string :=
  replaceAll (fun c => Ascii.eqb c "," || Ascii.eqb c "=") false s.

(** [",|;|:|[^\\x20-\\x7E]+"] *)
Definition valueRgx (s : string) : string :=
  replaceAll
    (fun c => Ascii.eqb c "," || Ascii.eqb c ";" || Ascii.eqb c ":")
    false s.

End Regexp.

(** ** Errors, panics and Go maps *)

(** The error values of the tracer that [textmap.go] returns and compares
    against, and any other error value a propagator may return. *)
Inductive error : Type :=
| ErrInvalidCarrier
| ErrInvalidSpanContext
| ErrSpanContextNotFound
| ErrSpanContextCorrupted
| ErrOther (msg : string).

(** [err == ErrSpanContextNotFound] on an [error] interface value. *)
Definition isErrSpanContextNotFound (err : option error) : bool :=
  match err with
  | Some ErrSpanContextNotFound => true
  | _ => false
  end.

(** A call either returns or panics. *)
Inductive outcome (A : Type) : Type :=
| Ret (a : A)
| Panic (msg : string).
Arguments Ret {A} a.
Arguments Panic {A} msg.

Definition bind {A B : Type} (m : outcome A) (f : A -> outcome B) : outcome B :=
  match m with
  | Ret a => f a
  | Panic msg => Panic msg
  end.

Notation "x <- m ;; k" := (bind m (fun x => k))
  (at level 61, m at next level, right associativity).

(** A [map[string]string], as the entries a [range] over it yields. *)
Definition gomap : Type := list (string * string).

(** [m[k]]: the zero value (the empty string) when [k] is absent. *)
Fixpoint mapGet (m : gomap) (k : string) : string :=
  match m with
  | [] => ""
  | (k', v) :: r => if String.eqb k' k then v else mapGet r k
  end.

(** [m[k] = v]. *)
Fixpoint mapSet (m : gomap) (k v : string) : gomap :=
  match m with
  | [] => [(k, v)]
  | (k', v') :: r =>
      if String.eqb k' k then (k, v) :: r else (k', v') :: mapSet r k v
  end.

(** A map-typed field may hold the nil map: reading it yields zero values and
    ranging over it yields nothing. *)
Definition entriesOf (m : option gomap) : gomap :=
  match m with
  | Some l => l
  | None => []
  end.

(** ** Data model *)

(** [PropagatorConfig] *)
Record PropagatorConfig : Type := mkConfig {
  BaggagePrefix : string;
  TraceHeader : string;
  ParentHeader : string;
  PriorityHeader : string;
  MaxTagsHeaderLen : Z;
  B3 : bool
}.

Definition DefaultBaggageHeaderPrefix : string := "ot-baggage-".
Definition DefaultTraceIDHeader : string := "x-datadog-trace-id".
Definition DefaultParentIDHeader : string := "x-datadog-parent-id".
Definition DefaultPriorityHeader : string := "x-datadog-sampling-priority".
Definition originHeader : string := "x-datadog-origin".
Definition traceTagsHeader : string := "x-datadog-tags".
Definition propagationExtractMaxSize : nat := 512.
Definition b3TraceIDHeader : string := "x-b3-traceid".
Definition b3SpanIDHeader : string := "x-b3-spanid".
Definition b3SampledHeader : string := "x-b3-sampled".
Definition traceparentHeader : string := "traceparent".
Definition tracestateHeader : string := "tracestate".
Definition headerPropagationStyleInject : string :=
  "DD_TRACE_PROPAGATION_STYLE_INJECT".
Definition headerPropagationStyleExtract : string :=
  "DD_TRACE_PROPAGATION_STYLE_EXTRACT".
Definition headerPropagationStyle : string := "DD_TRACE_PROPAGATION_STYLE".
Definition headerPropagationStyleInjectDeprecated : string :=
  "DD_PROPAGATION_STYLE_INJECT".
Definition headerPropagationStyleExtractDeprecated : string :=
  "DD_PROPAGATION_STYLE_EXTRACT".

(** Modelled from the spec: the provenance tag of a sampling priority (the
    [samplernames] package); [textmap.go] only uses [Unknown]. *)
Inductive SamplerName : Type :=
| SamplerUnknown
| SamplerOther (id : Z).

(** Modelled from the spec: [ext.PriorityAutoKeep], the priority the spec calls
    auto-keep, is 1. *)
Definition PriorityAutoKeep : Z := 1.

(** Modelled from the spec: the trace state shared by the spans of one trace
    (the [trace] struct): the propagating tags, and the local tags on which
    diagnostics are recorded.  Either map may be nil. *)
Record trace : Type := mkTrace {
  propagatingTags : option gomap;
  tags : option gomap
}.

(** Modelled from the spec: [newTrace], the state of a trace that begins. *)
Definition newTrace : trace :=
  {| propagatingTags := None; tags := None |}.

(** Modelled from the spec: [trace.setTag] records a local tag on the
    trace. *)
Definition setTag (t : trace) (key value : string) : trace :=
  {| propagatingTags := propagatingTags t;
     tags := Some (mapSet (entriesOf (tags t)) key value) |}.

Definition setPropagatingTags (t : trace) (m : option gomap) : trace :=
  {| propagatingTags := m; tags := tags t |}.

(** Modelled from the spec: the [spanContext] struct.  [trace] is a pointer
    that may be nil; the sampling priority is optional and carries its
    provenance. *)
Record spanContext : Type := mkSpanContext {
  updated : bool;
  ctxTrace : option trace;
  traceID : N;
  spanID : N;
  baggage : gomap;
  origin : string;
  priority : option (Z * SamplerName)
}.

(** [var ctx spanContext]: the zero value. *)
Definition zeroSpanContext : spanContext :=
  {| updated := false; ctxTrace := None; traceID := 0; spanID := 0;
     baggage := []; origin := ""; priority := None |}.

Definition withTraceID (c : spanContext) (n : N) : spanContext :=
  {| updated := updated c; ctxTrace := ctxTrace c; traceID := n;
     spanID := spanID c; baggage := baggage c; origin := origin c;
     priority := priority c |}.

Definition withSpanID (c : spanContext) (n : N) : spanContext :=
  {| updated := updated c; ctxTrace := ctxTrace c; traceID := traceID c;
     spanID := n; baggage := baggage c; origin := origin c;
     priority := priority c |}.

Definition withOrigin (c : spanContext) (o : string) : spanContext :=
  {| updated := updated c; ctxTrace := ctxTrace c; traceID := traceID c;
     spanID := spanID c; baggage := baggage c; origin := o;
     priority := priority c |}.

Definition withTrace (c : spanContext) (t : option trace) : spanContext :=
  {| updated := updated c; ctxTrace := t; traceID := traceID c;
     spanID := spanID c; baggage := baggage c; origin := origin c;
     priority := priority c |}.

(** Modelled from the spec: [spanContext.samplingPriority] returns the
    priority and whether one is set ([0, false] when unset). *)
Definition samplingPriority (c : spanContext) : Z * bool :=
  match priority c with
  | Some (p, _) => (p, true)
  | None => (0%Z, false)
  end.

(** Modelled from the spec: [spanContext.setSamplingPriority] stores the
    priority with its provenance, and marks the context updated when this
    changes a priority that was already set. *)
Definition setSamplingPriority (c : spanContext) (p : Z) (s : SamplerName)
  : spanContext :=
  {| updated :=
       match priority c with
       | Some (q, _) => if (q =? p)%Z then updated c else true
       | None => updated c
       end;
     ctxTrace := ctxTrace c; traceID := traceID c; spanID := spanID c;
     baggage := baggage c; origin := origin c; priority := Some (p, s) |}.

(** Modelled from the spec: [spanContext.setBaggageItem] stores one baggage
    entry. *)
Definition setBaggageItem (c : spanContext) (key val : string) : spanContext :=
  {| updated := updated c; ctxTrace := ctxTrace c; traceID := traceID c;
     spanID := spanID c; baggage := mapSet (baggage c) key val;
     origin := origin c; priority := priority c |}.

(** A value of the interface [ddtrace.SpanContext]: nil, a [*spanContext]
    (possibly a nil pointer), or a value of another implementation. *)
Inductive SpanContext : Type :=
| nilSpanContext
| ptrSpanContext (c : spanContext)
| nilPtrSpanContext
| foreignSpanContext.

(** [ctx != nil] on the interface value. *)
Definition isNonNil (ctx : SpanContext) : bool :=
  match ctx with
  | nilSpanContext => false
  | _ => true
  end.

(** ** Carriers *)

(** What the propagators can do with a carrier of dynamic type [C]: the type
    switches on [TextMapWriter] and [TextMapReader], [Set], and the pairs that
    [ForeachKey] hands to its visitor, in order. *)
Class Carrier (C : Type) : Type := {
  isTextMapWriter : C -> bool;
  carrierSet : C -> string -> string -> C;
  isTextMapReader : C -> bool;
  carrierPairs : C -> list (string * string)
}.

(** What a [ForeachKey] visitor does on one pair: it updates the state it
    captured, or returns an error. *)
Inductive visit (S : Type) : Type :=
| Continue (s : S)
| Stop (e : error).
Arguments Continue {S} s.
Arguments Stop {S} e.

(** [ForeachKey] of both carriers of [textmap.go]: every pair in turn, until
    the visitor returns an error. *)
Fixpoint ForeachKey {S : Type} (pairs : list (string * string))
  (handler : string -> string -> S -> visit S) (s : S) : visit S :=
  match pairs with
  | [] => Continue s
  | (k, v) :: rest =>
      match handler k v s with
      | Continue s' => ForeachKey rest handler s'
      | Stop e => Stop e
      end
  end.

(** [TextMapCarrier]: a [map[string]string]. *)
Definition TextMapCarrier : Type := gomap.

#[export] Instance TextMapCarrier_Carrier : Carrier TextMapCarrier := {
  isTextMapWriter := fun _ => true;
  carrierSet := mapSet;
  isTextMapReader := fun _ => true;
  carrierPairs := fun m => m
}.

(** [HTTPHeadersCarrier]: an [http.Header], a [map[string][]string] given
    by the entries a [range] over it yields. *)
Definition HTTPHeadersCarrier : Type := list (string * list string).

(** [h[key] = vals] on an [http.Header]. *)
Fixpoint headerSet (h : HTTPHeadersCarrier) (key : string)
  (vals : list string) : HTTPHeadersCarrier :=
  match h with
  | [] => [(key, vals)]
  | (k', vs') :: r =>
      if String.eqb k' key then (key, vals) :: r
      else (k', vs') :: headerSet r key vals
  end.

(** The pairs of the two nested loops of [HTTPHeadersCarrier.ForeachKey]. *)
Fixpoint headerPairs (h : HTTPHeadersCarrier) : list (string * string) :=
  match h with
  | [] => []
  | (k, vals) :: r => (map (fun v => (k, v)) vals ++ headerPairs r)%list
  end.

(** [http.Header.Set] stores the single value under the canonical form of
    the key, [textproto.CanonicalMIMEHeaderKey], taken as a parameter. *)
Definition HTTPHeadersCarrier_Carrier
  (canonicalMIMEHeaderKey : string -> string) : Carrier HTTPHeadersCarrier := {|
  isTextMapWriter := fun _ => true;
  carrierSet := fun h k v => headerSet h (canonicalMIMEHeaderKey k) [v];
  isTextMapReader := fun _ => true;
  carrierPairs := headerPairs
|}.

(** A writer that keeps every [Set] call it receives, oldest first; it is
    not a reader. *)
Definition SetRecorder : Type := list (string * string).

Definition recorderCarrier : Carrier SetRecorder := {|
  isTextMapWriter := fun _ => true;
  carrierSet := fun l k v => (l ++ [(k, v)])%list;
  isTextMapReader := fun _ => false;
  carrierPairs := fun _ => []
|}.

(** A value that implements neither interface. *)
Definition opaqueCarrier : Carrier unit := {|
  isTextMapWriter := fun _ => false;
  carrierSet := fun u _ _ => u;
  isTextMapReader := fun _ => false;
  carrierPairs := fun _ => []
|}.

(** ** What [textmap.go] calls and this file does not define *)

(** Functions and constants of the tracer package declared in other files,
    and Go's Unicode lower-casing: [unicodeLower] is
    [strings.Map(unicode.ToLower, _)]; [parseUint64] and
    [parsePropagatableTraceTags] return [None], respectively [true], for a
    non-nil error; [isValidPropagatableTag] returns [true] for a nil error. *)
Class Externals : Type := {
  unicodeLower : string -> string;
  parseUint64 : string -> option N;
  isValidPropagatableTag : string -> string -> bool;
  parsePropagatableTraceTags : string -> option gomap * bool;
  keyPropagationError : string
}.

Section Propagators.

Context {E : Externals} {C : Type} {CC : Carrier C}.

Definition toLower (s : string) : string := Strings.ToLower unicodeLower s.

(** What [Inject] leaves behind: its error, the carrier, and the span
    context it was given, whose trace may have received a diagnostic. *)
Definition injected : Type := (option error * C * SpanContext)%type.

(** What [Extract] returns. *)
Definition extracted : Type := (SpanContext * option error)%type.

(** *** The first-party propagator *)

(** The loop of [marshalPropagatingTags], from the builder [sb] on. *)
Fixpoint marshalTagsLoop (cfg : PropagatorConfig) (l : gomap) (sb : string)
  (t : trace) : string * trace :=
  match l with
  | [] => (sb, t)
  | (k, v) :: rest =>
      if negb (isValidPropagatableTag k v) then
        marshalTagsLoop cfg rest sb
          (setTag t keyPropagationError "encoding_error")
      else if (Z.of_nat (String.length sb + String.length k
                         + String.length v) >? MaxTagsHeaderLen cfg)%Z then
        ("", setTag t keyPropagationError "inject_max_size")
      else
        let sb1 := if (0 <? String.length sb)%nat then sb ++ "," else sb in
        marshalTagsLoop cfg rest (sb1 ++ k ++ "=" ++ v) t
  end.

(** [propagator.marshalPropagatingTags]: the string, and the context with
    the diagnostics recorded on its trace. *)
Definition marshalPropagatingTags (cfg : PropagatorConfig)
  (ctx : spanContext) : string * spanContext :=
  match ctxTrace ctx with
  | None => ("", ctx)
  | Some t =>
      let '(s, t') :=
        marshalTagsLoop cfg (entriesOf (propagatingTags t)) "" t in
      (s, withTrace ctx (Some t'))
  end.

(** [for k, v := range ctx.baggage { writer.Set(prefix+k, v) }] *)
Fixpoint injectBaggage (prefix : string) (l : gomap) (w : C) : C :=
  match l with
  | [] => w
  | (k, v) :: rest => injectBaggage prefix rest (carrierSet w (prefix ++ k) v)
  end.

(** [propagator.injectTextMap] *)
Definition injectTextMap (cfg : PropagatorConfig) (spanCtx : SpanContext)
  (writer : C) : outcome injected :=
  match spanCtx with
  | nilPtrSpanContext => Panic "nil pointer dereference"
  | ptrSpanContext ctx =>
      if (traceID ctx =? 0)%N || (spanID ctx =? 0)%N then
        Ret (Some ErrInvalidSpanContext, writer, spanCtx)
      else
        let w1 := carrierSet writer (TraceHeader cfg)
                    (Strconv.FormatUint (traceID ctx) 10) in
        let w2 := carrierSet w1 (ParentHeader cfg)
                    (Strconv.FormatUint (spanID ctx) 10) in
        let w3 := match samplingPriority ctx with
                  | (sp, true) =>
                      carrierSet w2 (PriorityHeader cfg) (Strconv.Itoa sp)
                  | (_, false) => w2
                  end in
        let w4 := if String.eqb (origin ctx) "" then w3
                  else carrierSet w3 originHeader (origin ctx) in
        let w5 := injectBaggage (BaggagePrefix cfg) (baggage ctx) w4 in
        if (MaxTagsHeaderLen cfg <=? 0)%Z then Ret (None, w5, spanCtx)
        else
          let '(s, ctx') := marshalPropagatingTags cfg ctx in
          let w6 := if (0 <? String.length s)%nat
                    then carrierSet w5 traceTagsHeader s else w5 in
          Ret (None, w6, ptrSpanContext ctx')
  | _ => Ret (Some ErrInvalidSpanContext, writer, spanCtx)
  end.

(** [propagator.Inject] *)
Definition propagator_Inject (cfg : PropagatorConfig) (spanCtx : SpanContext)
  (carrier : C) : outcome injected :=
  if isTextMapWriter carrier then injectTextMap cfg spanCtx carrier
  else Ret (Some ErrInvalidCarrier, carrier, spanCtx).

(** [unmarshalPropagatingTags] *)
Definition unmarshalPropagatingTags (ctx : spanContext) (v : string)
  : spanContext :=
  let t := match ctxTrace ctx with
           | None => newTrace
           | Some t => t
           end in
  if (propagationExtractMaxSize <? String.length v)%nat then
    withTrace ctx (Some (setTag t keyPropagationError "extract_max_size"))
  else
    let '(m, err) := parsePropagatableTraceTags v in
    let t1 := setPropagatingTags t m in
    withTrace ctx
      (Some (if err then setTag t1 keyPropagationError "decoding_error"
             else t1)).

(** The visitor that [propagator.extractTextMap] hands to [ForeachKey]; the
    cases of its [switch] are tried in order. *)
Definition extractVisitor (cfg : PropagatorConfig) (k v : string)
  (ctx : spanContext) : visit spanContext :=
  let key := toLower k in
  if String.eqb key (TraceHeader cfg) then
    match parseUint64 v with
    | Some n => Continue (withTraceID ctx n)
    | None => Stop ErrSpanContextCorrupted
    end
  else if String.eqb key (ParentHeader cfg) then
    match parseUint64 v with
    | Some n => Continue (withSpanID ctx n)
    | None => Stop ErrSpanContextCorrupted
    end
  else if String.eqb key (PriorityHeader cfg) then
    match Strconv.Atoi v with
    | Some p => Continue (setSamplingPriority ctx p SamplerUnknown)
    | None => Stop ErrSpanContextCorrupted
    end
  else if String.eqb key originHeader then
    Continue (withOrigin ctx v)
  else if String.eqb key traceTagsHeader then
    Continue (unmarshalPropagatingTags ctx v)
  else if Strings.HasPrefix key (BaggagePrefix cfg) then
    Continue (setBaggageItem ctx
                (Strings.TrimPrefix key (BaggagePrefix cfg)) v)
  else Continue ctx.

(** The validity test that ends [propagator.extractTextMap]. *)
Definition extractedContextMissing (ctx : spanContext) : bool :=
  (traceID ctx =? 0)%N
  || ((spanID ctx =? 0)%N && negb (String.eqb (origin ctx) "synthetics")).

(** [propagator.extractTextMap] *)
Definition extractTextMap (cfg : PropagatorConfig)
  (reader : list (string * string)) : extracted :=
  match ForeachKey reader (extractVisitor cfg) zeroSpanContext with
  | Stop err => (nilSpanContext, Some err)
  | Continue ctx =>
      if extractedContextMissing ctx
      then (nilSpanContext, Some ErrSpanContextNotFound)
      else (ptrSpanContext ctx, None)
  end.

(** [propagator.Extract] *)
Definition propagator_Extract (cfg : PropagatorConfig) (carrier : C)
  : outcome extracted :=
  if isTextMapReader carrier
  then Ret (extractTextMap cfg (carrierPairs carrier))
  else Ret (nilSpanContext, Some ErrInvalidCarrier).

(** *** The B3 propagator *)

(** [propagatorB3.injectTextMap] *)
Definition injectTextMapB3 (spanCtx : SpanContext) (writer : C)
  : outcome injected :=
  match spanCtx with
  | nilPtrSpanContext => Panic "nil pointer dereference"
  | ptrSpanContext ctx =>
      if (traceID ctx =? 0)%N || (spanID ctx =? 0)%N then
        Ret (Some ErrInvalidSpanContext, writer, spanCtx)
      else
        let w1 := carrierSet writer b3TraceIDHeader
                    (Strconv.Sprintf_0x 16 (traceID ctx)) in
        let w2 := carrierSet w1 b3SpanIDHeader
                    (Strconv.Sprintf_0x 16 (spanID ctx)) in
        let w3 := match samplingPriority ctx with
                  | (p, true) =>
                      if (p >=? PriorityAutoKeep)%Z
                      then carrierSet w2 b3SampledHeader "1"
                      else carrierSet w2 b3SampledHeader "0"
                  | (_, false) => w2
                  end in
        Ret (None, w3, spanCtx)
  | _ => Ret (Some ErrInvalidSpanContext, writer, spanCtx)
  end.

(** [propagatorB3.Inject] *)
Definition propagatorB3_Inject (spanCtx : SpanContext) (carrier : C)
  : outcome injected :=
  if isTextMapWriter carrier then injectTextMapB3 spanCtx carrier
  else Ret (Some ErrInvalidCarrier, carrier, spanCtx).

(** The trace-id value that the visitor parses:
    [if len(v) > 16 { v = v[len(v)-16:] }]. *)
Definition b3TraceIDDigits (v : string) : string :=
  if (16 <? String.length v)%nat
  then Strings.drop (String.length v - 16) v else v.

(** The visitor of [propagatorB3.extractTextMap]. *)
Definition extractVisitorB3 (k v : string) (ctx : spanContext)
  : visit spanContext :=
  let key := toLower k in
  if String.eqb key b3TraceIDHeader then
    match Strconv.ParseUint (b3TraceIDDigits v) 16 with
    | Some n => Continue (withTraceID ctx n)
    | None => Stop ErrSpanContextCorrupted
    end
  else if String.eqb key b3SpanIDHeader then
    match Strconv.ParseUint v 16 with
    | Some n => Continue (withSpanID ctx n)
    | None => Stop ErrSpanContextCorrupted
    end
  else if String.eqb key b3SampledHeader then
    match Strconv.Atoi v with
    | Some p => Continue (setSamplingPriority ctx p SamplerUnknown)
    | None => Stop ErrSpanContextCorrupted
    end
  else Continue ctx.

(** [propagatorB3.extractTextMap] *)
Definition extractTextMapB3 (reader : list (string * string)) : extracted :=
  match ForeachKey reader extractVisitorB3 zeroSpanContext with
  | Stop err => (nilSpanContext, Some err)
  | Continue ctx =>
      if (traceID ctx =? 0)%N || (spanID ctx =? 0)%N
      then (nilSpanContext, Some ErrSpanContextNotFound)
      else (ptrSpanContext ctx, None)
  end.

(** [propagatorB3.Extract] *)
Definition propagatorB3_Extract (carrier : C) : outcome extracted :=
  if isTextMapReader carrier
  then Ret (extractTextMapB3 (carrierPairs carrier))
  else Ret (nilSpanContext, Some ErrInvalidCarrier).

(** *** The W3C propagator *)

(** First loop of [composeTracestate]: the propagating tags under the
    prefix [_dd.p.], until one does not fit. *)
Fixpoint composeTagsLoop (l : gomap) (b : string) (listLength : nat)
  : string * nat :=
  match l with
  | [] => (b, listLength)
  | (k, v) :: rest =>
      if negb (Strings.HasPrefix k "_dd.p.") then
        composeTagsLoop rest b listLength
      else
        let tag := "t." ++ Regexp.keyRgx (Strings.drop 6 k) ++ ":"
                   ++ Strings.ReplaceAll (Regexp.valueRgx v) "=" "~" in
        if (String.length b + String.length tag <=? 256)%nat
           && (listLength <? 32)%nat
        then composeTagsLoop rest (b ++ ";" ++ tag) (S listLength)
        else (b, listLength)
  end.

(** Second loop of [composeTracestate]: the other vendors' entries of the
    old state.  It panics where the source indexes an empty slice or
    slices with a negative bound. *)
Fixpoint composeVendorsLoop (segs : list string) (b : string)
  (listLength : nat) : outcome string :=
  match segs with
  | [] => Ret b
  | s :: rest =>
      if Strings.HasPrefix s "dd=" then composeVendorsLoop rest b listLength
      else if (String.length b + String.length s <? 255)%nat then
        if (listLength + Strings.Count s ";" <? 32)%nat then
          composeVendorsLoop rest (b ++ "," ++ s) listLength
        else
          match Strings.SplitAfterN_first s ";"
                  (32 - Z.of_nat listLength) with
          | Some piece =>
              composeVendorsLoop rest (b ++ "," ++ piece) listLength
          | None => Panic "index out of range [0] with length 0"
          end
      else if (255 <? String.length b)%nat then
        Panic "slice bounds out of range"
      else
        match Strings.LastIndex
                (Strings.take (255 - String.length b) s) ";" with
        | Some j => Ret (b ++ Strings.take j s)
        | None => Ret b
        end
  end.

(** [composeTracestate]; [t] is [ctx.trace], which the caller has already
    dereferenced. *)
Definition composeTracestate (ctx : spanContext) (t : trace) (p : Z)
  (oldState : string) : outcome string :=
  let b0 := "dd=s:" ++ Strconv.Sprintf_d p ++ ";" in
  let '(b1, n1) :=
    if String.eqb (origin ctx) "" then (b0, 1%nat)
    else (b0 ++ "o:" ++ Regexp.valueRgx (origin ctx), 2%nat) in
  let '(b2, n2) := composeTagsLoop (entriesOf (propagatingTags t)) b1 n1 in
  composeVendorsLoop (Strings.Split oldState ",") b2 n2.

(** [propagatorW3c.injectTextMap] *)
Definition injectTextMapW3c (spanCtx : SpanContext) (writer : C)
  : outcome injected :=
  match spanCtx with
  | nilPtrSpanContext => Panic "nil pointer dereference"
  | ptrSpanContext ctx =>
      if (traceID ctx =? 0)%N || (spanID ctx =? 0)%N then
        Ret (Some ErrInvalidSpanContext, writer, spanCtx)
      else
        let '(p, ok) := samplingPriority ctx in
        let flags := if ok && (p >=? PriorityAutoKeep)%Z
                     then "01" else "00" in
        let w1 := carrierSet writer traceparentHeader
                    ("00-" ++ Strconv.Sprintf_0x 32 (traceID ctx) ++ "-"
                     ++ Strconv.Sprintf_0x 16 (spanID ctx) ++ "-" ++ flags) in
        match ctxTrace ctx with
        | None => Panic "nil pointer dereference"
        | Some t =>
            let old := mapGet (entriesOf (propagatingTags t))
                         tracestateHeader in
            if updated ctx
               || (match propagatingTags t with
                   | Some _ => true
                   | None => false
                   end
                   && negb (Strings.HasPrefix old "dd="))
            then
              s <- composeTracestate ctx t p old ;;
              Ret (None, carrierSet w1 tracestateHeader s, spanCtx)
            else Ret (None, carrierSet w1 tracestateHeader old, spanCtx)
        end
  | _ => Ret (Some ErrInvalidSpanContext, writer, spanCtx)
  end.

(** [propagatorW3c.Inject] *)
Definition propagatorW3c_Inject (spanCtx : SpanContext) (carrier : C)
  : outcome injected :=
  if isTextMapWriter carrier then injectTextMapW3c spanCtx carrier
  else Ret (Some ErrInvalidCarrier, carrier, spanCtx).

(** [propagatorW3c.Extract]: [panic("implement me")] *)
Definition propagatorW3c_Extract (carrier : C) : outcome extracted :=
  Panic "implement me".

(** *** The [Propagator] interface and the chain *)

(** The implementations of [Propagator] in [textmap.go], and any other
    implementation, given by its two methods. *)
Inductive Propagator : Type :=
| propagator (cfg : PropagatorConfig)
| propagatorB3
| propagatorW3c
| otherPropagator (inj : SpanContext -> C -> outcome injected)
                  (ext : C -> outcome extracted).

(** [v.Inject(spanCtx, carrier)] *)
Definition Inject (v : Propagator) (spanCtx : SpanContext) (carrier : C)
  : outcome injected :=
  match v with
  | propagator cfg => propagator_Inject cfg spanCtx carrier
  | propagatorB3 => propagatorB3_Inject spanCtx carrier
  | propagatorW3c => propagatorW3c_Inject spanCtx carrier
  | otherPropagator inj _ => inj spanCtx carrier
  end.

(** [v.Extract(carrier)] *)
Definition Extract (v : Propagator) (carrier : C) : outcome extracted :=
  match v with
  | propagator cfg => propagator_Extract cfg carrier
  | propagatorB3 => propagatorB3_Extract carrier
  | propagatorW3c => propagatorW3c_Extract carrier
  | otherPropagator _ ext => ext carrier
  end.

(** [chainedPropagator] *)
Record chainedPropagator : Type := mkChained {
  injectors : list Propagator;
  extractors : list Propagator
}.

(** The loop of [chainedPropagator.Inject]. *)
Fixpoint chainedInjectLoop (l : list Propagator) (spanCtx : SpanContext)
  (carrier : C) : outcome injected :=
  match l with
  | [] => Ret (None, carrier, spanCtx)
  | v :: rest =>
      r <- Inject v spanCtx carrier ;;
      let '(err, carrier', spanCtx') := r in
      match err with
      | Some e => Ret (Some e, carrier', spanCtx')
      | None => chainedInjectLoop rest spanCtx' carrier'
      end
  end.

(** [chainedPropagator.Inject] *)
Definition chained_Inject (p : chainedPropagator) (spanCtx : SpanContext)
  (carrier : C) : outcome injected :=
  chainedInjectLoop (injectors p) spanCtx carrier.

(** The loop of [chainedPropagator.Extract]. *)
Fixpoint chainedExtractLoop (l : list Propagator) (carrier : C)
  : outcome extracted :=
  match l with
  | [] => Ret (nilSpanContext, Some ErrSpanContextNotFound)
  | v :: rest =>
      r <- Extract v carrier ;;
      let '(ctx, err) := r in
      if isNonNil ctx then Ret (ctx, None)
      else if isErrSpanContextNotFound err
           then chainedExtractLoop rest carrier
           else Ret (nilSpanContext, err)
  end.

(** [chainedPropagator.Extract] *)
Definition chained_Extract (p : chainedPropagator) (carrier : C)
  : outcome extracted :=
  chainedExtractLoop (extractors p) carrier.

(** *** Configuration *)

Definition newline : string := String (ascii_of_nat 10) EmptyString.
Definition dquote : string := String (ascii_of_nat 34) EmptyString.

(** The warning for a [none] token among others. *)
Definition warnNone : string :=
  "Propagator " ++ dquote ++ "none" ++ dquote
  ++ " has no effect when combined with other propagators. "
  ++ "To disable the propagator, set to `none`".

(** The warning for an unrecognized token. *)
Definition warnUnrecognized (v : string) : string :=
  "unrecognized propagator: " ++ v ++ newline.

(** The loop of [getPropagators] over the tokens of the selector: the list
    built so far and the warnings logged so far. *)
Fixpoint selectPropagators (cfg : PropagatorConfig) (dd : Propagator)
  (tokens : list string) (lst : list Propagator) (warnings : list string)
  : list Propagator * list string :=
  match tokens with
  | [] => (lst, warnings)
  | v :: rest =>
      let t := toLower v in
      if String.eqb t "datadog" then
        selectPropagators cfg dd rest (lst ++ [dd])%list warnings
      else if String.eqb t "b3" || String.eqb t "b3multi" then
        if negb (B3 cfg)
        then selectPropagators cfg dd rest (lst ++ [propagatorB3])%list
               warnings
        else selectPropagators cfg dd rest lst warnings
      else if String.eqb t "none" then
        selectPropagators cfg dd rest lst (warnings ++ [warnNone])%list
      else
        selectPropagators cfg dd rest lst
          (warnings ++ [warnUnrecognized v])%list
  end.

(** [getPropagators]; [getenv] is [os.Getenv].  The result is the list and
    the warnings logged. *)
Definition getPropagators (getenv : string -> string)
  (cfg : PropagatorConfig) (ps : string) : list Propagator * list string :=
  let dd := propagator cfg in
  let defaultPs := if B3 cfg then [dd; propagatorB3] else [dd] in
  let resolved :=
    if String.eqb ps "" then
      let prop := getenv headerPropagationStyle in
      if negb (String.eqb prop "") then Some prop else None
    else Some ps in
  match resolved with
  | None => (defaultPs, [])
  | Some ps' =>
      if String.eqb ps' "none" then ([], [])
      else
        let list0 := if B3 cfg then [propagatorB3] else [] in
        let '(lst, warnings) :=
          selectPropagators cfg dd (Strings.Split ps' ",") list0 [] in
        match lst with
        | [] => (defaultPs, warnings)
        | _ => (lst, warnings)
        end
  end.

(** The configuration [NewPropagator] works with: [new(PropagatorConfig)]
    for nil, and the default for every empty name. *)
Definition configDefaults (cfg : option PropagatorConfig)
  : PropagatorConfig :=
  let c := match cfg with
           | Some c => c
           | None => mkConfig "" "" "" "" 0 false
           end in
  let orDefault (s d : string) := if String.eqb s "" then d else s in
  mkConfig (orDefault (BaggagePrefix c) DefaultBaggageHeaderPrefix)
           (orDefault (TraceHeader c) DefaultTraceIDHeader)
           (orDefault (ParentHeader c) DefaultParentIDHeader)
           (orDefault (PriorityHeader c) DefaultPriorityHeader)
           (MaxTagsHeaderLen c) (B3 c).

(** One of the two selectors of [NewPropagator]: the variable [name], else
    its deprecated alias, whose use is logged. *)
Definition selectorFromEnv (getenv : string -> string)
  (name deprecated : string) : string * list string :=
  let ps := getenv name in
  if String.eqb ps "" then
    let ps' := getenv deprecated in
    if negb (String.eqb ps' "") then
      (ps', [deprecated ++ " is deprecated. Please use " ++ name ++ " or "
             ++ headerPropagationStyle ++ " instead." ++ newline])
    else (ps', [])
  else (ps, []).

(** [NewPropagator]: the chained propagator and the warnings logged. *)
Definition NewPropagator (getenv : string -> string)
  (cfg : option PropagatorConfig) (propagators : list Propagator)
  : chainedPropagator * list string :=
  let cfg' := configDefaults cfg in
  match propagators with
  | _ :: _ => (mkChained propagators propagators, [])
  | [] =>
      let '(injectorsPs, w1) :=
        selectorFromEnv getenv headerPropagationStyleInject
          headerPropagationStyleInjectDeprecated in
      let '(extractorsPs, w2) :=
        selectorFromEnv getenv headerPropagationStyleExtract
          headerPropagationStyleExtractDeprecated in
      let '(inj, w3) := getPropagators getenv cfg' injectorsPs in
      let '(ext, w4) := getPropagators getenv cfg' extractorsPs in
      (mkChained inj ext, (w1 ++ w2 ++ w3 ++ w4)%list)
  end.

End Propagators.

(** ** An instance of the externals, for concrete runs *)

Module SpecExternals.

(** Modelled from the spec: [parseUint64] reads the decimal integers of the
    first-party headers; a non-numeric value is an error. *)
Definition parseUint64 (s : string) : option N := Strconv.ParseUint s 10.

(** Modelled from the spec: [isValidPropagatableTag] rejects a pair with a
    control character or a disallowed character; the comma and the equals
    sign delimit the pairs of the header, so a key holds neither, a value
    holds no comma, and neither is empty. *)
Definition isValidPropagatableTag (k v : string) : bool :=
  negb (String.eqb k "") && negb (String.eqb v "")
  && Strings.allBytes (fun c => negb (Regexp.nonPrintable c)
                        && negb (Ascii.eqb c " ")
                        && negb (Ascii.eqb c ",")
                        && negb (Ascii.eqb c "=")) k
  && Strings.allBytes (fun c => negb (Regexp.nonPrintable c)
                        && negb (Ascii.eqb c ",")) v.

(** One [key=value] piece, split at its first equals sign. *)
Definition parsePair (piece : string) : option (string * string) :=
  match Strings.Index piece "=" with
  | Some i =>
      let k := Strings.take i piece in
      let v := Strings.drop (S i) piece in
      if isValidPropagatableTag k v then Some (k, v) else None
  | None => None
  end.

Fixpoint parsePairs (pieces : list string) (m : gomap) : option gomap :=
  match pieces with
  | [] => Some m
  | p :: rest =>
      match parsePair p with
      | Some (k, v) => parsePairs rest (mapSet m k v)
      | None => None
      end
  end.

(** Modelled from the spec: [parsePropagatableTraceTags] parses
    comma-separated [key=value] pairs into a map and fails on malformed
    input; the empty input holds no pair. *)
Definition parsePropagatableTraceTags (s : string) : option gomap * bool :=
  if String.eqb s "" then (None, false)
  else match parsePairs (Strings.Split s ",") [] with
       | Some m => (Some m, false)
       | None => (None, true)
       end.

(** Modelled from the spec: the key of the diagnostic tag that records a
    propagation error on the trace. *)
Definition keyPropagationError : string := "_dd.propagation_error".

(** [unicodeLower] is only reached on input with a byte above 0x7F; the
    concrete runs below have none, and this instance leaves such input as it
    is. *)
Definition externals : Externals :=
  Build_Externals (fun s => s) parseUint64 isValidPropagatableTag
    parsePropagatableTraceTags keyPropagationError.

End SpecExternals.

(** ** Vocabulary of the statements *)

Section Vocabulary.

Context {E : Externals} {C : Type} {CC : Carrier C}.

(** The extractor [v] finds no span context in [carrier]. *)
Definition notFoundIn (carrier : C) (v : Propagator) : Prop :=
  Extract v carrier = Ret (nilSpanContext, Some ErrSpanContextNotFound).

(** [k] is, up to case, one of the three B3 keys. *)
Definition isB3Key (k : string) : bool :=
  String.eqb (toLower k) b3TraceIDHeader
  || String.eqb (toLower k) b3SpanIDHeader
  || String.eqb (toLower k) b3SampledHeader.

(** Whether a call panicked. *)
Definition panicked {A : Type} (o : outcome A) : bool :=
  match o with
  | Ret _ => false
  | Panic _ => true
  end.

(** The header [(k, v)] parses without error: the visitor of
    [extractTextMap] does not stop on it. *)
Definition headerParses (cfg : PropagatorConfig) (kv : string * string)
  : bool :=
  match extractVisitor cfg (fst kv) (snd kv) zeroSpanContext with
  | Continue _ => true
  | Stop _ => false
  end.

(** The validity of an extraction result, in the words of the data model. *)
Definition validExtraction (ctx : spanContext) : Prop :=
  traceID ctx <> 0%N /\ (spanID ctx <> 0%N \/ origin ctx = "synthetics").

(** The selector [getPropagators] works with: [ps], or the generic variable
    when [ps] is empty. *)
Definition resolvedSelector (getenv : string -> string) (ps : string)
  : string :=
  if String.eqb ps "" then getenv headerPropagationStyle else ps.

(** The token names a format. *)
Definition namesFormat (v : string) : bool :=
  String.eqb (toLower v) "datadog"
  || String.eqb (toLower v) "b3" || String.eqb (toLower v) "b3multi".

(** A lower-case hexadecimal digit. *)
Definition isLowerHex (c : ascii) : bool :=
  let b := N_of_ascii c in
  ((48 <=? b) && (b <=? 57) || (97 <=? b) && (b <=? 102))%N.

(** A hexadecimal digit of either case. *)
Definition isHexDigit (c : ascii) : bool :=
  match Strconv.digitVal c with
  | Some d => (d <? 16)%N
  | None => false
  end.

(** The value of a string of hexadecimal digits, however long, read from
    [acc] on. *)
Fixpoint hexValue (s : string) (acc : N) : N :=
  match s with
  | EmptyString => acc
  | String c r =>
      hexValue r (acc * 16 + match Strconv.digitVal c with
                             | Some d => d
                             | None => 0
                             end)
  end.

(** Sixteen lower-case hexadecimal digits. *)
Definition isHex16 (s : string) : Prop :=
  String.length s = 16%nat /\ Strings.allBytes isLowerHex s = true.

End Vocabulary.

(** ** Vocabulary of the further properties *)

Section MoreVocabulary.

Context {E : Externals} {C : Type} {CC : Carrier C}.

(** One of the three propagators of [textmap.go]. *)
Definition isBuiltin (v : Propagator (C := C)) : bool :=
  match v with
  | otherPropagator _ _ => false
  | _ => true
  end.

(** What B3 carries of a span context: the two IDs, and of the sampling
    priority only whether it is at least auto-keep. *)
Definition b3Image (ctx : spanContext) : spanContext :=
  {| updated := false; ctxTrace := None;
     traceID := traceID ctx; spanID := spanID ctx;
     baggage := []; origin := "";
     priority :=
       match priority ctx with
       | Some (p, _) =>
           Some (if (PriorityAutoKeep <=? p)%Z then 1%Z else 0%Z,
                 SamplerUnknown)
       | None => None
       end |}.

(** The B3 visitor, run from a visit that may already have stopped. *)
Definition thenVisitB3 (k v : string) (r : visit spanContext)
  : visit spanContext :=
  match r with
  | Continue ctx => extractVisitorB3 k v ctx
  | Stop e => Stop e
  end.

(** The propagators that one token of a selector adds to the list. *)
Definition tokenPropagators (cfg : PropagatorConfig) (v : string)
  : list (Propagator (C := C)) :=
  if String.eqb (toLower v) "datadog" then [propagator cfg]
  else if (String.eqb (toLower v) "b3" || String.eqb (toLower v) "b3multi")
          && negb (B3 cfg)
       then [propagatorB3]
       else [].

(** The first non-empty string of a list, or the empty string. *)
Fixpoint firstNonEmpty (l : list string) : string :=
  match l with
  | [] => ""
  | s :: rest => if String.eqb s "" then firstNonEmpty rest else s
  end.

(** The first-party propagator of some configuration, or the B3 one. *)
Definition isDatadogOrB3 (v : Propagator (C := C)) : bool :=
  match v with
  | propagator _ | propagatorB3 => true
  | _ => false
  end.

(** One pair of the tags header: [key=value]. *)
Definition tagPair (kv : string * string) : string :=
  fst kv ++ "=" ++ snd kv.

(** The pairs joined by commas. *)
Definition joinTags (l : gomap) : string :=
  String.concat "," (map tagPair l).

(** The pairs that pass [isValidPropagatableTag]. *)
Definition validTags (l : gomap) : gomap :=
  filter (fun kv => isValidPropagatableTag (fst kv) (snd kv)) l.

(** The builder after the pairs [l] have been written to [sb]. *)
Definition writeTags (l : gomap) (sb : string) : string :=
  fold_left
    (fun sb kv =>
       (if (0 <? String.length sb)%nat then sb ++ "," else sb) ++ tagPair kv)
    l sb.

(** The pairs, each after a comma. *)
Definition commaTags (l : gomap) : string :=
  String.concat "" (map (fun kv => "," ++ tagPair kv) l).

(** The trace after a loop that met no overflow. *)
Definition withEncodingError (l : gomap) (t : trace) : trace :=
  if forallb (fun kv => isValidPropagatableTag (fst kv) (snd kv)) l then t
  else setTag t keyPropagationError "encoding_error".

(** The Datadog segment that [composeTracestate] builds before it turns to
    the old state, and the number of its entries: the priority, the origin
    if there is one, and the propagating tags that fit. *)
Definition ddSegment (ctx : spanContext) (t : trace) (p : Z)
  : string * nat :=
  let b0 := "dd=s:" ++ Strconv.Sprintf_d p ++ ";" in
  let '(b1, n1) :=
    if String.eqb (origin ctx) "" then (b0, 1%nat)
    else (b0 ++ "o:" ++ Regexp.valueRgx (origin ctx), 2%nat) in
  composeTagsLoop (entriesOf (propagatingTags t)) b1 n1.

(** The value of the [traceparent] header for two 64-bit IDs. *)
Definition traceparentOf (ctx : spanContext) : string :=
  "00-" ++ Strconv.zeros 16 ++ Strconv.Sprintf_0x 16 (traceID ctx) ++ "-"
  ++ Strconv.Sprintf_0x 16 (spanID ctx) ++ "-"
  ++ (match priority ctx with
      | Some (p, _) => if (PriorityAutoKeep <=? p)%Z then "01" else "00"
      | None => "00"
      end).

(** The cases of the [switch] in the first-party visitor. *)
Inductive headerKind : Type :=
| TraceIDKey
| ParentIDKey
| PriorityKey
| OriginKey
| TagsKey
| BaggageKey
| OtherKey.

Definition headerKind_eqb (a b : headerKind) : bool :=
  match a, b with
  | TraceIDKey, TraceIDKey | ParentIDKey, ParentIDKey
  | PriorityKey, PriorityKey | OriginKey, OriginKey | TagsKey, TagsKey
  | BaggageKey, BaggageKey | OtherKey, OtherKey => true
  | _, _ => false
  end.

(** The case that the key [k] selects: the first that matches the key in
    lower case. *)
Definition headerKindOf (cfg : PropagatorConfig) (k : string) : headerKind :=
  let key := toLower k in
  if String.eqb key (TraceHeader cfg) then TraceIDKey
  else if String.eqb key (ParentHeader cfg) then ParentIDKey
  else if String.eqb key (PriorityHeader cfg) then PriorityKey
  else if String.eqb key originHeader then OriginKey
  else if String.eqb key traceTagsHeader then TagsKey
  else if Strings.HasPrefix key (BaggagePrefix cfg) then BaggageKey
  else OtherKey.

(** The value of the last pair of [reader] whose key selects the case
    [kind]. *)
Fixpoint lastOfKind (cfg : PropagatorConfig) (kind : headerKind)
  (reader : list (string * string)) : option string :=
  match reader with
  | [] => None
  | (k, v) :: rest =>
      match lastOfKind cfg kind rest with
      | Some v' => Some v'
      | None =>
          if headerKind_eqb (headerKindOf cfg k) kind then Some v else None
      end
  end.

(** A decimal digit. *)
Definition isDecDigit (c : ascii) : bool :=
  let b := N_of_ascii c in ((48 <=? b) && (b <=? 57))%N.

(** A configuration with the default header names. *)
Definition defaultNames (maxLen : Z) (b3 : bool) : PropagatorConfig :=
  mkConfig DefaultBaggageHeaderPrefix DefaultTraceIDHeader
    DefaultParentIDHeader DefaultPriorityHeader maxLen b3.

(** The baggage key that the visitor stores for the carrier key [k]. *)
Definition baggageKeyOf (cfg : PropagatorConfig) (k : string) : string :=
  Strings.TrimPrefix (toLower k) (BaggagePrefix cfg).

(** The value of the last pair of [reader] that the visitor stores as the
    baggage item [key]. *)
Fixpoint lastBaggage (cfg : PropagatorConfig) (key : string)
  (reader : list (string * string)) : option string :=
  match reader with
  | [] => None
  | (k, v) :: rest =>
      match lastBaggage cfg key rest with
      | Some v' => Some v'
      | None =>
          if headerKind_eqb (headerKindOf cfg k) BaggageKey
             && String.eqb (baggageKeyOf cfg k) key
          then Some v else None
      end
  end.

(** A byte that [valueRgx] replaces. *)
Definition isValueSeparator (c : ascii) : bool :=
  Ascii.eqb c "," || Ascii.eqb c ";" || Ascii.eqb c ":"
  || Regexp.nonPrintable c.

(** A byte that [keyRgx] replaces. *)
Definition isKeySeparator (c : ascii) : bool :=
  Ascii.eqb c "," || Ascii.eqb c "=" || Regexp.nonPrintable c.

End MoreVocabulary.

(** * Properties *)

(** ** Sample runs of the library functions *)

Example FormatUint_42 : Strconv.FormatUint 42 10 = "42".
Proof. reflexivity. Qed.
Example Sprintf_0x_42 : Strconv.Sprintf_0x 16 42 = "000000000000002a".
Proof. reflexivity. Qed.
Example Atoi_neg : Strconv.Atoi "-12" = Some (-12)%Z.
Proof. reflexivity. Qed.
Example ParseUint_hex : Strconv.ParseUint "fF" 16 = Some 255%N.
Proof. reflexivity. Qed.
Example keyRgx_ex : Regexp.keyRgx "a=b,c" = "a_b_c".
Proof. reflexivity. Qed.

(** ** The chain tries its extractors in order *)

Section ChainedExtract.

Context {E : Externals} {C : Type} {CC : Carrier C}.



Lemma chainedExtractLoop_skip (carrier : C) (pre rest : list Propagator) :
  Forall (notFoundIn carrier) pre ->
  chainedExtractLoop (pre ++ rest)%list carrier
  = chainedExtractLoop rest carrier.
Proof.
  induction 1 as [|v pre Hv _ IH]; simpl; [reflexivity|].
  unfold notFoundIn in Hv. rewrite Hv. simpl. exact IH.
Qed.

Lemma extractVisitorB3_other_key (k v : string) (ctx : spanContext) :
  isB3Key k = false -> extractVisitorB3 k v ctx = Continue ctx.
Proof.
  unfold isB3Key, extractVisitorB3. intros H.
  apply orb_false_elim in H as [H H3].
  apply orb_false_elim in H as [H1 H2].
  rewrite H1, H2, H3. reflexivity.
Qed.

Lemma ForeachKey_B3_no_key (pairs : list (string * string))
  (ctx : spanContext) :
  (forall k v, In (k, v) pairs -> isB3Key k = false) ->
  ForeachKey pairs extractVisitorB3 ctx = Continue ctx.
Proof.
  induction pairs as [|[k v] rest IH]; intros H; simpl; [reflexivity|].
  rewrite extractVisitorB3_other_key by (apply (H k v); left; reflexivity).
  apply IH. intros k' v' Hin. apply (H k' v'). right. exact Hin.
Qed.

Lemma extractTextMapB3_no_key (pairs : list (string * string)) :
  (forall k v, In (k, v) pairs -> isB3Key k = false) ->
  extractTextMapB3 pairs = (nilSpanContext, Some ErrSpanContextNotFound).
Proof.
  intros H. unfold extractTextMapB3.
  rewrite ForeachKey_B3_no_key by exact H. reflexivity.
Qed.

(** The first-party extractor returns either a context and no error, or no
    context and an error. *)
Lemma extractTextMap_shape (cfg : PropagatorConfig)
  (pairs : list (string * string)) :
  (exists ctx, extractTextMap cfg pairs = (ptrSpanContext ctx, None))
  \/ (exists e, extractTextMap cfg pairs = (nilSpanContext, Some e)).
Proof.
  unfold extractTextMap.
  destruct (ForeachKey pairs (extractVisitor cfg) zeroSpanContext) as [ctx|e].
  - destruct (extractedContextMissing ctx); [right|left]; eauto.
  - right; eauto.
Qed.

(** C1. The chain tries its extractors in list order.  If every extractor
    reports not-found, so does the chain.  Otherwise, at the first extractor
    [v] that does not report not-found (all before it did): a non-nil context
    is returned at once, with no error; a nil context with any other error
    value is returned at once with that error; a panic propagates.  In
    particular the chain [B3, first-party] over a reader with no B3 key
    returns what the first-party extractor builds from the carrier. *)
Theorem chained_Extract_in_order (p : chainedPropagator) (carrier : C) :
  (Forall (notFoundIn carrier) (extractors p) ->
   chained_Extract p carrier
   = Ret (nilSpanContext, Some ErrSpanContextNotFound))
  /\ (forall pre v post,
        extractors p = (pre ++ v :: post)%list ->
        Forall (notFoundIn carrier) pre ->
        (forall ctx err,
           Extract v carrier = Ret (ctx, err) -> isNonNil ctx = true ->
           chained_Extract p carrier = Ret (ctx, None))
        /\ (forall err,
              Extract v carrier = Ret (nilSpanContext, err) ->
              isErrSpanContextNotFound err = false ->
              chained_Extract p carrier = Ret (nilSpanContext, err))
        /\ (Extract v carrier = Ret (nilSpanContext, Some ErrSpanContextNotFound) ->
            chained_Extract p carrier = chainedExtractLoop post carrier)
        /\ (forall msg,
              Extract v carrier = Panic msg ->
              chained_Extract p carrier = Panic msg))
  /\ (forall cfg,
        extractors p = [propagatorB3; propagator cfg] ->
        isTextMapReader carrier = true ->
        (forall k v, In (k, v) (carrierPairs carrier) -> isB3Key k = false) ->
        chained_Extract p carrier
        = Ret (extractTextMap cfg (carrierPairs carrier))).
Proof.
  unfold chained_Extract. split; [|split].
  - intros H.
    rewrite <- (app_nil_r (extractors p)).
    rewrite chainedExtractLoop_skip by exact H. reflexivity.
  - intros pre v post Heq Hpre. rewrite Heq.
    rewrite chainedExtractLoop_skip by exact Hpre. simpl.
    repeat split.
    + intros ctx err Hv Hnn. rewrite Hv. simpl. rewrite Hnn. reflexivity.
    + intros err Hv Hne. rewrite Hv. simpl. rewrite Hne. reflexivity.
    + intros Hv. rewrite Hv. reflexivity.
    + intros msg Hv. rewrite Hv. reflexivity.
  - intros cfg Heq Hr Hkeys. rewrite Heq. simpl.
    unfold propagatorB3_Extract, propagator_Extract. rewrite Hr. simpl.
    rewrite extractTextMapB3_no_key by exact Hkeys. simpl.
    destruct (extractTextMap_shape cfg (carrierPairs carrier))
      as [[ctx Hc]|[e Hc]]; rewrite Hc; simpl; [reflexivity|].
    destruct e; reflexivity.
Qed.

End ChainedExtract.

(** C1, on a run: extractors [B3, first-party] and a text map with the two
    first-party ID headers. *)
Lemma chained_Extract_in_order_witness :
  chained_Extract (E := SpecExternals.externals) (C := TextMapCarrier)
    (mkChained [] [propagatorB3; propagator (configDefaults None)])
    [("x-datadog-trace-id", "42"); ("x-datadog-parent-id", "52")]
  = Ret (ptrSpanContext
           (mkSpanContext false None 42 52 [] "" None), None).
Proof.
  pose proof (chained_Extract_in_order (E := SpecExternals.externals)
                (C := TextMapCarrier)
                (mkChained [] [propagatorB3; propagator (configDefaults None)])
                [("x-datadog-trace-id", "42"); ("x-datadog-parent-id", "52")])
    as [_ [_ H]].
  rewrite (H (configDefaults None) eq_refl eq_refl).
  - reflexivity.
  - intros k v [Hin|[Hin|[]]]; inversion Hin; reflexivity.
Defined.

(** ** W3C extraction *)


(** C2, as the code has it.  For every carrier, of any dynamic type, the
    W3C propagator's [Extract] panics with the message [implement me]: it
    returns neither a context nor an error, and a chain that reaches it
    panics too. *)
Theorem propagatorW3c_Extract_panics
  {E : Externals} {C : Type} {CC : Carrier C} (carrier : C) :
  Extract propagatorW3c carrier = Panic "implement me"
  /\ chained_Extract (mkChained [] [propagatorW3c]) carrier
     = Panic "implement me".
Proof. split; reflexivity. Qed.

(** C2 fails on the empty text map: the call panics instead of returning an
    unimplemented-operation error. *)
Lemma propagatorW3c_Extract_returns_no_error :
  panicked (Extract (E := SpecExternals.externals) (C := TextMapCarrier)
              propagatorW3c []) = true
  /\ Extract (E := SpecExternals.externals) (C := TextMapCarrier)
       propagatorW3c [] = Panic "implement me".
Proof. split; reflexivity. Qed.

(** ** Injection of an invalid span context *)

Section InvalidInject.

Context {E : Externals} {C : Type} {CC : Carrier C}.

(** C4. A span context whose trace ID or span ID is zero is refused by the
    three formats with [ErrInvalidSpanContext], and the writer comes back as
    it was given: no [Set] reaches it.  The same holds through [Inject] for
    every carrier that is a [TextMapWriter]. *)
Theorem inject_invalid_span_context (cfg : PropagatorConfig)
  (ctx : spanContext) (writer : C) :
  traceID ctx = 0%N \/ spanID ctx = 0%N ->
  let refused := Ret (Some ErrInvalidSpanContext, writer, ptrSpanContext ctx) in
  injectTextMap cfg (ptrSpanContext ctx) writer = refused
  /\ injectTextMapB3 (ptrSpanContext ctx) writer = refused
  /\ injectTextMapW3c (ptrSpanContext ctx) writer = refused
  /\ (isTextMapWriter writer = true ->
      Inject (propagator cfg) (ptrSpanContext ctx) writer = refused
      /\ Inject propagatorB3 (ptrSpanContext ctx) writer = refused
      /\ Inject propagatorW3c (ptrSpanContext ctx) writer = refused).
Proof.
  intros H refused.
  assert (Hz : (traceID ctx =? 0)%N || (spanID ctx =? 0)%N = true).
  { destruct H as [H|H]; rewrite H; simpl;
      [reflexivity | apply orb_true_r]. }
  assert (H1 : injectTextMap cfg (ptrSpanContext ctx) writer = refused)
    by (unfold injectTextMap; rewrite Hz; reflexivity).
  assert (H2 : injectTextMapB3 (ptrSpanContext ctx) writer = refused)
    by (unfold injectTextMapB3; rewrite Hz; reflexivity).
  assert (H3 : injectTextMapW3c (ptrSpanContext ctx) writer = refused)
    by (unfold injectTextMapW3c; rewrite Hz; reflexivity).
  split; [exact H1 | split; [exact H2 | split; [exact H3 |]]].
  intros Hw. simpl.
  unfold propagator_Inject, propagatorB3_Inject, propagatorW3c_Inject.
  rewrite Hw. auto.
Qed.

End InvalidInject.

(** C4, on a run: a context with span ID zero and a writer that records its
    [Set] calls; the record stays empty in the three formats. *)
Lemma inject_invalid_span_context_witness :
  let ctx := mkSpanContext false None 42 0 [("k", "v")] "" None in
  let refused : outcome (option error * SetRecorder * SpanContext) :=
    Ret (Some ErrInvalidSpanContext, [], ptrSpanContext ctx) in
  injectTextMap (E := SpecExternals.externals) (CC := recorderCarrier)
    (configDefaults None) (ptrSpanContext ctx) [] = refused
  /\ injectTextMapB3 (CC := recorderCarrier) (ptrSpanContext ctx) [] = refused
  /\ injectTextMapW3c (CC := recorderCarrier) (ptrSpanContext ctx) []
     = refused.
Proof.
  intros ctx refused.
  destruct (inject_invalid_span_context (E := SpecExternals.externals)
              (CC := recorderCarrier) (configDefaults None) ctx []
              (or_intror eq_refl)) as [H1 [H2 [H3 _]]].
  repeat split; assumption.
Defined.

(** ** Facts about strings and maps *)

Lemma length_append (s1 s2 : string) :
  String.length (s1 ++ s2) = (String.length s1 + String.length s2)%nat.
Proof. induction s1 as [|c s1 IH]; simpl; [reflexivity | now rewrite IH]. Qed.

Lemma drop_append (s1 s2 : string) :
  Strings.drop (String.length s1) (s1 ++ s2) = s2.
Proof. induction s1 as [|c s1 IH]; simpl; [reflexivity | exact IH]. Qed.

Lemma mapGet_mapSet (m : gomap) (k v : string) :
  mapGet (mapSet m k v) k = v.
Proof.
  induction m as [|[k' v'] m IH]; simpl.
  - now rewrite String.eqb_refl.
  - destruct (String.eqb k' k) eqn:Hk; simpl.
    + now rewrite String.eqb_refl.
    + now rewrite Hk.
Qed.

Lemma append_assoc (s1 s2 s3 : string) : (s1 ++ s2) ++ s3 = s1 ++ (s2 ++ s3).
Proof. induction s1 as [|c s1 IH]; simpl; [reflexivity | now rewrite IH]. Qed.

Lemma append_empty_r (s : string) : s ++ "" = s.
Proof. induction s as [|c s IH]; simpl; [reflexivity | now rewrite IH]. Qed.

Lemma allBytes_append (p : ascii -> bool) (s1 s2 : string) :
  Strings.allBytes p (s1 ++ s2)
  = Strings.allBytes p s1 && Strings.allBytes p s2.
Proof.
  induction s1 as [|c s1 IH]; simpl; [reflexivity|].
  now rewrite IH, andb_assoc.
Qed.

Lemma take_drop (n : nat) (s : string) :
  Strings.take n s ++ Strings.drop n s = s.
Proof.
  revert s. induction n as [|n IH]; intros [|c s]; simpl; try reflexivity.
  now rewrite IH.
Qed.

Lemma length_drop (n : nat) (s : string) :
  String.length (Strings.drop n s) = (String.length s - n)%nat.
Proof.
  revert s. induction n as [|n IH]; intros [|c s]; simpl;
    try reflexivity; apply IH.
Qed.

(** ** Serialization of the propagating tags *)

Section MarshalTags.

Context {E : Externals}.

(** What the size test of [marshalPropagatingTags] lets through: the test
    adds the lengths of the builder, the key and the value, and leaves out
    the comma and the equals sign that are written with them. *)
Lemma marshalTagsLoop_length (cfg : PropagatorConfig) (l : gomap)
  (sb : string) (t : trace) :
  (Z.of_nat (String.length sb) <= Z.max 0 (MaxTagsHeaderLen cfg + 2))%Z ->
  (Z.of_nat (String.length (fst (marshalTagsLoop cfg l sb t)))
   <= Z.max 0 (MaxTagsHeaderLen cfg + 2))%Z.
Proof.
  revert sb t. induction l as [|[k v] rest IH]; intros sb t Hsb; simpl.
  - exact Hsb.
  - destruct (isValidPropagatableTag k v); simpl.
    + destruct (Z.gtb_spec
                  (Z.of_nat (String.length sb + String.length k
                             + String.length v))
                  (MaxTagsHeaderLen cfg)) as [Hgt|Hle]; simpl.
      * lia.
      * apply IH. rewrite !length_append. simpl.
        destruct (0 <? String.length sb)%nat;
          rewrite ?length_append; simpl; lia.
    + apply IH. exact Hsb.
Qed.

(** The serialized tags are at most two bytes longer than the configured
    maximum. *)
Lemma marshalPropagatingTags_length (cfg : PropagatorConfig)
  (ctx : spanContext) :
  (Z.of_nat (String.length (fst (marshalPropagatingTags cfg ctx)))
   <= Z.max 0 (MaxTagsHeaderLen cfg + 2))%Z.
Proof.
  unfold marshalPropagatingTags. destruct (ctxTrace ctx) as [t|]; simpl.
  - pose proof (marshalTagsLoop_length cfg (entriesOf (propagatingTags t))
                  "" t) as H.
    destruct (marshalTagsLoop cfg (entriesOf (propagatingTags t)) "" t)
      as [s t'] eqn:Hloop.
    simpl in *. apply H. lia.
  - lia.
Qed.

(** When the size test fires on a valid pair, the builder is dropped, the
    loop ends and [inject_max_size] is recorded. *)
Lemma marshalTagsLoop_overflow (cfg : PropagatorConfig) (k v : string)
  (rest : gomap) (sb : string) (t : trace) :
  isValidPropagatableTag k v = true ->
  (MaxTagsHeaderLen cfg
   < Z.of_nat (String.length sb + String.length k + String.length v))%Z ->
  marshalTagsLoop cfg ((k, v) :: rest) sb t
  = ("", setTag t keyPropagationError "inject_max_size").
Proof.
  intros Hv Hlen. simpl. rewrite Hv. simpl.
  destruct (Z.gtb_spec
              (Z.of_nat (String.length sb + String.length k
                         + String.length v))
              (MaxTagsHeaderLen cfg)); [reflexivity | lia].
Qed.

End MarshalTags.

(** C3, on the code.  With [MaxTagsHeaderLen = 10] and the single
    propagating tag [_dd.p.dm = -4], the serialized string is
    [_dd.p.dm=-4]: 11 bytes, one more than the maximum, and no diagnostic is
    recorded. *)
Theorem marshalPropagatingTags_exceeds_max :
  let cfg := mkConfig DefaultBaggageHeaderPrefix DefaultTraceIDHeader
               DefaultParentIDHeader DefaultPriorityHeader 10 false in
  let t := mkTrace (Some [("_dd.p.dm", "-4")]) None in
  let ctx := mkSpanContext false (Some t) 42 52 [] "" None in
  marshalPropagatingTags (E := SpecExternals.externals) cfg ctx
  = ("_dd.p.dm=-4", ctx)
  /\ (Z.of_nat (String.length "_dd.p.dm=-4") >? MaxTagsHeaderLen cfg)%Z
     = true.
Proof. split; reflexivity. Qed.

(** ** Deserialization of the propagating tags *)

Section UnmarshalTags.

Context {E : Externals}.

(** C6. An input longer than 512 bytes sets no propagating tag: the trace
    (created if the context had none) keeps the propagating tags it had, the
    diagnostic tag holds [extract_max_size], and the other fields of the
    context are untouched. *)
Theorem unmarshalPropagatingTags_oversized (ctx : spanContext) (v : string) :
  (propagationExtractMaxSize < String.length v)%nat ->
  exists t' : trace,
    ctxTrace (unmarshalPropagatingTags ctx v) = Some t'
    /\ propagatingTags t'
       = match ctxTrace ctx with
         | Some t => propagatingTags t
         | None => None
         end
    /\ mapGet (entriesOf (tags t')) keyPropagationError = "extract_max_size"
    /\ unmarshalPropagatingTags ctx v = withTrace ctx (Some t').
Proof.
  intros Hlen. unfold unmarshalPropagatingTags.
  apply Nat.ltb_lt in Hlen. rewrite Hlen.
  eexists. split; [reflexivity|]. split; [|split].
  - destruct (ctxTrace ctx); reflexivity.
  - simpl. apply mapGet_mapSet.
  - reflexivity.
Qed.

End UnmarshalTags.

(** C6, on a run: 513 bytes handed to a fresh context. *)
Lemma unmarshalPropagatingTags_oversized_witness :
  exists t' : trace,
    ctxTrace (unmarshalPropagatingTags (E := SpecExternals.externals)
                zeroSpanContext (Strconv.zeros 513)) = Some t'
    /\ propagatingTags t' = None
    /\ mapGet (entriesOf (tags t')) SpecExternals.keyPropagationError
       = "extract_max_size".
Proof.
  destruct (unmarshalPropagatingTags_oversized
              (E := SpecExternals.externals) zeroSpanContext
              (Strconv.zeros 513)) as [t' [H1 [H2 [H3 _]]]].
  - apply Nat.ltb_lt. vm_compute. reflexivity.
  - exists t'. repeat split; assumption.
Defined.

(** ** First-party extraction *)

Section ExtractValidity.

Context {E : Externals}.



Lemma extractVisitor_parses (cfg : PropagatorConfig) (k v : string)
  (ctx : spanContext) :
  headerParses cfg (k, v) = true ->
  exists ctx', extractVisitor cfg k v ctx = Continue ctx'.
Proof.
  unfold headerParses, extractVisitor. cbn [fst snd].
  repeat match goal with
         | |- context [String.eqb ?a ?b] => destruct (String.eqb a b)
         | |- context [parseUint64 ?s] => destruct (parseUint64 s)
         | |- context [Strconv.Atoi ?s] => destruct (Strconv.Atoi s)
         | |- context [Strings.HasPrefix ?a ?b] =>
             destruct (Strings.HasPrefix a b)
         end;
    intros H; try discriminate H; eexists; reflexivity.
Qed.

Lemma ForeachKey_parses (cfg : PropagatorConfig)
  (reader : list (string * string)) (ctx : spanContext) :
  forallb (headerParses cfg) reader = true ->
  exists ctx', ForeachKey reader (extractVisitor cfg) ctx = Continue ctx'.
Proof.
  revert ctx. induction reader as [|[k v] rest IH]; intros ctx H; simpl.
  - eexists; reflexivity.
  - simpl in H. apply andb_prop in H as [Hkv Hrest].
    destruct (extractVisitor_parses cfg k v ctx Hkv) as [ctx1 H1].
    rewrite H1. apply IH. exact Hrest.
Qed.

Lemma extractedContextMissing_spec (ctx : spanContext) :
  extractedContextMissing ctx = false <-> validExtraction ctx.
Proof.
  unfold extractedContextMissing, validExtraction.
  destruct (N.eqb_spec (traceID ctx) 0) as [Ht|Ht];
    destruct (N.eqb_spec (spanID ctx) 0) as [Hs|Hs];
    destruct (String.eqb_spec (origin ctx) "synthetics") as [Ho|Ho];
    simpl; split; intros H; try reflexivity; try discriminate H;
    try (split; [assumption | tauto]); tauto.
Qed.

(** C5. When every header of the carrier parses without error, the visit
    ends with a context [ctx] holding the extracted fields, and first-party
    extraction returns [ctx] exactly when [ctx] has a non-zero trace ID and
    either a non-zero span ID or the origin [synthetics]; otherwise it
    returns [ErrSpanContextNotFound]. *)
Theorem extractTextMap_valid_or_not_found (cfg : PropagatorConfig)
  (reader : list (string * string)) :
  forallb (headerParses cfg) reader = true ->
  exists ctx : spanContext,
    ForeachKey reader (extractVisitor cfg) zeroSpanContext = Continue ctx
    /\ (validExtraction ctx ->
        extractTextMap cfg reader = (ptrSpanContext ctx, None))
    /\ (~ validExtraction ctx ->
        extractTextMap cfg reader
        = (nilSpanContext, Some ErrSpanContextNotFound)).
Proof.
  intros Hparse.
  destruct (ForeachKey_parses cfg reader zeroSpanContext Hparse) as [ctx Hctx].
  exists ctx. split; [exact Hctx|].
  unfold extractTextMap. rewrite Hctx.
  destruct (extractedContextMissing ctx) eqn:Hm; split; intros Hv.
  - apply extractedContextMissing_spec in Hv. congruence.
  - reflexivity.
  - reflexivity.
  - apply extractedContextMissing_spec in Hm. contradiction.
Qed.

End ExtractValidity.

(** C5, on the scenario of the synthetic origin: a trace ID, the origin
    [synthetics] and no parent ID. *)
Lemma extractTextMap_valid_or_not_found_witness :
  extractTextMap (E := SpecExternals.externals) (configDefaults None)
    [("x-datadog-trace-id", "42"); ("x-datadog-origin", "synthetics")]
  = (ptrSpanContext (mkSpanContext false None 42 0 [] "synthetics" None),
     None).
Proof.
  destruct (extractTextMap_valid_or_not_found
              (E := SpecExternals.externals) (configDefaults None)
              [("x-datadog-trace-id", "42");
               ("x-datadog-origin", "synthetics")] eq_refl)
    as [ctx [Hctx [Hvalid _]]].
  injection Hctx as Hctx. subst ctx.
  apply Hvalid. split; [discriminate | right; reflexivity].
Defined.

(** The same headers visited in the other order. *)
Example extractTextMap_synthetics_other_order :
  extractTextMap (E := SpecExternals.externals) (configDefaults None)
    [("x-datadog-origin", "synthetics"); ("x-datadog-trace-id", "42")]
  = (ptrSpanContext (mkSpanContext false None 42 0 [] "synthetics" None),
     None).
Proof. reflexivity. Qed.

(** Without the origin the same carrier holds no span context. *)
Example extractTextMap_no_parent_not_found :
  extractTextMap (E := SpecExternals.externals) (configDefaults None)
    [("x-datadog-trace-id", "42")]
  = (nilSpanContext, Some ErrSpanContextNotFound).
Proof. reflexivity. Qed.

(** ** The configured propagator lists *)

Section Selection.

Context {E : Externals} {C : Type} {CC : Carrier C}.



Lemma getPropagators_resolved (getenv : string -> string)
  (cfg : PropagatorConfig) (ps : string) :
  getPropagators (C := C) getenv cfg ps
  = let s := resolvedSelector getenv ps in
    let defaultPs := if B3 cfg then [propagator cfg; propagatorB3]
                     else [propagator cfg] in
    if String.eqb s "" then (defaultPs, [])
    else if String.eqb s "none" then ([], [])
    else
      let '(lst, warnings) :=
        selectPropagators cfg (propagator cfg) (Strings.Split s ",")
          (if B3 cfg then [propagatorB3] else []) [] in
      match lst with
      | [] => (defaultPs, warnings)
      | _ => (lst, warnings)
      end.
Proof.
  unfold getPropagators, resolvedSelector.
  destruct (String.eqb ps "") eqn:Hps.
  - destruct (String.eqb (getenv headerPropagationStyle) "");
      reflexivity.
  - rewrite Hps. reflexivity.
Qed.

Lemma selectPropagators_extends (cfg : PropagatorConfig) (dd : @Propagator C)
  (tokens : list string) (lst : list Propagator) (warnings : list string) :
  exists more,
    fst (selectPropagators cfg dd tokens lst warnings) = (lst ++ more)%list.
Proof.
  revert lst warnings.
  induction tokens as [|v rest IH]; intros lst warnings; simpl.
  - exists []. now rewrite app_nil_r.
  - destruct (String.eqb (toLower v) "datadog").
    { destruct (IH (lst ++ [dd])%list warnings) as [more H].
      exists (dd :: more). rewrite H, <- app_assoc. reflexivity. }
    destruct (String.eqb (toLower v) "b3" || String.eqb (toLower v) "b3multi").
    { destruct (negb (B3 cfg)); [|apply IH].
      destruct (IH (lst ++ [propagatorB3])%list warnings) as [more H].
      exists (propagatorB3 :: more). rewrite H, <- app_assoc. reflexivity. }
    destruct (String.eqb (toLower v) "none"); apply IH.
Qed.

Lemma selectPropagators_no_format (cfg : PropagatorConfig) (dd : @Propagator C)
  (tokens : list string) (lst : list Propagator) (warnings : list string) :
  forallb (fun v => negb (namesFormat v)) tokens = true ->
  fst (selectPropagators cfg dd tokens lst warnings) = lst.
Proof.
  revert warnings.
  induction tokens as [|v rest IH]; intros warnings H; simpl;
    [reflexivity|].
  simpl in H. apply andb_prop in H as [Hv Hrest].
  unfold namesFormat in Hv. apply negb_true_iff in Hv.
  apply orb_false_elim in Hv as [Hv H3].
  apply orb_false_elim in Hv as [H1 H2].
  rewrite H1, H2, H3. simpl.
  destruct (String.eqb (toLower v) "none"); apply IH; exact Hrest.
Qed.

(** The selector [none] gives the empty list: the chain then injects nothing
    and extracts nothing. *)
Lemma getPropagators_none (getenv : string -> string)
  (cfg : PropagatorConfig) (ps : string) (spanCtx : SpanContext)
  (carrier : C) :
  resolvedSelector getenv ps = "none" ->
  getPropagators (C := C) getenv cfg ps = ([], [])
  /\ chained_Inject (mkChained [] []) spanCtx carrier
     = Ret (None, carrier, spanCtx)
  /\ chained_Extract (mkChained [] []) carrier
     = Ret (nilSpanContext, Some ErrSpanContextNotFound).
Proof.
  intros H. rewrite getPropagators_resolved, H. repeat split.
Qed.

(** Without the B3 flag, a selector other than [none], none of whose
    tokens names a format, gives the default list. *)
Lemma getPropagators_no_format_default (getenv : string -> string)
  (cfg : PropagatorConfig) (ps : string) :
  B3 cfg = false ->
  resolvedSelector getenv ps <> "none" ->
  forallb (fun v => negb (namesFormat v))
    (Strings.Split (resolvedSelector getenv ps) ",") = true ->
  fst (getPropagators (C := C) getenv cfg ps) = [propagator cfg].
Proof.
  intros Hb Hnone Htok. rewrite getPropagators_resolved. cbv zeta.
  rewrite Hb.
  destruct (String.eqb (resolvedSelector getenv ps) ""); [reflexivity|].
  destruct (String.eqb (resolvedSelector getenv ps) "none") eqn:Hn.
  - apply String.eqb_eq in Hn. contradiction.
  - pose proof (selectPropagators_no_format cfg (propagator cfg) _ [] []
                  Htok) as Hsel.
    destruct (selectPropagators cfg (propagator cfg)
                (Strings.Split (resolvedSelector getenv ps) ",") [] [])
      as [lst warnings].
    simpl in Hsel. subst lst. reflexivity.
Qed.

(** C10. With the B3 flag set and a resolved selector that is neither empty
    nor [none], the list starts with the B3 propagator, whatever the selector
    names; the selector [datadog] gives [B3, first-party]. *)
Theorem getPropagators_B3_first (getenv : string -> string)
  (cfg : PropagatorConfig) (ps : string) :
  B3 cfg = true ->
  resolvedSelector getenv ps <> "" ->
  resolvedSelector getenv ps <> "none" ->
  (exists rest,
     fst (getPropagators (C := C) getenv cfg ps) = propagatorB3 :: rest)
  /\ (resolvedSelector getenv ps = "datadog" ->
      getPropagators (C := C) getenv cfg ps
      = ([propagatorB3; propagator cfg], [])).
Proof.
  intros Hb He Hn. rewrite getPropagators_resolved. cbv zeta. rewrite Hb.
  apply String.eqb_neq in He. apply String.eqb_neq in Hn.
  rewrite He, Hn. split.
  - destruct (selectPropagators_extends cfg (propagator cfg)
                (Strings.Split (resolvedSelector getenv ps) ",")
                [propagatorB3] []) as [more Hmore].
    destruct (selectPropagators cfg (propagator cfg)
                (Strings.Split (resolvedSelector getenv ps) ",")
                [propagatorB3] []) as [lst warnings].
    simpl in Hmore. subst lst. simpl. exists more. reflexivity.
  - intros Hd. rewrite Hd. simpl. reflexivity.
Qed.

End Selection.

(** C10, on a run: the flag set, no environment, the selector [datadog]. *)
Lemma getPropagators_B3_first_witness :
  getPropagators (E := SpecExternals.externals) (C := TextMapCarrier)
    (fun _ => "") (mkConfig "" "" "" "" 0 true) "datadog"
  = ([propagatorB3; propagator (mkConfig "" "" "" "" 0 true)], []).
Proof.
  apply (getPropagators_B3_first (E := SpecExternals.externals)
           (C := TextMapCarrier) (fun _ => "")
           (mkConfig "" "" "" "" 0 true) "datadog" eq_refl).
  - discriminate.
  - discriminate.
  - reflexivity.
Defined.

(** C9, on the code.  With the B3 flag set and the selector [foo], whose
    only token is unrecognized, the list is [B3] alone, with a warning,
    while the default list of that configuration is [first-party, B3]. *)
Theorem getPropagators_unrecognized_with_B3 :
  let cfg := mkConfig DefaultBaggageHeaderPrefix DefaultTraceIDHeader
               DefaultParentIDHeader DefaultPriorityHeader 128 true in
  getPropagators (E := SpecExternals.externals) (C := TextMapCarrier)
    (fun _ => "") cfg "foo"
  = ([propagatorB3], [warnUnrecognized "foo"])
  /\ getPropagators (E := SpecExternals.externals) (C := TextMapCarrier)
       (fun _ => "") cfg ""
     = ([propagator cfg; propagatorB3], []).
Proof. split; reflexivity. Qed.

(** ** Numbers in hexadecimal *)

Module StrconvFacts.
Import Strconv.

Lemma digitVal_digitChar (d : N) :
  (d < 16)%N -> digitVal (digitChar d) = Some d.
Proof.
  intros H.
  destruct d as [|p]; [reflexivity|].
  do 4 (destruct p as [p|p|]; try reflexivity; try lia).
Qed.


Lemma isLowerHex_digitChar (d : N) :
  (d < 16)%N -> isLowerHex (digitChar d) = true.
Proof.
  intros H.
  destruct d as [|p]; [reflexivity|].
  do 4 (destruct p as [p|p|]; try reflexivity; try lia).
Qed.

Lemma parseDigits_append (base : N) (s1 s2 : string) (a : N) :
  parseDigits base (s1 ++ s2) a
  = match parseDigits base s1 a with
    | Some a' => parseDigits base s2 a'
    | None => None
    end.
Proof.
  revert a. induction s1 as [|c s1 IH]; intros a; simpl; [reflexivity|].
  destruct (digitVal c) as [d|]; [|reflexivity].
  destruct (d <? base)%N; [apply IH | reflexivity].
Qed.

Lemma formatBits_acc (fuel : nat) (base n : N) (acc : string) :
  formatBits fuel base n acc = formatBits fuel base n "" ++ acc.
Proof.
  revert n acc. induction fuel as [|f IH]; intros n acc; simpl;
    [reflexivity|].
  destruct (n / base =? 0)%N; [reflexivity|].
  rewrite IH. rewrite (IH _ (String _ "")). rewrite append_assoc.
  reflexivity.
Qed.

Lemma parseDigits_formatBits (fuel : nat) (n : N) :
  (n < 16 ^ N.of_nat fuel)%N ->
  parseDigits 16 (formatBits fuel 16 n "") 0 = Some n.
Proof.
  revert n. induction fuel as [|f IH]; intros n Hn.
  - simpl in Hn. assert (n = 0%N) by lia. subst. reflexivity.
  - simpl formatBits.
    assert (Hd : (n mod 16 < 16)%N) by (apply N.mod_lt; lia).
    destruct (N.eqb_spec (n / 16) 0) as [Hq|Hq].
    + simpl. rewrite digitVal_digitChar by exact Hd.
      apply N.ltb_lt in Hd. rewrite Hd. simpl.
      f_equal. apply N.div_small_iff in Hq; [|lia].
      rewrite N.mod_small by exact Hq. reflexivity.
    + rewrite formatBits_acc, parseDigits_append.
      rewrite IH.
      * simpl. rewrite digitVal_digitChar by exact Hd.
        apply N.ltb_lt in Hd. rewrite Hd.
        f_equal. rewrite (N.div_mod n 16) at 3 by lia. lia.
      * apply N.Div0.div_lt_upper_bound.
        rewrite Nat2N.inj_succ, N.pow_succ_r' in Hn. exact Hn.
Qed.

Lemma formatBits_length (fuel k : nat) (n : N) :
  (n < 16 ^ N.of_nat (S k))%N ->
  (String.length (formatBits fuel 16 n "") <= S k)%nat.
Proof.
  revert k n. induction fuel as [|f IH]; intros k n Hn; simpl; [lia|].
  destruct (N.eqb_spec (n / 16) 0) as [Hq|Hq]; simpl; [lia|].
  rewrite formatBits_acc, length_append. simpl.
  destruct k as [|k].
  - exfalso. apply Hq. apply N.div_small. simpl in Hn. exact Hn.
  - assert (String.length (formatBits f 16 (n / 16) "") <= S k)%nat; [|lia].
    apply IH. apply N.Div0.div_lt_upper_bound.
    rewrite Nat2N.inj_succ, N.pow_succ_r' in Hn. exact Hn.
Qed.

Lemma formatBits_nonempty (fuel : nat) (n : N) :
  (1 <= String.length (formatBits (S fuel) 16 n ""))%nat.
Proof.
  simpl. destruct (n / 16 =? 0)%N; simpl; [lia|].
  rewrite formatBits_acc, length_append. simpl. lia.
Qed.

Lemma formatBits_lower_hex (fuel : nat) (n : N) :
  Strings.allBytes isLowerHex (formatBits fuel 16 n "") = true.
Proof.
  revert n. induction fuel as [|f IH]; intros n; simpl; [reflexivity|].
  assert (Hd : isLowerHex (digitChar (n mod 16)) = true)
    by (apply isLowerHex_digitChar, N.mod_lt; lia).
  destruct (n / 16 =? 0)%N; simpl.
  - rewrite Hd. reflexivity.
  - rewrite formatBits_acc, allBytes_append, IH. simpl.
    rewrite Hd. reflexivity.
Qed.

Lemma fuel_enough (n : N) : (n < 16 ^ N.of_nat (S (N.to_nat (N.size n))))%N.
Proof.
  rewrite Nat2N.inj_succ, N2Nat.id.
  apply N.lt_le_trans with (2 ^ N.size n)%N; [apply N.size_gt|].
  apply N.le_trans with (16 ^ N.size n)%N.
  - apply N.pow_le_mono_l. lia.
  - apply N.pow_le_mono_r; lia.
Qed.

Lemma length_zeros (k : nat) : String.length (zeros k) = k.
Proof. induction k as [|k IH]; simpl; [reflexivity | now rewrite IH]. Qed.

Lemma parseDigits_zeros (k : nat) (s : string) :
  parseDigits 16 (zeros k ++ s) 0 = parseDigits 16 s 0.
Proof. induction k as [|k IH]; simpl; [reflexivity | exact IH]. Qed.

Lemma zeros_lower_hex (k : nat) :
  Strings.allBytes isLowerHex (zeros k) = true.
Proof. induction k as [|k IH]; simpl; [reflexivity | exact IH]. Qed.

(** [%016x] of a 64-bit value: sixteen lower-case hexadecimal digits that
    read back as the value. *)
Lemma Sprintf_016x_spec (n : N) :
  (n <= maxUint64)%N ->
  String.length (Sprintf_0x 16 n) = 16%nat
  /\ Strings.allBytes isLowerHex (Sprintf_0x 16 n) = true
  /\ ParseUint (Sprintf_0x 16 n) 16 = Some n.
Proof.
  intros Hn. unfold Sprintf_0x, FormatUint.
  pose proof (formatBits_length (S (N.to_nat (N.size n))) 15 n) as Hlen.
  pose proof (formatBits_nonempty (N.to_nat (N.size n)) n) as Hne.
  pose proof (parseDigits_formatBits _ n (fuel_enough n)) as Hparse.
  pose proof (formatBits_lower_hex (S (N.to_nat (N.size n))) n) as Hhex.
  set (d := formatBits (S (N.to_nat (N.size n))) 16 n "") in *.
  assert (Hlen' : (String.length d <= 16)%nat).
  { apply Hlen. unfold maxUint64 in Hn. simpl. lia. }
  split; [|split].
  - rewrite length_append, length_zeros. lia.
  - rewrite allBytes_append, zeros_lower_hex, Hhex. reflexivity.
  - unfold ParseUint.
    destruct (zeros (16 - String.length d) ++ d) eqn:Hz.
    + apply (f_equal String.length) in Hz.
      rewrite length_append, length_zeros in Hz. simpl in Hz. lia.
    + rewrite <- Hz, parseDigits_zeros, Hparse.
      apply N.leb_le in Hn. rewrite Hn. reflexivity.
Qed.

End StrconvFacts.

Module HexFacts.
Import Strconv StrconvFacts.



Lemma parseDigits_hexValue (s : string) (a : N) :
  Strings.allBytes isHexDigit s = true ->
  parseDigits 16 s a = Some (hexValue s a).
Proof.
  revert a. induction s as [|c s IH]; intros a H; simpl; [reflexivity|].
  simpl in H. apply andb_prop in H as [Hc Hs].
  unfold isHexDigit in Hc. destruct (digitVal c) as [d|]; [|discriminate].
  rewrite Hc. apply IH. exact Hs.
Qed.

Lemma hexValue_acc (s : string) (a : N) :
  hexValue s a = (a * 16 ^ N.of_nat (String.length s) + hexValue s 0)%N.
Proof.
  revert a. induction s as [|c s IH]; intros a.
  - simpl. lia.
  - cbn [hexValue String.length]. rewrite Nat2N.inj_succ, N.pow_succ_r'.
    rewrite IH. rewrite (IH (0 * 16 + _)%N). ring.
Qed.

Lemma hexValue_append (s1 s2 : string) (a : N) :
  hexValue (s1 ++ s2) a = hexValue s2 (hexValue s1 a).
Proof.
  revert a. induction s1 as [|c s1 IH]; intros a; simpl;
    [reflexivity | apply IH].
Qed.

Lemma hexValue_bound (s : string) :
  Strings.allBytes isHexDigit s = true ->
  (hexValue s 0 < 16 ^ N.of_nat (String.length s))%N.
Proof.
  induction s as [|c s IH]; intros H.
  - simpl. lia.
  - simpl in H. apply andb_prop in H as [Hc Hs].
    cbn [hexValue String.length]. rewrite Nat2N.inj_succ, N.pow_succ_r'.
    rewrite hexValue_acc. specialize (IH Hs).
    unfold isHexDigit in Hc. destruct (digitVal c) as [d|]; [|discriminate].
    apply N.ltb_lt in Hc. nia.
Qed.

(** Parsing the last sixteen digits of a hexadecimal string yields the low
    64 bits of its value. *)
Lemma ParseUint_low_64_bits (pre suf : string) :
  String.length suf = 16%nat ->
  Strings.allBytes isHexDigit (pre ++ suf) = true ->
  ParseUint suf 16 = Some (hexValue (pre ++ suf) 0 mod 2 ^ 64)%N.
Proof.
  intros Hlen Hhex. rewrite allBytes_append in Hhex.
  apply andb_prop in Hhex as [_ Hsuf].
  pose proof (hexValue_bound suf Hsuf) as Hb. rewrite Hlen in Hb.
  rewrite hexValue_append, hexValue_acc, Hlen.
  change (16 ^ N.of_nat 16)%N with (2 ^ 64)%N in *.
  rewrite N.add_comm, N.Div0.mod_add, N.mod_small by exact Hb.
  unfold ParseUint. destruct suf as [|c suf]; [discriminate Hlen|].
  rewrite parseDigits_hexValue by exact Hsuf.
  assert (Hle : (hexValue (String c suf) 0 <=? maxUint64)%N = true).
  { apply N.leb_le. unfold maxUint64.
    change (2 ^ 64)%N with 18446744073709551616%N in Hb. lia. }
  rewrite Hle. reflexivity.
Qed.
End HexFacts.

Import StrconvFacts HexFacts.

(** ** B3 extraction of the trace ID *)

Section B3TraceID.

Context {E : Externals}.

(** C7. On the key [x-b3-traceid], in any case: a value of at most 16 bytes
    is parsed whole; of a longer value only the last 16 bytes are parsed,
    the bytes before them are not looked at; and for a longer value made of
    hexadecimal digits the trace ID is the low 64 bits of the number it
    writes. *)
Theorem extractVisitorB3_trace_id (k v : string) (ctx : spanContext) :
  toLower k = b3TraceIDHeader ->
  let parsed (digits : string) :=
    match Strconv.ParseUint digits 16 with
    | Some n => Continue (withTraceID ctx n)
    | None => Stop ErrSpanContextCorrupted
    end in
  ((String.length v <= 16)%nat -> extractVisitorB3 k v ctx = parsed v)
  /\ (forall pre suf,
        v = pre ++ suf -> String.length suf = 16%nat -> pre <> "" ->
        extractVisitorB3 k v ctx = parsed suf)
  /\ ((16 < String.length v)%nat ->
      Strings.allBytes isHexDigit v = true ->
      extractVisitorB3 k v ctx
      = Continue (withTraceID ctx (hexValue v 0 mod 2 ^ 64))).
Proof.
  intros Hk parsed.
  assert (Hvis : extractVisitorB3 k v ctx = parsed (b3TraceIDDigits v)).
  { unfold extractVisitorB3. rewrite Hk. reflexivity. }
  assert (Hsuf : forall pre suf,
             v = pre ++ suf -> String.length suf = 16%nat -> pre <> "" ->
             b3TraceIDDigits v = suf).
  { intros pre suf Hv Hlen Hpre. unfold b3TraceIDDigits.
    assert (Hl : String.length v = (String.length pre + 16)%nat)
      by (rewrite Hv, length_append, Hlen; reflexivity).
    assert (Hp : (0 < String.length pre)%nat)
      by (destruct pre; [contradiction | simpl; lia]).
    destruct (Nat.ltb_spec 16 (String.length v)); [|lia].
    rewrite Hl, Nat.add_sub, Hv. apply drop_append. }
  rewrite Hvis. split; [|split].
  - intros Hle. unfold b3TraceIDDigits.
    destruct (Nat.ltb_spec 16 (String.length v)); [lia | reflexivity].
  - intros pre suf Hv Hlen Hpre. rewrite (Hsuf pre suf Hv Hlen Hpre).
    reflexivity.
  - intros Hlen Hhex.
    pose proof (take_drop (String.length v - 16) v) as Hsplit.
    pose proof (length_drop (String.length v - 16) v) as Hl.
    rewrite (Hsuf (Strings.take (String.length v - 16) v)
               (Strings.drop (String.length v - 16) v)).
    + unfold parsed.
      rewrite (ParseUint_low_64_bits
                 (Strings.take (String.length v - 16) v));
        [rewrite Hsplit; reflexivity | lia | rewrite Hsplit; exact Hhex].
    + symmetry. exact Hsplit.
    + lia.
    + intros Hempty. apply (f_equal String.length) in Hsplit.
      rewrite length_append, Hempty, Hl in Hsplit. simpl in Hsplit. lia.
Qed.

End B3TraceID.

(** C7, on a run: a 128-bit trace ID under a mixed-case key. *)
Lemma extractVisitorB3_trace_id_witness :
  extractVisitorB3 (E := SpecExternals.externals) "X-B3-TraceId"
    "463ac35c9f6413ad48485a3953bb6124" zeroSpanContext
  = Continue (withTraceID zeroSpanContext 5208512171318403364).
Proof.
  destruct (extractVisitorB3_trace_id (E := SpecExternals.externals)
              "X-B3-TraceId" "463ac35c9f6413ad48485a3953bb6124"
              zeroSpanContext eq_refl) as [_ [H _]].
  rewrite (H "463ac35c9f6413ad" "48485a3953bb6124" eq_refl eq_refl).
  - reflexivity.
  - discriminate.
Defined.

(** ** B3 injection *)

Section B3Inject.

Context {C : Type} {CC : Carrier C}.


(** C8. For a context with non-zero 64-bit IDs, B3 injection performs these
    [Set] calls and no other, in this order: [x-b3-traceid] and
    [x-b3-spanid], each with sixteen lower-case hexadecimal digits that read
    back as the ID, then [x-b3-sampled] when a sampling priority is set,
    with [1] if the priority is at least auto-keep and [0] if it is below;
    it returns no error. *)
Theorem injectTextMapB3_headers (ctx : spanContext) (writer : C) :
  traceID ctx <> 0%N -> spanID ctx <> 0%N ->
  (traceID ctx <= Strconv.maxUint64)%N ->
  (spanID ctx <= Strconv.maxUint64)%N ->
  exists tid sid : string,
    isHex16 tid /\ Strconv.ParseUint tid 16 = Some (traceID ctx)
    /\ isHex16 sid /\ Strconv.ParseUint sid 16 = Some (spanID ctx)
    /\ injectTextMapB3 (ptrSpanContext ctx) writer
       = let w := carrierSet (carrierSet writer b3TraceIDHeader tid)
                    b3SpanIDHeader sid in
         Ret (None,
              match priority ctx with
              | Some (p, _) =>
                  carrierSet w b3SampledHeader
                    (if (PriorityAutoKeep <=? p)%Z then "1" else "0")
              | None => w
              end,
              ptrSpanContext ctx).
Proof.
  intros Ht Hs Htb Hsb.
  destruct (Sprintf_016x_spec (traceID ctx) Htb) as [Hl1 [Hh1 Hp1]].
  destruct (Sprintf_016x_spec (spanID ctx) Hsb) as [Hl2 [Hh2 Hp2]].
  exists (Strconv.Sprintf_0x 16 (traceID ctx)),
         (Strconv.Sprintf_0x 16 (spanID ctx)).
  repeat split; try assumption.
  unfold injectTextMapB3, samplingPriority.
  apply N.eqb_neq in Ht. apply N.eqb_neq in Hs. rewrite Ht, Hs. simpl.
  destruct (priority ctx) as [[p s]|]; [|reflexivity].
  rewrite Z.geb_leb. destruct (PriorityAutoKeep <=? p)%Z; reflexivity.
Qed.

End B3Inject.

(** C8, on the scenario: trace ID 42, span ID 52, priority 1, and a writer
    that records its [Set] calls. *)
Lemma injectTextMapB3_headers_witness :
  injectTextMapB3 (CC := recorderCarrier)
    (ptrSpanContext
       (mkSpanContext false None 42 52 [] "" (Some (1%Z, SamplerUnknown))))
    []
  = Ret (None,
         [("x-b3-traceid", "000000000000002a");
          ("x-b3-spanid", "0000000000000034");
          ("x-b3-sampled", "1")],
         ptrSpanContext
           (mkSpanContext false None 42 52 [] "" (Some (1%Z, SamplerUnknown)))).
Proof.
  destruct (injectTextMapB3_headers (CC := recorderCarrier)
              (mkSpanContext false None 42 52 [] ""
                 (Some (1%Z, SamplerUnknown))) [])
    as [tid [sid [_ [_ [_ [_ H]]]]]];
    try discriminate.
  reflexivity.
Defined.

(** * Further properties *)

(** ** The chain of injectors *)

Section ChainedInject.

Context {E : Externals} {C : Type} {CC : Carrier C}.



Lemma builtin_Inject_invalid (v : Propagator) (ctx : spanContext)
  (carrier : C) :
  isBuiltin v = true ->
  isTextMapWriter carrier = true ->
  (traceID ctx =? 0)%N || (spanID ctx =? 0)%N = true ->
  Inject v (ptrSpanContext ctx) carrier
  = Ret (Some ErrInvalidSpanContext, carrier, ptrSpanContext ctx).
Proof.
  intros Hb Hw Hz. destruct v as [cfg| | |inj ext]; simpl;
    unfold propagator_Inject, propagatorB3_Inject, propagatorW3c_Inject,
      injectTextMap, injectTextMapB3, injectTextMapW3c;
    try rewrite Hw; try rewrite Hz; try reflexivity.
  discriminate Hb.
Qed.

(** X2. A chain whose first injector is one of the three propagators of
    this file refuses a span context with a zero trace ID or span ID: it
    returns [ErrInvalidSpanContext], the writer is as it was given, and the
    injectors after the first are not run, whatever they are. *)
Theorem chained_Inject_invalid (v : Propagator) (rest ex : list Propagator)
  (ctx : spanContext) (carrier : C) :
  isBuiltin v = true ->
  isTextMapWriter carrier = true ->
  traceID ctx = 0%N \/ spanID ctx = 0%N ->
  chained_Inject (mkChained (v :: rest) ex) (ptrSpanContext ctx) carrier
  = Ret (Some ErrInvalidSpanContext, carrier, ptrSpanContext ctx).
Proof.
  intros Hb Hw Hz. unfold chained_Inject. simpl.
  rewrite builtin_Inject_invalid; try assumption; [reflexivity|].
  destruct Hz as [Hz|Hz]; rewrite Hz; [reflexivity | apply orb_true_r].
Qed.

End ChainedInject.

(** X2, on a run: the chain [B3, other] where the other injector would
    write a header; the recorded [Set] calls stay empty. *)
Lemma chained_Inject_invalid_witness :
  chained_Inject (E := SpecExternals.externals) (CC := recorderCarrier)
    (mkChained
       [propagatorB3;
        otherPropagator
          (fun sc w => Ret (None, (w ++ [("k", "v")])%list, sc))
          (fun _ => Ret (nilSpanContext, Some ErrSpanContextNotFound))]
       [])
    (ptrSpanContext (mkSpanContext false None 0 52 [] "" None)) []
  = Ret (Some ErrInvalidSpanContext, [],
         ptrSpanContext (mkSpanContext false None 0 52 [] "" None)).
Proof.
  apply (chained_Inject_invalid (E := SpecExternals.externals)
           (CC := recorderCarrier)).
  - reflexivity.
  - reflexivity.
  - left. reflexivity.
Defined.

(** ** Errors and missing headers in first-party extraction *)

Section ExtractErrors.

Context {E : Externals}.

Lemma ForeachKey_app {S : Type} (l1 l2 : list (string * string))
  (handler : string -> string -> S -> visit S) (s : S) :
  ForeachKey (l1 ++ l2)%list handler s
  = match ForeachKey l1 handler s with
    | Continue s' => ForeachKey l2 handler s'
    | Stop e => Stop e
    end.
Proof.
  revert s. induction l1 as [|[k v] l1 IH]; intros s; simpl; [reflexivity|].
  destruct (handler k v s); [apply IH | reflexivity].
Qed.

Lemma extractVisitor_fails (cfg : PropagatorConfig) (k v : string)
  (ctx : spanContext) :
  headerParses cfg (k, v) = false ->
  extractVisitor cfg k v ctx = Stop ErrSpanContextCorrupted.
Proof.
  unfold headerParses, extractVisitor. cbn [fst snd].
  repeat match goal with
         | |- context [String.eqb ?a ?b] => destruct (String.eqb a b)
         | |- context [parseUint64 ?s] => destruct (parseUint64 s)
         | |- context [Strconv.Atoi ?s] => destruct (Strconv.Atoi s)
         | |- context [Strings.HasPrefix ?a ?b] =>
             destruct (Strings.HasPrefix a b)
         end;
    intros H; try discriminate H; reflexivity.
Qed.

Lemma ForeachKey_fails (cfg : PropagatorConfig)
  (reader : list (string * string)) (ctx : spanContext) :
  forallb (headerParses cfg) reader = false ->
  ForeachKey reader (extractVisitor cfg) ctx = Stop ErrSpanContextCorrupted.
Proof.
  revert ctx. induction reader as [|[k v] rest IH]; intros ctx H; simpl in *.
  - discriminate H.
  - destruct (headerParses cfg (k, v)) eqn:Hkv.
    + destruct (extractVisitor_parses cfg k v ctx Hkv) as [ctx1 H1].
      rewrite H1. apply IH. exact H.
    + rewrite extractVisitor_fails by exact Hkv. reflexivity.
Qed.

(** X3. If some header of the carrier does not parse (a trace ID, parent
    ID or sampling priority that is not a number), first-party extraction
    returns no context and [ErrSpanContextCorrupted], wherever that header
    sits among the others and whatever the others hold. *)
Theorem extractTextMap_corrupted (cfg : PropagatorConfig)
  (reader : list (string * string)) :
  forallb (headerParses cfg) reader = false ->
  extractTextMap cfg reader = (nilSpanContext, Some ErrSpanContextCorrupted).
Proof.
  intros H. unfold extractTextMap. rewrite ForeachKey_fails by exact H.
  reflexivity.
Qed.

Lemma extractVisitor_keeps_traceID (cfg : PropagatorConfig) (k v : string)
  (ctx ctx' : spanContext) :
  String.eqb (toLower k) (TraceHeader cfg) = false ->
  extractVisitor cfg k v ctx = Continue ctx' ->
  traceID ctx' = traceID ctx.
Proof.
  unfold extractVisitor. intros Hk. rewrite Hk.
  repeat match goal with
         | |- context [String.eqb ?a ?b] => destruct (String.eqb a b)
         | |- context [parseUint64 ?s] => destruct (parseUint64 s)
         | |- context [Strconv.Atoi ?s] => destruct (Strconv.Atoi s)
         | |- context [Strings.HasPrefix ?a ?b] =>
             destruct (Strings.HasPrefix a b)
         end;
    intros H; try discriminate H; injection H as <-; try reflexivity.
  unfold unmarshalPropagatingTags.
  destruct (propagationExtractMaxSize <? String.length v)%nat;
    [reflexivity|].
  destruct (parsePropagatableTraceTags v). reflexivity.
Qed.

Lemma ForeachKey_keeps_traceID (cfg : PropagatorConfig)
  (reader : list (string * string)) (ctx ctx' : spanContext) :
  (forall k v, In (k, v) reader ->
               String.eqb (toLower k) (TraceHeader cfg) = false) ->
  ForeachKey reader (extractVisitor cfg) ctx = Continue ctx' ->
  traceID ctx' = traceID ctx.
Proof.
  revert ctx. induction reader as [|[k v] rest IH]; intros ctx Hkeys H;
    simpl in H.
  - injection H as <-. reflexivity.
  - destruct (extractVisitor cfg k v ctx) as [ctx1|e] eqn:H1;
      [|discriminate H].
    rewrite (IH ctx1).
    + apply (extractVisitor_keeps_traceID cfg k v); [|exact H1].
      apply (Hkeys k v). left. reflexivity.
    + intros k' v' Hin. apply (Hkeys k' v'). right. exact Hin.
    + exact H.
Qed.

(** X4. A carrier none of whose keys is, up to case, the configured trace
    ID header never yields a span context: first-party extraction returns
    [ErrSpanContextNotFound], or [ErrSpanContextCorrupted] when another
    header does not parse. *)
Theorem extractTextMap_no_trace_header (cfg : PropagatorConfig)
  (reader : list (string * string)) :
  (forall k v, In (k, v) reader ->
               String.eqb (toLower k) (TraceHeader cfg) = false) ->
  extractTextMap cfg reader = (nilSpanContext, Some ErrSpanContextNotFound)
  \/ extractTextMap cfg reader
     = (nilSpanContext, Some ErrSpanContextCorrupted).
Proof.
  intros Hkeys. destruct (forallb (headerParses cfg) reader) eqn:Hp.
  - left. unfold extractTextMap.
    destruct (ForeachKey_parses cfg reader zeroSpanContext Hp) as [ctx Hctx].
    rewrite Hctx.
    pose proof (ForeachKey_keeps_traceID cfg reader _ _ Hkeys Hctx) as Ht.
    unfold extractedContextMissing. rewrite Ht. reflexivity.
  - right. unfold extractTextMap. rewrite ForeachKey_fails by exact Hp.
    reflexivity.
Qed.

End ExtractErrors.

(** X3, on a run: a valid trace ID followed by a parent ID that is not a
    number. *)
Lemma extractTextMap_corrupted_witness :
  extractTextMap (E := SpecExternals.externals) (configDefaults None)
    [("x-datadog-trace-id", "42"); ("X-Datadog-Parent-Id", "4x2")]
  = (nilSpanContext, Some ErrSpanContextCorrupted).
Proof.
  apply (extractTextMap_corrupted (E := SpecExternals.externals)).
  reflexivity.
Defined.

(** X4, on a run: a parent ID, an origin and baggage, but no trace ID. *)
Lemma extractTextMap_no_trace_header_witness :
  extractTextMap (E := SpecExternals.externals) (configDefaults None)
    [("x-datadog-parent-id", "52"); ("x-datadog-origin", "synthetics");
     ("ot-baggage-k", "v")]
  = (nilSpanContext, Some ErrSpanContextNotFound)
  \/ extractTextMap (E := SpecExternals.externals) (configDefaults None)
       [("x-datadog-parent-id", "52"); ("x-datadog-origin", "synthetics");
        ("ot-baggage-k", "v")]
     = (nilSpanContext, Some ErrSpanContextCorrupted).
Proof.
  apply (extractTextMap_no_trace_header (E := SpecExternals.externals)).
  intros k v [H|[H|[H|[]]]]; inversion H; reflexivity.
Defined.

(** ** B3 extraction and the order of the carrier *)

Section B3Order.

Context {E : Externals}.

Lemma extractVisitorB3_comm (k1 v1 k2 v2 : string) (ctx : spanContext) :
  toLower k1 <> toLower k2 ->
  thenVisitB3 k2 v2 (extractVisitorB3 k1 v1 ctx)
  = thenVisitB3 k1 v1 (extractVisitorB3 k2 v2 ctx).
Proof.
  intros Hne. unfold thenVisitB3, extractVisitorB3.
  destruct (String.eqb_spec (toLower k1) b3TraceIDHeader) as [H1|H1];
    destruct (String.eqb_spec (toLower k2) b3TraceIDHeader) as [H2|H2];
    try (exfalso; apply Hne; congruence);
    destruct (String.eqb_spec (toLower k1) b3SpanIDHeader) as [H3|H3];
    destruct (String.eqb_spec (toLower k2) b3SpanIDHeader) as [H4|H4];
    try (exfalso; apply Hne; congruence);
    destruct (String.eqb_spec (toLower k1) b3SampledHeader) as [H5|H5];
    destruct (String.eqb_spec (toLower k2) b3SampledHeader) as [H6|H6];
    try (exfalso; apply Hne; congruence);
    repeat match goal with
           | |- context [Strconv.ParseUint ?s ?b] =>
               destruct (Strconv.ParseUint s b)
           | |- context [Strconv.Atoi ?s] => destruct (Strconv.Atoi s)
           end;
    reflexivity.
Qed.

Lemma ForeachKey_B3_stopped (l : list (string * string)) (e : error) :
  fold_left (fun r kv => thenVisitB3 (fst kv) (snd kv) r) l (Stop e) = Stop e.
Proof. induction l as [|[k v] l IH]; simpl; [reflexivity | exact IH]. Qed.

Lemma ForeachKey_B3_fold (l : list (string * string)) (ctx : spanContext) :
  ForeachKey l extractVisitorB3 ctx
  = fold_left (fun r kv => thenVisitB3 (fst kv) (snd kv) r) l (Continue ctx).
Proof.
  revert ctx. induction l as [|[k v] l IH]; intros ctx; simpl;
    [reflexivity|].
  destruct (extractVisitorB3 k v ctx) as [ctx'|e].
  - apply IH.
  - symmetry. apply ForeachKey_B3_stopped.
Qed.

Lemma fold_B3_permutation (l l' : list (string * string)) :
  Permutation l l' ->
  NoDup (map (fun kv => toLower (fst kv)) l) ->
  forall r,
    fold_left (fun r kv => thenVisitB3 (fst kv) (snd kv) r) l r
    = fold_left (fun r kv => thenVisitB3 (fst kv) (snd kv) r) l' r.
Proof.
  induction 1 as [|x l l' Hp IH|x y l|l l' l'' Hp1 IH1 Hp2 IH2];
    intros Hnd r.
  - reflexivity.
  - simpl. apply IH. inversion Hnd; assumption.
  - simpl. f_equal.
    assert (Hne : toLower (fst y) <> toLower (fst x)).
    { simpl in Hnd. inversion Hnd as [|? ? Hnin _]; subst.
      intros Heq. apply Hnin. left. symmetry. exact Heq. }
    destruct r as [ctx|e]; [|reflexivity].
    apply (extractVisitorB3_comm _ _ _ _ ctx Hne).
  - rewrite IH1 by exact Hnd. apply IH2.
    apply (Permutation_NoDup (l := map (fun kv => toLower (fst kv)) l));
      [apply Permutation_map; exact Hp1 | exact Hnd].
Qed.

Lemma ForeachKey_B3_permutation (reader reader' : list (string * string))
  (ctx : spanContext) :
  Permutation reader reader' ->
  NoDup (map (fun kv => toLower (fst kv)) reader) ->
  ForeachKey reader' extractVisitorB3 ctx
  = ForeachKey reader extractVisitorB3 ctx.
Proof.
  intros Hp Hnd. rewrite !ForeachKey_B3_fold.
  rewrite (fold_B3_permutation reader reader' Hp Hnd). reflexivity.
Qed.

(** X5. B3 extraction does not depend on the order in which the carrier
    yields its pairs (a Go map yields them in any order), as long as no two
    keys agree up to case. *)
Theorem extractTextMapB3_order (reader reader' : list (string * string)) :
  Permutation reader reader' ->
  NoDup (map (fun kv => toLower (fst kv)) reader) ->
  extractTextMapB3 reader' = extractTextMapB3 reader.
Proof.
  intros Hp Hnd. unfold extractTextMapB3.
  rewrite (ForeachKey_B3_permutation reader reader' _ Hp Hnd). reflexivity.
Qed.

(** X6. B3 round trip.  What B3 injection writes into an empty text map
    for a context with non-zero 64-bit IDs, B3 extraction reads back, in
    whatever order the map yields its entries: the same trace ID and span
    ID, and the sampling priority 1 or 0 according to whether the injected
    priority was at least auto-keep (none if none was set). *)
Theorem B3_round_trip (ctx : spanContext) (w : TextMapCarrier)
  (sc : SpanContext) (reader : list (string * string)) :
  traceID ctx <> 0%N -> spanID ctx <> 0%N ->
  (traceID ctx <= Strconv.maxUint64)%N ->
  (spanID ctx <= Strconv.maxUint64)%N ->
  injectTextMapB3 (ptrSpanContext ctx) ([] : TextMapCarrier)
  = Ret (None, w, sc) ->
  Permutation w reader ->
  extractTextMapB3 reader = (ptrSpanContext (b3Image ctx), None).
Proof.
  intros Ht Hs Htb Hsb Hinj Hperm.
  destruct (Sprintf_016x_spec (traceID ctx) Htb) as [Hl1 [_ Hp1]].
  destruct (Sprintf_016x_spec (spanID ctx) Hsb) as [_ [_ Hp2]].
  unfold injectTextMapB3, samplingPriority in Hinj.
  pose proof Ht as Ht'. pose proof Hs as Hs'.
  apply N.eqb_neq in Ht'. apply N.eqb_neq in Hs'.
  rewrite Ht', Hs' in Hinj. cbn [orb] in Hinj.
  remember (Strconv.Sprintf_0x 16 (traceID ctx)) as tid.
  remember (Strconv.Sprintf_0x 16 (spanID ctx)) as sid.
  assert (Hdigits : b3TraceIDDigits tid = tid).
  { unfold b3TraceIDDigits. rewrite Hl1. reflexivity. }
  assert (Hbase :
    forall tail (c0 : spanContext),
      ForeachKey
        ((b3TraceIDHeader, tid) :: (b3SpanIDHeader, sid) :: tail)
        extractVisitorB3 c0
      = ForeachKey tail extractVisitorB3
          (withSpanID (withTraceID c0 (traceID ctx)) (spanID ctx))).
  { intros tail c0. cbn [ForeachKey].
    unfold extractVisitorB3 at 1. cbn [toLower Strings.ToLower].
    change (toLower b3TraceIDHeader) with b3TraceIDHeader.
    rewrite String.eqb_refl, Hdigits, Hp1.
    unfold extractVisitorB3 at 1.
    change (toLower b3SpanIDHeader) with b3SpanIDHeader.
    change (String.eqb b3SpanIDHeader b3TraceIDHeader) with false.
    rewrite String.eqb_refl, Hp2. reflexivity. }
  unfold extractTextMapB3.
  rewrite (ForeachKey_B3_permutation w reader _ Hperm).
  - unfold b3Image.
    destruct (priority ctx) as [[p s]|]; cbn in Hinj.
    + rewrite Z.geb_leb in Hinj.
      destruct (PriorityAutoKeep <=? p)%Z;
        injection Hinj as <- _; rewrite Hbase; cbn;
        rewrite Ht', Hs'; reflexivity.
    + injection Hinj as <- _. rewrite Hbase. cbn.
      rewrite Ht', Hs'. reflexivity.
  - destruct (priority ctx) as [[p s]|]; cbn in Hinj.
    + destruct (p >=? PriorityAutoKeep)%Z; injection Hinj as <- _;
        cbn; repeat constructor; cbn; intuition discriminate.
    + injection Hinj as <- _.
      cbn; repeat constructor; cbn; intuition discriminate.
Qed.

End B3Order.

(** X5, on a run: the two ID headers in the two orders. *)
Lemma extractTextMapB3_order_witness :
  extractTextMapB3 (E := SpecExternals.externals)
    [("X-B3-SpanId", "34"); ("X-B3-TraceId", "2a")]
  = extractTextMapB3 (E := SpecExternals.externals)
      [("X-B3-TraceId", "2a"); ("X-B3-SpanId", "34")].
Proof.
  apply (extractTextMapB3_order (E := SpecExternals.externals)).
  - apply perm_swap.
  - repeat constructor; simpl; intuition discriminate.
Defined.

(** X6, on a run: trace ID 42, span ID 52, priority 2, and the entries read
    back in the reverse of the order they were set. *)
Lemma B3_round_trip_witness :
  extractTextMapB3 (E := SpecExternals.externals)
    [("x-b3-sampled", "1"); ("x-b3-spanid", "0000000000000034");
     ("x-b3-traceid", "000000000000002a")]
  = (ptrSpanContext
       (mkSpanContext false None 42 52 [] ""
          (Some (1%Z, SamplerUnknown))), None).
Proof.
  apply (B3_round_trip (E := SpecExternals.externals)
           (mkSpanContext false (Some newTrace) 42 52 [("k", "v")] "rum"
              (Some (2%Z, SamplerOther 4)))
           [("x-b3-traceid", "000000000000002a");
            ("x-b3-spanid", "0000000000000034"); ("x-b3-sampled", "1")]
           (ptrSpanContext
              (mkSpanContext false (Some newTrace) 42 52 [("k", "v")] "rum"
                 (Some (2%Z, SamplerOther 4))))).
  - discriminate.
  - discriminate.
  - vm_compute. discriminate.
  - vm_compute. discriminate.
  - reflexivity.
  - exact (Permutation_rev
             [("x-b3-traceid", "000000000000002a");
              ("x-b3-spanid", "0000000000000034"); ("x-b3-sampled", "1")]).
Defined.

(** ** More on the configured propagator lists *)

Section MoreSelection.

Context {E : Externals} {C : Type} {CC : Carrier C}.

Lemma selectPropagators_flat_map (cfg : PropagatorConfig)
  (tokens : list string) (lst : list (Propagator (C := C)))
  (warnings : list string) :
  fst (selectPropagators cfg (propagator cfg) tokens lst warnings)
  = (lst ++ flat_map (tokenPropagators cfg) tokens)%list.
Proof.
  revert lst warnings.
  induction tokens as [|v rest IH]; intros lst warnings; simpl.
  - now rewrite app_nil_r.
  - unfold tokenPropagators at 1.
    destruct (String.eqb (toLower v) "datadog").
    { rewrite IH, <- app_assoc. reflexivity. }
    destruct (String.eqb (toLower v) "b3" || String.eqb (toLower v) "b3multi");
      simpl.
    { destruct (negb (B3 cfg)); simpl;
        [rewrite IH, <- app_assoc; reflexivity | apply IH]. }
    destruct (String.eqb (toLower v) "none"); apply IH.
Qed.

(** X7. For a resolved selector that is neither empty nor [none], the list
    holds the B3 propagator first if the flag is set, then one propagator
    per token that names a format, in the order of the tokens and with
    repetitions kept ([b3] and [b3multi] add nothing when the flag is set);
    the default list is returned only if that list is empty. *)
Theorem getPropagators_selected (getenv : string -> string)
  (cfg : PropagatorConfig) (ps : string) :
  resolvedSelector getenv ps <> "" ->
  resolvedSelector getenv ps <> "none" ->
  fst (getPropagators (C := C) getenv cfg ps)
  = match ((if B3 cfg then [propagatorB3] else [])
           ++ flat_map (tokenPropagators cfg)
                (Strings.Split (resolvedSelector getenv ps) ","))%list with
    | [] => if B3 cfg then [propagator cfg; propagatorB3]
            else [propagator cfg]
    | sel => sel
    end.
Proof.
  intros He Hn. rewrite getPropagators_resolved. cbv zeta.
  apply String.eqb_neq in He. apply String.eqb_neq in Hn. rewrite He, Hn.
  pose proof (selectPropagators_flat_map cfg
                (Strings.Split (resolvedSelector getenv ps) ",")
                (if B3 cfg then [propagatorB3] else []) []) as Hsel.
  destruct (selectPropagators cfg (propagator cfg)
              (Strings.Split (resolvedSelector getenv ps) ",")
              (if B3 cfg then [propagatorB3] else []) [])
    as [lst warnings].
  simpl in Hsel. rewrite <- Hsel. destruct lst; reflexivity.
Qed.

Lemma tokenPropagators_kinds (cfg : PropagatorConfig)
  (tokens : list string) :
  forallb isDatadogOrB3 (flat_map (tokenPropagators (C := C) cfg) tokens)
  = true.
Proof.
  induction tokens as [|v rest IH]; simpl; [reflexivity|].
  rewrite forallb_app, IH, andb_true_r. unfold tokenPropagators.
  destruct (String.eqb (toLower v) "datadog"); [reflexivity|].
  destruct ((String.eqb (toLower v) "b3" || String.eqb (toLower v) "b3multi")
            && negb (B3 cfg)); reflexivity.
Qed.

Lemma getPropagators_kinds (getenv : string -> string)
  (cfg : PropagatorConfig) (ps : string) :
  forallb isDatadogOrB3 (fst (getPropagators (C := C) getenv cfg ps)) = true.
Proof.
  rewrite getPropagators_resolved. cbv zeta.
  destruct (String.eqb (resolvedSelector getenv ps) "");
    [destruct (B3 cfg); reflexivity|].
  destruct (String.eqb (resolvedSelector getenv ps) "none"); [reflexivity|].
  pose proof (selectPropagators_flat_map cfg
                (Strings.Split (resolvedSelector getenv ps) ",")
                (if B3 cfg then [propagatorB3] else []) []) as Hsel.
  destruct (selectPropagators cfg (propagator cfg)
              (Strings.Split (resolvedSelector getenv ps) ",")
              (if B3 cfg then [propagatorB3] else []) [])
    as [lst warnings].
  simpl in Hsel.
  assert (Hk : forallb isDatadogOrB3 lst = true).
  { rewrite Hsel, forallb_app, tokenPropagators_kinds.
    destruct (B3 cfg); reflexivity. }
  destruct lst; [destruct (B3 cfg); reflexivity | exact Hk].
Qed.

Lemma chainedExtractLoop_returns (l : list Propagator) (carrier : C) :
  forallb isDatadogOrB3 l = true ->
  exists r, chainedExtractLoop l carrier = Ret r.
Proof.
  induction l as [|v rest IH]; intros H; simpl.
  - eexists; reflexivity.
  - simpl in H. apply andb_prop in H as [Hv Hrest].
    assert (Hret : exists r, Extract v carrier = Ret r).
    { destruct v; try discriminate Hv; simpl;
        unfold propagator_Extract, propagatorB3_Extract;
        destruct (isTextMapReader carrier); eexists; reflexivity. }
    destruct Hret as [[ctx err] Hret]. rewrite Hret. simpl.
    destruct (isNonNil ctx); [eexists; reflexivity|].
    destruct (isErrSpanContextNotFound err);
      [apply IH; exact Hrest | eexists; reflexivity].
Qed.

(** X8. A propagator that [NewPropagator] builds from the environment (no
    explicit propagators) holds only first-party and B3 propagators, as
    injectors and as extractors: no selector brings in the W3C propagator.
    Its [Extract] therefore returns for every carrier, it never panics. *)
Theorem NewPropagator_from_env (getenv : string -> string)
  (cfg : option PropagatorConfig) (carrier : C) :
  let p := fst (NewPropagator (C := C) getenv cfg []) in
  forallb isDatadogOrB3 (injectors p) = true
  /\ forallb isDatadogOrB3 (extractors p) = true
  /\ exists r, chained_Extract p carrier = Ret r.
Proof.
  unfold NewPropagator.
  destruct (selectorFromEnv getenv headerPropagationStyleInject
              headerPropagationStyleInjectDeprecated) as [ips w1].
  destruct (selectorFromEnv getenv headerPropagationStyleExtract
              headerPropagationStyleExtractDeprecated) as [eps w2].
  pose proof (getPropagators_kinds getenv (configDefaults cfg) ips) as Hi.
  pose proof (getPropagators_kinds getenv (configDefaults cfg) eps) as He.
  destruct (getPropagators getenv (configDefaults cfg) ips) as [inj w3].
  destruct (getPropagators getenv (configDefaults cfg) eps) as [ext w4].
  simpl in *. repeat split; try assumption.
  apply chainedExtractLoop_returns. exact He.
Qed.

Lemma getPropagators_env_free (getenv : string -> string)
  (cfg : PropagatorConfig) (ps : string) :
  getPropagators (C := C) getenv cfg ps
  = getPropagators (fun _ => "") cfg (resolvedSelector getenv ps).
Proof.
  rewrite !getPropagators_resolved.
  assert (H : resolvedSelector (fun _ => "") (resolvedSelector getenv ps)
              = resolvedSelector getenv ps).
  { unfold resolvedSelector at 1.
    destruct (String.eqb_spec (resolvedSelector getenv ps) "") as [H|H];
      [symmetry; exact H | reflexivity]. }
  rewrite H. reflexivity.
Qed.

Lemma NewPropagator_lists (getenv : string -> string)
  (cfg : option PropagatorConfig) :
  let p := fst (NewPropagator (C := C) getenv cfg []) in
  injectors p
  = fst (getPropagators (fun _ => "") (configDefaults cfg)
           (firstNonEmpty
              [getenv headerPropagationStyleInject;
               getenv headerPropagationStyleInjectDeprecated;
               getenv headerPropagationStyle]))
  /\ extractors p
     = fst (getPropagators (fun _ => "") (configDefaults cfg)
              (firstNonEmpty
                 [getenv headerPropagationStyleExtract;
                  getenv headerPropagationStyleExtractDeprecated;
                  getenv headerPropagationStyle])).
Proof.
  assert (Hsel : forall name deprecated,
             resolvedSelector getenv
               (fst (selectorFromEnv getenv name deprecated))
             = firstNonEmpty [getenv name; getenv deprecated;
                              getenv headerPropagationStyle]).
  { intros name deprecated. unfold selectorFromEnv, resolvedSelector.
    cbn [firstNonEmpty].
    destruct (String.eqb (getenv name) "") eqn:H1.
    - destruct (String.eqb (getenv deprecated) "") eqn:H2; cbn [negb fst];
        rewrite H2; [|reflexivity].
      destruct (String.eqb (getenv headerPropagationStyle) "") eqn:H3;
        [apply String.eqb_eq in H3; exact H3 | reflexivity].
    - cbn [fst]. rewrite H1. reflexivity. }
  unfold NewPropagator.
  pose proof (Hsel headerPropagationStyleInject
                headerPropagationStyleInjectDeprecated) as H1.
  pose proof (Hsel headerPropagationStyleExtract
                headerPropagationStyleExtractDeprecated) as H2.
  destruct (selectorFromEnv getenv headerPropagationStyleInject
              headerPropagationStyleInjectDeprecated) as [ips w1].
  destruct (selectorFromEnv getenv headerPropagationStyleExtract
              headerPropagationStyleExtractDeprecated) as [eps w2].
  cbn [fst] in H1, H2.
  rewrite (getPropagators_env_free getenv (configDefaults cfg) ips), H1.
  rewrite (getPropagators_env_free getenv (configDefaults cfg) eps), H2.
  destruct (getPropagators _ (configDefaults cfg) (firstNonEmpty _))
    as [inj w3].
  destruct (getPropagators _ (configDefaults cfg) (firstNonEmpty _))
    as [ext w4].
  split; reflexivity.
Qed.


(** X9. The precedence of the environment.  Without explicit propagators,
    the injectors are those of the first non-empty value among
    [DD_TRACE_PROPAGATION_STYLE_INJECT], [DD_PROPAGATION_STYLE_INJECT] and
    [DD_TRACE_PROPAGATION_STYLE] (the default list if all are empty), and the
    extractors those of the first non-empty value among the two [EXTRACT]
    variables and [DD_TRACE_PROPAGATION_STYLE]; nothing else of the
    environment matters. *)
Theorem NewPropagator_precedence (getenv : string -> string)
  (cfg : option PropagatorConfig) :
  let p := fst (NewPropagator (C := C) getenv cfg []) in
  injectors p
  = fst (getPropagators (fun _ => "") (configDefaults cfg)
           (firstNonEmpty
              [getenv headerPropagationStyleInject;
               getenv headerPropagationStyleInjectDeprecated;
               getenv headerPropagationStyle]))
  /\ extractors p
     = fst (getPropagators (fun _ => "") (configDefaults cfg)
              (firstNonEmpty
                 [getenv headerPropagationStyleExtract;
                  getenv headerPropagationStyleExtractDeprecated;
                  getenv headerPropagationStyle])).
Proof. apply NewPropagator_lists. Qed.

(** X20. When the first non-empty of the three inject variables is [none],
    [Inject] on the propagator that [NewPropagator] builds does nothing: it
    returns no error and leaves the carrier as it is, for every span
    context, an invalid one included.  When the first non-empty of the three
    extract variables is [none], [Extract] returns
    [ErrSpanContextNotFound] for every carrier. *)
Theorem NewPropagator_none (getenv : string -> string)
  (cfg : option PropagatorConfig) (spanCtx : SpanContext) (carrier : C) :
  let p := fst (NewPropagator (C := C) getenv cfg []) in
  (firstNonEmpty
     [getenv headerPropagationStyleInject;
      getenv headerPropagationStyleInjectDeprecated;
      getenv headerPropagationStyle] = "none" ->
   chained_Inject p spanCtx carrier = Ret (None, carrier, spanCtx))
  /\ (firstNonEmpty
        [getenv headerPropagationStyleExtract;
         getenv headerPropagationStyleExtractDeprecated;
         getenv headerPropagationStyle] = "none" ->
      chained_Extract p carrier
      = Ret (nilSpanContext, Some ErrSpanContextNotFound)).
Proof.
  destruct (NewPropagator_lists getenv cfg) as [Hi He].
  cbv zeta in *. unfold chained_Inject, chained_Extract.
  split; intros Hnone.
  - rewrite Hi, Hnone. reflexivity.
  - rewrite He, Hnone. reflexivity.
Qed.

End MoreSelection.

(** X7, on a run: no flag and the selector [B3,foo,datadog,b3multi]. *)
Lemma getPropagators_selected_witness :
  fst (getPropagators (E := SpecExternals.externals) (C := TextMapCarrier)
         (fun _ => "") (configDefaults None) "B3,foo,datadog,b3multi")
  = [propagatorB3; propagator (configDefaults None); propagatorB3].
Proof.
  rewrite (getPropagators_selected (E := SpecExternals.externals)
             (C := TextMapCarrier)).
  - reflexivity.
  - discriminate.
  - discriminate.
Defined.

(** X20, on a run: the deprecated inject variable set to [none] and an
    invalid span context; the recorded [Set] calls stay empty. *)
Lemma NewPropagator_none_witness :
  chained_Inject (E := SpecExternals.externals) (CC := recorderCarrier)
    (fst (NewPropagator (E := SpecExternals.externals)
            (fun name =>
               if String.eqb name headerPropagationStyleInjectDeprecated
               then "none" else "")
            None []))
    (ptrSpanContext zeroSpanContext) []
  = Ret (None, [], ptrSpanContext zeroSpanContext).
Proof.
  apply (NewPropagator_none (E := SpecExternals.externals)
           (CC := recorderCarrier)
           (fun name =>
              if String.eqb name headerPropagationStyleInjectDeprecated
              then "none" else "")
           None (ptrSpanContext zeroSpanContext) []).
  reflexivity.
Defined.

(** ** The selector [none] is matched exactly *)

Section NoneSelector.

Context {E : Externals} {C : Type} {CC : Carrier C}.

Lemma lowerByte_comma (c : ascii) :
  Ascii.eqb (Strings.lowerByte c) "," = Ascii.eqb c ",".
Proof.
  destruct c as [b0 b1 b2 b3 b4 b5 b6 b7].
  destruct b0, b1, b2, b3, b4, b5, b6, b7; reflexivity.
Qed.

Lemma Count_lower_comma (s : string) :
  Strings.Count (Strings.mapBytes Strings.lowerByte s) ","
  = Strings.Count s ",".
Proof.
  induction s as [|c s IH]; simpl; [reflexivity|].
  rewrite lowerByte_comma, IH. reflexivity.
Qed.

Lemma Split_no_separator (s : string) (sep : ascii) :
  Strings.Count s sep = 0%nat -> Strings.Split s sep = [s].
Proof.
  induction s as [|c s IH]; simpl; [reflexivity|].
  destruct (Ascii.eqb c sep); simpl; [discriminate|].
  intros H. rewrite (IH H). reflexivity.
Qed.

(** X10. Only the selector spelled [none] disables a direction.  An ASCII
    selector that is [none] up to case but not [none] itself (such as
    [None] or [NONE]) is read as a token without effect: a warning is
    logged and the list is the one of an empty selection, the default list
    without the B3 flag and [B3] alone with it. *)
Theorem getPropagators_none_case (getenv : string -> string)
  (cfg : PropagatorConfig) (ps : string) :
  Strings.isASCII ps = true ->
  toLower ps = "none" ->
  ps <> "none" ->
  getPropagators (C := C) getenv cfg ps
  = (if B3 cfg then [propagatorB3] else [propagator cfg], [warnNone]).
Proof.
  intros Hascii Hlower Hne.
  assert (Hnonempty : String.eqb ps "" = false).
  { destruct ps; [discriminate Hlower | reflexivity]. }
  assert (Hsplit : Strings.Split ps "," = [ps]).
  { apply Split_no_separator. rewrite <- Count_lower_comma.
    unfold toLower, Strings.ToLower in Hlower. rewrite Hascii in Hlower.
    rewrite Hlower. reflexivity. }
  rewrite getPropagators_resolved. unfold resolvedSelector.
  rewrite Hnonempty. cbv zeta. rewrite Hnonempty.
  apply String.eqb_neq in Hne. rewrite Hne, Hsplit.
  cbn [selectPropagators]. rewrite Hlower. cbn.
  destruct (B3 cfg); reflexivity.
Qed.

End NoneSelector.

(** X10, on a run: the selector [None], without the flag. *)
Lemma getPropagators_none_case_witness :
  getPropagators (E := SpecExternals.externals) (C := TextMapCarrier)
    (fun _ => "") (configDefaults None) "None"
  = ([propagator (configDefaults None)], [warnNone]).
Proof.
  apply (getPropagators_none_case (E := SpecExternals.externals)
           (C := TextMapCarrier) (fun _ => "") (configDefaults None) "None").
  - reflexivity.
  - reflexivity.
  - discriminate.
Defined.

(** ** What the serialization of the tags emits *)

Section MarshalJoin.

Context {E : Externals}.

Lemma concat_cons (sep x : string) (l : list string) :
  String.concat sep (x :: l)
  = match l with
    | [] => x
    | _ => x ++ sep ++ String.concat sep l
    end.
Proof. destruct l; reflexivity. Qed.

Lemma commaTags_cons (kv : string * string) (l : gomap) :
  commaTags (kv :: l) = "," ++ tagPair kv ++ commaTags l.
Proof.
  unfold commaTags. cbn [map]. rewrite concat_cons.
  destruct (map (fun kv0 => "," ++ tagPair kv0) l) eqn:Hl.
  - simpl. now rewrite append_empty_r.
  - simpl. reflexivity.
Qed.

Lemma joinTags_cons (kv : string * string) (l : gomap) :
  joinTags (kv :: l) = tagPair kv ++ commaTags l.
Proof.
  revert kv. induction l as [|kv' l IH]; intros kv.
  - unfold joinTags, commaTags. simpl. now rewrite append_empty_r.
  - unfold joinTags in *. cbn [map]. rewrite concat_cons.
    cbn [map] in IH. rewrite IH, commaTags_cons. reflexivity.
Qed.

Lemma writeTags_nonempty (l : gomap) (sb : string) :
  (0 < String.length sb)%nat -> writeTags l sb = sb ++ commaTags l.
Proof.
  revert sb. induction l as [|kv l IH]; intros sb Hsb.
  - unfold commaTags. simpl. now rewrite append_empty_r.
  - cbn [writeTags fold_left]. fold (writeTags l).
    apply Nat.ltb_lt in Hsb. rewrite Hsb.
    rewrite IH.
    + rewrite commaTags_cons, !append_assoc. reflexivity.
    + rewrite !length_append. unfold tagPair. rewrite !length_append.
      simpl. lia.
Qed.

Lemma writeTags_empty (l : gomap) : writeTags l "" = joinTags l.
Proof.
  destruct l as [|kv l]; [reflexivity|].
  cbn [writeTags fold_left]. fold (writeTags l). cbn [String.length Nat.ltb
    Nat.leb append].
  rewrite writeTags_nonempty, joinTags_cons; [reflexivity|].
  unfold tagPair. rewrite !length_append. simpl. lia.
Qed.

Lemma writeTags_grows (l : gomap) (sb : string) :
  (String.length sb <= String.length (writeTags l sb))%nat.
Proof.
  revert sb. induction l as [|kv l IH]; intros sb; [apply Nat.le_refl|].
  cbn [writeTags fold_left]. fold (writeTags l).
  eapply Nat.le_trans; [|apply IH].
  destruct (0 <? String.length sb)%nat; rewrite !length_append; lia.
Qed.

Lemma mapSet_twice (m : gomap) (k v : string) :
  mapSet (mapSet m k v) k v = mapSet m k v.
Proof.
  induction m as [|[k' v'] m IH]; simpl.
  - now rewrite String.eqb_refl.
  - destruct (String.eqb k' k) eqn:Hk; simpl.
    + now rewrite String.eqb_refl.
    + now rewrite Hk, IH.
Qed.

Lemma setTag_twice (t : trace) (k v : string) :
  setTag (setTag t k v) k v = setTag t k v.
Proof. unfold setTag. simpl. now rewrite mapSet_twice. Qed.

Lemma withEncodingError_set (l : gomap) (t : trace) :
  withEncodingError l (setTag t keyPropagationError "encoding_error")
  = setTag t keyPropagationError "encoding_error".
Proof.
  unfold withEncodingError.
  destruct (forallb _ l); [reflexivity | apply setTag_twice].
Qed.

Lemma writeTags_cons (kv : string * string) (l : gomap) (sb : string) :
  writeTags (kv :: l) sb
  = writeTags l
      ((if (0 <? String.length sb)%nat then sb ++ "," else sb)
       ++ tagPair kv).
Proof. reflexivity. Qed.

Lemma validTags_cons (k v : string) (l : gomap) :
  validTags ((k, v) :: l)
  = if isValidPropagatableTag k v then (k, v) :: validTags l
    else validTags l.
Proof. reflexivity. Qed.

Lemma marshalTagsLoop_fits (cfg : PropagatorConfig) (l : gomap)
  (sb : string) (t : trace) :
  (Z.of_nat (String.length (writeTags (validTags l) sb))
   <= MaxTagsHeaderLen cfg)%Z ->
  marshalTagsLoop cfg l sb t
  = (writeTags (validTags l) sb, withEncodingError l t).
Proof.
  revert sb t. induction l as [|[k v] rest IH]; intros sb t Hfit.
  - reflexivity.
  - cbn [marshalTagsLoop]. rewrite validTags_cons in *.
    unfold withEncodingError. cbn [forallb fst snd].
    destruct (isValidPropagatableTag k v) eqn:Hv; cbn [negb andb].
    + rewrite writeTags_cons in *.
      pose proof (writeTags_grows (validTags rest)
                    ((if (0 <? String.length sb)%nat then sb ++ "," else sb)
                     ++ tagPair (k, v))) as Hgrow.
      assert (Hstep :
        (String.length sb + String.length k + String.length v
         < String.length
             ((if (0 <? String.length sb)%nat then sb ++ "," else sb)
              ++ tagPair (k, v)))%nat).
      { unfold tagPair. cbn [fst snd].
        destruct (0 <? String.length sb)%nat;
          rewrite !length_append; simpl; lia. }
      destruct (Z.gtb_spec
                  (Z.of_nat (String.length sb + String.length k
                             + String.length v)) (MaxTagsHeaderLen cfg))
        as [Hgt|Hle]; [exfalso; lia|].
      rewrite IH by exact Hfit. reflexivity.
    + rewrite IH by exact Hfit.
      rewrite withEncodingError_set. reflexivity.
Qed.

(** X11. When the comma-joined [key=value] string of the valid propagating
    tags is no longer than [MaxTagsHeaderLen], [marshalPropagatingTags]
    returns exactly that string: every valid pair, in the order of the
    iteration, none of the invalid ones; and the trace receives the
    diagnostic [encoding_error] if some pair is invalid and nothing
    otherwise. *)
Theorem marshalPropagatingTags_fits (cfg : PropagatorConfig)
  (ctx : spanContext) (t : trace) :
  ctxTrace ctx = Some t ->
  (Z.of_nat (String.length
               (joinTags (validTags (entriesOf (propagatingTags t)))))
   <= MaxTagsHeaderLen cfg)%Z ->
  marshalPropagatingTags cfg ctx
  = (joinTags (validTags (entriesOf (propagatingTags t))),
     withTrace ctx
       (Some (withEncodingError (entriesOf (propagatingTags t)) t))).
Proof.
  intros Ht Hfit. unfold marshalPropagatingTags. rewrite Ht.
  rewrite marshalTagsLoop_fits; rewrite writeTags_empty;
    [reflexivity | exact Hfit].
Qed.

Lemma marshalTagsLoop_negative (cfg : PropagatorConfig) (l : gomap)
  (t : trace) :
  (MaxTagsHeaderLen cfg < 0)%Z -> fst (marshalTagsLoop cfg l "" t) = "".
Proof.
  intros Hneg. revert t. induction l as [|[k v] rest IH]; intros t;
    [reflexivity|].
  cbn [marshalTagsLoop].
  destruct (isValidPropagatableTag k v); cbn [negb]; [|apply IH].
  destruct (Z.gtb_spec
              (Z.of_nat (String.length "" + String.length k
                         + String.length v)) (MaxTagsHeaderLen cfg));
    [reflexivity | lia].
Qed.

(** X12. The size of the serialized tags.  With a negative maximum the
    string is empty; otherwise it is at most [MaxTagsHeaderLen + 2] bytes
    long, whatever the tags: the size test leaves out the comma and the
    equals sign written with a pair. *)
Theorem marshalPropagatingTags_size (cfg : PropagatorConfig)
  (ctx : spanContext) :
  ((MaxTagsHeaderLen cfg < 0)%Z -> fst (marshalPropagatingTags cfg ctx) = "")
  /\ (Z.of_nat (String.length (fst (marshalPropagatingTags cfg ctx)))
      <= Z.max 0 (MaxTagsHeaderLen cfg + 2))%Z.
Proof.
  unfold marshalPropagatingTags. destruct (ctxTrace ctx) as [t|].
  - pose proof (marshalTagsLoop_length cfg (entriesOf (propagatingTags t))
                  "" t) as Hlen.
    pose proof (marshalTagsLoop_negative cfg (entriesOf (propagatingTags t))
                  t) as Hneg.
    destruct (marshalTagsLoop cfg (entriesOf (propagatingTags t)) "" t)
      as [s t'].
    cbn [fst] in *. split; [exact Hneg | apply Hlen; simpl; lia].
  - split; [reflexivity | simpl; lia].
Qed.

End MarshalJoin.

(** X11, on a run: two valid tags and one with a comma in its value, under
    a maximum of 128. *)
Lemma marshalPropagatingTags_fits_witness :
  fst (marshalPropagatingTags (E := SpecExternals.externals)
         (mkConfig "" "" "" "" 128 false)
         (mkSpanContext false
            (Some (mkTrace
                     (Some [("_dd.p.dm", "-4"); ("_dd.p.bad", "a,b");
                            ("_dd.p.usr", "u1")]) None))
            42 52 [] "" None))
  = "_dd.p.dm=-4,_dd.p.usr=u1".
Proof.
  rewrite (marshalPropagatingTags_fits (E := SpecExternals.externals)
             (mkConfig "" "" "" "" 128 false)
             (mkSpanContext false
                (Some (mkTrace
                         (Some [("_dd.p.dm", "-4"); ("_dd.p.bad", "a,b");
                                ("_dd.p.usr", "u1")]) None))
                42 52 [] "" None)
             (mkTrace
                (Some [("_dd.p.dm", "-4"); ("_dd.p.bad", "a,b");
                       ("_dd.p.usr", "u1")]) None) eq_refl).
  - reflexivity.
  - vm_compute. discriminate.
Defined.

(** X12, on a run: a negative maximum. *)
Lemma marshalPropagatingTags_size_witness :
  fst (marshalPropagatingTags (E := SpecExternals.externals)
         (mkConfig "" "" "" "" (-1) false)
         (mkSpanContext false
            (Some (mkTrace (Some [("_dd.p.dm", "-4")]) None))
            42 52 [] "" None))
  = "".
Proof.
  apply (marshalPropagatingTags_size (E := SpecExternals.externals)
           (mkConfig "" "" "" "" (-1) false)
           (mkSpanContext false
              (Some (mkTrace (Some [("_dd.p.dm", "-4")]) None))
              42 52 [] "" None)).
  reflexivity.
Defined.

(** ** Composition of the tracestate *)

Section Tracestate.

Lemma length_take (n : nat) (s : string) :
  (String.length (Strings.take n s) <= n)%nat
  /\ (String.length (Strings.take n s) <= String.length s)%nat.
Proof.
  revert s. induction n as [|n IH]; intros [|c s]; simpl; try lia.
  destruct (IH s). lia.
Qed.

Lemma LastIndex_lt (s : string) (sep : ascii) (j : nat) :
  Strings.LastIndex s sep = Some j -> (j < String.length s)%nat.
Proof.
  revert j. induction s as [|c s IH]; intros j; simpl; [discriminate|].
  destruct (Strings.LastIndex s sep) as [i|].
  - intros H. injection H as <-. specialize (IH i eq_refl). lia.
  - destruct (Ascii.eqb c sep); [|discriminate].
    intros H. injection H as <-. lia.
Qed.

Lemma SplitAfterN_first_length (s : string) (sep : ascii) (n : Z)
  (piece : string) :
  Strings.SplitAfterN_first s sep n = Some piece ->
  (String.length piece <= String.length s)%nat.
Proof.
  unfold Strings.SplitAfterN_first.
  destruct (n =? 0)%Z; [discriminate|].
  destruct (n =? 1)%Z; [intros H; injection H as <-; lia|].
  destruct (Strings.Index s sep) as [m|]; intros H; injection H as <-;
    [exact (proj2 (length_take (S m) s)) | lia].
Qed.

Lemma composeTagsLoop_invariant (l : gomap) (b : string) (n : nat) :
  (exists x, fst (composeTagsLoop l b n) = b ++ x)
  /\ (String.length (fst (composeTagsLoop l b n))
      <= Nat.max (String.length b) 257)%nat
  /\ (snd (composeTagsLoop l b n) <= Nat.max n 32)%nat.
Proof.
  revert b n. induction l as [|[k v] rest IH]; intros b n.
  - simpl. split; [exists ""; now rewrite append_empty_r | lia].
  - cbn [composeTagsLoop].
    destruct (negb (Strings.HasPrefix k "_dd.p.")); [apply IH|].
    set (tag := "t." ++ Regexp.keyRgx (Strings.drop 6 k) ++ ":"
                ++ Strings.ReplaceAll (Regexp.valueRgx v) "=" "~").
    destruct (Nat.leb_spec (String.length b + String.length tag) 256)
      as [Hfit|Hfit]; cbn [andb].
    + destruct (Nat.ltb_spec n 32) as [Hn|Hn].
      * destruct (IH (b ++ ";" ++ tag) (S n)) as [[x Hx] [Hlen Hcnt]].
        assert (Hl : String.length (b ++ ";" ++ tag)
                     = (String.length b + 1 + String.length tag)%nat)
          by (rewrite !length_append; simpl; lia).
        rewrite Hl in Hlen.
        split; [|split].
        -- exists (";" ++ tag ++ x). rewrite Hx, !append_assoc. reflexivity.
        -- lia.
        -- lia.
      * simpl. split; [exists ""; now rewrite append_empty_r | lia].
    + simpl. split; [exists ""; now rewrite append_empty_r | lia].
Qed.

(** X13. The Datadog segment of the tracestate starts with
    [dd=s:<priority>;]; it holds at most 32 entries; and it is at most 257
    bytes long unless the priority and the origin alone are longer: a tag is
    added when the segment and the tag together are within 256 bytes, and the
    semicolon written between them is not counted. *)
Theorem ddSegment_bounds (ctx : spanContext) (t : trace) (p : Z) :
  let head := "dd=s:" ++ Strconv.Sprintf_d p ++ ";" in
  let withOrigin :=
    if String.eqb (origin ctx) "" then head
    else head ++ "o:" ++ Regexp.valueRgx (origin ctx) in
  (exists x, fst (ddSegment ctx t p) = head ++ x)
  /\ (String.length (fst (ddSegment ctx t p))
      <= Nat.max (String.length withOrigin) 257)%nat
  /\ (snd (ddSegment ctx t p) <= 32)%nat.
Proof.
  intros head withOrigin. unfold ddSegment. fold head.
  destruct (String.eqb (origin ctx) "") eqn:Ho.
  - destruct (composeTagsLoop_invariant (entriesOf (propagatingTags t))
                head 1) as [Hx [Hlen Hcnt]].
    subst withOrigin. split; [exact Hx | split; [exact Hlen | lia]].
  - destruct (composeTagsLoop_invariant (entriesOf (propagatingTags t))
                (head ++ "o:" ++ Regexp.valueRgx (origin ctx)) 2)
      as [[x Hx] [Hlen Hcnt]].
    subst withOrigin. split; [|split; [exact Hlen | lia]].
    exists ("o:" ++ Regexp.valueRgx (origin ctx) ++ x).
    rewrite Hx, !append_assoc. reflexivity.
Qed.

Lemma composeTracestate_ddSegment (ctx : spanContext) (t : trace) (p : Z)
  (oldState : string) :
  composeTracestate ctx t p oldState
  = composeVendorsLoop (Strings.Split oldState ",")
      (fst (ddSegment ctx t p)) (snd (ddSegment ctx t p)).
Proof.
  unfold composeTracestate, ddSegment.
  destruct (String.eqb (origin ctx) "");
    destruct (composeTagsLoop _ _ _); reflexivity.
Qed.

Lemma composeVendorsLoop_returns (segs : list string) (b : string)
  (n : nat) :
  (String.length b <= 255)%nat -> (n < 32)%nat ->
  exists x,
    composeVendorsLoop segs b n = Ret (b ++ x)
    /\ (String.length (b ++ x) <= 255)%nat.
Proof.
  intros Hb Hn. revert b Hb.
  induction segs as [|s rest IH]; intros b Hb.
  - exists "". rewrite append_empty_r. split; [reflexivity | exact Hb].
  - cbn [composeVendorsLoop].
    destruct (Strings.HasPrefix s "dd="); [apply IH; exact Hb|].
    destruct (Nat.ltb_spec (String.length b + String.length s) 255)
      as [Hfit|Hfit].
    + destruct (n + Strings.Count s ";" <? 32)%nat.
      * destruct (IH (b ++ "," ++ s)) as [x [Hx Hlen]].
        { rewrite !length_append. simpl. lia. }
        exists ("," ++ s ++ x). rewrite append_assoc in Hx, Hlen.
        rewrite append_assoc in Hx, Hlen. split; assumption.
      * destruct (Strings.SplitAfterN_first s ";" (32 - Z.of_nat n))
          as [piece|] eqn:Hpiece.
        -- pose proof (SplitAfterN_first_length _ _ _ _ Hpiece) as Hp.
           destruct (IH (b ++ "," ++ piece)) as [x [Hx Hlen]].
           { rewrite !length_append. simpl. lia. }
           exists ("," ++ piece ++ x). rewrite append_assoc in Hx, Hlen.
           rewrite append_assoc in Hx, Hlen. split; assumption.
        -- exfalso. unfold Strings.SplitAfterN_first in Hpiece.
           destruct (Z.eqb_spec (32 - Z.of_nat n) 0) as [Hz|Hz]; [lia|].
           destruct (32 - Z.of_nat n =? 1)%Z; [discriminate|].
           destruct (Strings.Index s ";"); discriminate.
    + destruct (Nat.ltb_spec 255 (String.length b)) as [Hbig|_]; [lia|].
      destruct (Strings.LastIndex
                  (Strings.take (255 - String.length b) s) ";")
        as [j|] eqn:Hj.
      * exists (Strings.take j s). split; [reflexivity|].
        apply LastIndex_lt in Hj.
        pose proof (length_take (255 - String.length b) s) as [Ht _].
        pose proof (length_take j s) as [Htj _].
        rewrite length_append. lia.
      * exists "". rewrite append_empty_r. split; [reflexivity | exact Hb].
Qed.

(** X14. When the Datadog segment is at most 255 bytes long and has fewer
    than 32 entries, [composeTracestate] returns, for every old state: a
    string of at most 255 bytes that starts with the Datadog segment. *)
Theorem composeTracestate_returns (ctx : spanContext) (t : trace) (p : Z)
  (oldState : string) :
  (String.length (fst (ddSegment ctx t p)) <= 255)%nat ->
  (snd (ddSegment ctx t p) < 32)%nat ->
  exists x,
    composeTracestate ctx t p oldState = Ret (fst (ddSegment ctx t p) ++ x)
    /\ (String.length (fst (ddSegment ctx t p) ++ x) <= 255)%nat.
Proof.
  intros Hlen Hcnt. rewrite composeTracestate_ddSegment.
  apply composeVendorsLoop_returns; assumption.
Qed.

Lemma composeVendorsLoop_panics (segs : list string) (b : string) (n : nat) :
  (255 < String.length b)%nat ->
  (exists s, In s segs /\ Strings.HasPrefix s "dd=" = false) ->
  composeVendorsLoop segs b n = Panic "slice bounds out of range".
Proof.
  intros Hb. induction segs as [|s rest IH]; intros [s0 [Hin Hs0]].
  - destruct Hin.
  - cbn [composeVendorsLoop].
    destruct (Strings.HasPrefix s "dd=") eqn:Hs.
    + apply IH. exists s0. split; [|exact Hs0].
      destruct Hin as [Heq|Hin]; [congruence | exact Hin].
    + destruct (Nat.ltb_spec (String.length b + String.length s) 255);
        [lia|].
      destruct (Nat.ltb_spec 255 (String.length b)); [reflexivity | lia].
Qed.

(** X15. When the Datadog segment is longer than 255 bytes and the old
    state has an entry of another vendor (an entry that does not start with
    [dd=]; the empty old state counts as one empty entry),
    [composeTracestate] panics: it slices that entry with a negative
    bound. *)
Theorem composeTracestate_panics (ctx : spanContext) (t : trace) (p : Z)
  (oldState : string) :
  (255 < String.length (fst (ddSegment ctx t p)))%nat ->
  (exists s, In s (Strings.Split oldState ",")
             /\ Strings.HasPrefix s "dd=" = false) ->
  composeTracestate ctx t p oldState = Panic "slice bounds out of range".
Proof.
  intros Hlen Hseg. rewrite composeTracestate_ddSegment.
  apply composeVendorsLoop_panics; assumption.
Qed.

End Tracestate.

(** X14, on a run: an origin, two tags and the state of another vendor. *)
Lemma composeTracestate_returns_witness :
  composeTracestate
    (mkSpanContext true None 42 52 [] "rum" (Some (2%Z, SamplerUnknown)))
    (mkTrace (Some [("_dd.p.dm", "-4"); ("_dd.p.usr.id", "baz64==")]) None)
    2 "dd=s:1;o:old,othervendor=t61rcWkgMzE"
  = Ret "dd=s:2;o:rum;t.dm:-4;t.usr.id:baz64~~,othervendor=t61rcWkgMzE".
Proof.
  destruct (composeTracestate_returns
              (mkSpanContext true None 42 52 [] "rum"
                 (Some (2%Z, SamplerUnknown)))
              (mkTrace
                 (Some [("_dd.p.dm", "-4"); ("_dd.p.usr.id", "baz64==")])
                 None)
              2 "dd=s:1;o:old,othervendor=t61rcWkgMzE")
    as [x [H _]].
  - vm_compute. lia.
  - vm_compute. lia.
  - reflexivity.
Defined.

(** X15, on a run: an origin of 250 bytes and no old state. *)
Lemma composeTracestate_panics_witness :
  composeTracestate
    (mkSpanContext true None 42 52 [] (Strconv.zeros 250) None)
    newTrace 0 ""
  = Panic "slice bounds out of range".
Proof.
  apply (composeTracestate_panics
           (mkSpanContext true None 42 52 [] (Strconv.zeros 250) None)
           newTrace 0 "").
  - apply Nat.ltb_lt. vm_compute. reflexivity.
  - exists "". split; [left; reflexivity | reflexivity].
Defined.

(** ** W3C injection *)

Section W3cInject.

Context {E : Externals} {C : Type} {CC : Carrier C}.

(** X16. The W3C injector reads the trace of the context without a nil
    test: for a context with valid IDs and no trace it panics, where the
    first-party and the B3 injector return without error. *)
Theorem injectTextMapW3c_nil_trace (cfg : PropagatorConfig)
  (ctx : spanContext) (writer : C) :
  traceID ctx <> 0%N -> spanID ctx <> 0%N ->
  ctxTrace ctx = None ->
  injectTextMapW3c (ptrSpanContext ctx) writer
  = Panic "nil pointer dereference"
  /\ (exists w, injectTextMap cfg (ptrSpanContext ctx) writer
                = Ret (None, w, ptrSpanContext ctx))
  /\ (exists w, injectTextMapB3 (ptrSpanContext ctx) writer
                = Ret (None, w, ptrSpanContext ctx)).
Proof.
  intros Ht Hs Htrace.
  apply N.eqb_neq in Ht. apply N.eqb_neq in Hs.
  unfold injectTextMapW3c, injectTextMap, injectTextMapB3,
    marshalPropagatingTags.
  rewrite Ht, Hs, Htrace. cbn [orb].
  split; [|split].
  - destruct (samplingPriority ctx). reflexivity.
  - destruct (MaxTagsHeaderLen cfg <=? 0)%Z; eexists; reflexivity.
  - eexists. reflexivity.
Qed.

Lemma zeros_add (a b : nat) :
  Strconv.zeros (a + b) = Strconv.zeros a ++ Strconv.zeros b.
Proof. induction a as [|a IH]; simpl; [reflexivity | now rewrite IH]. Qed.

Lemma Sprintf_032x_64bit (n : N) :
  (n <= Strconv.maxUint64)%N ->
  Strconv.Sprintf_0x 32 n = Strconv.zeros 16 ++ Strconv.Sprintf_0x 16 n.
Proof.
  intros Hn. unfold Strconv.Sprintf_0x, Strconv.FormatUint.
  pose proof (formatBits_length (S (N.to_nat (N.size n))) 15 n) as Hlen.
  set (d := Strconv.formatBits (S (N.to_nat (N.size n))) 16 n "") in *.
  assert (Hd : (String.length d <= 16)%nat).
  { apply Hlen. unfold Strconv.maxUint64 in Hn.
    change (16 ^ N.of_nat 16)%N with 18446744073709551616%N. lia. }
  replace (32 - String.length d)%nat
    with (16 + (16 - String.length d))%nat by lia.
  rewrite zeros_add, append_assoc. reflexivity.
Qed.

(** X17. For a context with non-zero 64-bit IDs and a trace, whenever W3C
    injection returns it returns no error and has made exactly two [Set]
    calls: [traceparent], with the 55 bytes
    [00-<16 zeros><16 hex of the trace ID>-<16 hex of the span ID>-<flags>]
    where the flags are [01] if a sampling priority is set and at least
    auto-keep and [00] otherwise; then [tracestate].  If the context was not
    updated and either has no propagating-tags map or its stored tracestate
    starts with [dd=], the stored tracestate (empty if there is none) is
    written as it is. *)
Theorem injectTextMapW3c_headers (ctx : spanContext) (t : trace)
  (writer : C) (r : injected) :
  traceID ctx <> 0%N -> spanID ctx <> 0%N ->
  (traceID ctx <= Strconv.maxUint64)%N ->
  (spanID ctx <= Strconv.maxUint64)%N ->
  ctxTrace ctx = Some t ->
  injectTextMapW3c (ptrSpanContext ctx) writer = Ret r ->
  let stored := mapGet (entriesOf (propagatingTags t)) tracestateHeader in
  String.length (traceparentOf ctx) = 55%nat
  /\ exists ts,
       r = (None,
            carrierSet
              (carrierSet writer traceparentHeader (traceparentOf ctx))
              tracestateHeader ts,
            ptrSpanContext ctx)
       /\ (updated ctx = false ->
           propagatingTags t = None
           \/ Strings.HasPrefix stored "dd=" = true ->
           ts = stored).
Proof.
  intros Ht Hs Htb Hsb Htrace Hinj stored.
  destruct (Sprintf_016x_spec (traceID ctx) Htb) as [Hl1 _].
  destruct (Sprintf_016x_spec (spanID ctx) Hsb) as [Hl2 _].
  assert (Hflags :
    (let '(p, ok) := samplingPriority ctx in
     if ok && (p >=? PriorityAutoKeep)%Z then "01" else "00")
    = match priority ctx with
      | Some (p, _) => if (PriorityAutoKeep <=? p)%Z then "01" else "00"
      | None => "00"
      end).
  { unfold samplingPriority. destruct (priority ctx) as [[p s]|];
      [|reflexivity].
    cbn [andb]. rewrite Z.geb_leb. reflexivity. }
  split.
  - unfold traceparentOf. rewrite !length_append, Hl1, Hl2.
    destruct (priority ctx) as [[p s]|];
      [destruct (PriorityAutoKeep <=? p)%Z|]; reflexivity.
  - unfold injectTextMapW3c in Hinj.
    apply N.eqb_neq in Ht. apply N.eqb_neq in Hs.
    rewrite Ht, Hs, Htrace in Hinj. cbn [orb] in Hinj.
    rewrite (Sprintf_032x_64bit _ Htb) in Hinj.
    destruct (samplingPriority ctx) as [p ok] eqn:Hsp.
    rewrite append_assoc in Hinj.
    assert (Htp :
      "00-" ++ Strconv.zeros 16 ++ Strconv.Sprintf_0x 16 (traceID ctx)
      ++ "-" ++ Strconv.Sprintf_0x 16 (spanID ctx) ++ "-"
      ++ (if ok && (p >=? PriorityAutoKeep)%Z then "01" else "00")
      = traceparentOf ctx).
    { unfold traceparentOf. rewrite <- Hflags. reflexivity. }
    rewrite Htp in Hinj. fold stored in Hinj.
    destruct (updated ctx) eqn:Hu; cbn [orb] in Hinj.
    + destruct (composeTracestate ctx t p stored) as [s|msg];
        [|discriminate Hinj].
      cbn in Hinj. injection Hinj as <-.
      exists s. split; [reflexivity | discriminate].
    + destruct (propagatingTags t) as [m|] eqn:Hm.
      * destruct (Strings.HasPrefix stored "dd=") eqn:Hp;
          cbn [andb negb] in Hinj.
        -- injection Hinj as <-. exists stored.
           split; [reflexivity | reflexivity].
        -- destruct (composeTracestate ctx t p stored) as [s|msg];
             [|discriminate Hinj].
           cbn in Hinj. injection Hinj as <-.
           exists s. split; [reflexivity|].
           intros _ [Hnone|Htrue]; discriminate.
      * cbn [andb] in Hinj. injection Hinj as <-. exists stored.
        split; reflexivity.
Qed.

End W3cInject.

(** X16, on a run: a context extracted from B3 headers carries no trace. *)
Lemma injectTextMapW3c_nil_trace_witness :
  injectTextMapW3c (CC := recorderCarrier)
    (ptrSpanContext (mkSpanContext false None 42 52 [] "" None)) []
  = Panic "nil pointer dereference".
Proof.
  apply (injectTextMapW3c_nil_trace (E := SpecExternals.externals)
           (CC := recorderCarrier) (configDefaults None)
           (mkSpanContext false None 42 52 [] "" None) []).
  - discriminate.
  - discriminate.
  - reflexivity.
Defined.

(** X17, on a run: a context that was not updated, with the tracestate of
    an earlier hop, and a writer that records its [Set] calls. *)
Lemma injectTextMapW3c_headers_witness :
  injectTextMapW3c (CC := recorderCarrier)
    (ptrSpanContext
       (mkSpanContext false
          (Some (mkTrace (Some [("tracestate", "dd=s:1,v=1")]) None))
          42 52 [] "" (Some (1%Z, SamplerUnknown)))) []
  = Ret (None,
         [("traceparent",
           "00-0000000000000000000000000000002a-0000000000000034-01");
          ("tracestate", "dd=s:1,v=1")],
         ptrSpanContext
           (mkSpanContext false
              (Some (mkTrace (Some [("tracestate", "dd=s:1,v=1")]) None))
              42 52 [] "" (Some (1%Z, SamplerUnknown))))
  /\ String.length
       "00-0000000000000000000000000000002a-0000000000000034-01" = 55%nat.
Proof.
  split; [reflexivity|].
  apply (injectTextMapW3c_headers (CC := recorderCarrier)
           (mkSpanContext false
              (Some (mkTrace (Some [("tracestate", "dd=s:1,v=1")]) None))
              42 52 [] "" (Some (1%Z, SamplerUnknown)))
           (mkTrace (Some [("tracestate", "dd=s:1,v=1")]) None)
           []
           (None,
            [("traceparent",
              "00-0000000000000000000000000000002a-0000000000000034-01");
             ("tracestate", "dd=s:1,v=1")],
            ptrSpanContext
              (mkSpanContext false
                 (Some (mkTrace (Some [("tracestate", "dd=s:1,v=1")]) None))
                 42 52 [] "" (Some (1%Z, SamplerUnknown))))).
  - discriminate.
  - discriminate.
  - vm_compute. discriminate.
  - vm_compute. discriminate.
  - reflexivity.
  - reflexivity.
Defined.

(** ** What first-party extraction reads from each header *)

Section ExtractFields.

Context {E : Externals}.

Ltac visitor_cases :=
  repeat match goal with
         | |- context [String.eqb ?a ?b] => destruct (String.eqb a b)
         | |- context [parseUint64 ?s] => destruct (parseUint64 s)
         | |- context [Strconv.Atoi ?s] => destruct (Strconv.Atoi s)
         | |- context [Strings.HasPrefix ?a ?b] =>
             destruct (Strings.HasPrefix a b)
         end.

Lemma unmarshalPropagatingTags_fields (ctx : spanContext) (v : string) :
  traceID (unmarshalPropagatingTags ctx v) = traceID ctx
  /\ spanID (unmarshalPropagatingTags ctx v) = spanID ctx
  /\ origin (unmarshalPropagatingTags ctx v) = origin ctx
  /\ priority (unmarshalPropagatingTags ctx v) = priority ctx
  /\ baggage (unmarshalPropagatingTags ctx v) = baggage ctx.
Proof.
  unfold unmarshalPropagatingTags.
  destruct (propagationExtractMaxSize <? String.length v)%nat;
    [repeat split|].
  destruct (parsePropagatableTraceTags v). repeat split.
Qed.

(** What one visit does to the four fields, by the case of the key. *)
Lemma extractVisitor_fields (cfg : PropagatorConfig) (k v : string)
  (ctx ctx' : spanContext) :
  extractVisitor cfg k v ctx = Continue ctx' ->
  (if headerKind_eqb (headerKindOf cfg k) TraceIDKey
   then parseUint64 v = Some (traceID ctx')
   else traceID ctx' = traceID ctx)
  /\ (if headerKind_eqb (headerKindOf cfg k) ParentIDKey
      then parseUint64 v = Some (spanID ctx')
      else spanID ctx' = spanID ctx)
  /\ (if headerKind_eqb (headerKindOf cfg k) OriginKey
      then origin ctx' = v
      else origin ctx' = origin ctx)
  /\ (if headerKind_eqb (headerKindOf cfg k) PriorityKey
      then exists p, Strconv.Atoi v = Some p
                     /\ priority ctx' = Some (p, SamplerUnknown)
      else priority ctx' = priority ctx).
Proof.
  unfold extractVisitor, headerKindOf.
  pose proof (unmarshalPropagatingTags_fields ctx v) as [U1 [U2 [U3 [U4 _]]]].
  visitor_cases; intros H; try discriminate H; injection H as <-;
    cbn; repeat split; try assumption; eexists; split; reflexivity.
Qed.

Lemma ForeachKey_fields (cfg : PropagatorConfig)
  (reader : list (string * string)) (ctx0 ctx : spanContext) :
  ForeachKey reader (extractVisitor cfg) ctx0 = Continue ctx ->
  match lastOfKind cfg TraceIDKey reader with
  | Some v => parseUint64 v = Some (traceID ctx)
  | None => traceID ctx = traceID ctx0
  end
  /\ match lastOfKind cfg ParentIDKey reader with
     | Some v => parseUint64 v = Some (spanID ctx)
     | None => spanID ctx = spanID ctx0
     end
  /\ match lastOfKind cfg OriginKey reader with
     | Some v => origin ctx = v
     | None => origin ctx = origin ctx0
     end
  /\ match lastOfKind cfg PriorityKey reader with
     | Some v => exists p, Strconv.Atoi v = Some p
                           /\ priority ctx = Some (p, SamplerUnknown)
     | None => priority ctx = priority ctx0
     end.
Proof.
  revert ctx0. induction reader as [|[k v] rest IH]; intros ctx0 H.
  - simpl in H. injection H as <-. repeat split.
  - cbn [ForeachKey] in H.
    destruct (extractVisitor cfg k v ctx0) as [ctx1|e] eqn:Hv;
      [|discriminate H].
    destruct (IH ctx1 H) as [I1 [I2 [I3 I4]]].
    destruct (extractVisitor_fields cfg k v ctx0 ctx1 Hv)
      as [V1 [V2 [V3 V4]]].
    cbn [lastOfKind].
    repeat split;
      match goal with
      | |- context [lastOfKind cfg ?kind rest] =>
          destruct (lastOfKind cfg kind rest); [assumption|];
          destruct (headerKind_eqb (headerKindOf cfg k) kind)
      end; try congruence.
    destruct V4 as [p [Hp Hprio]]. exists p. split; congruence.
Qed.

(** X18. When first-party extraction returns a context, its trace ID is
    the number parsed from the last visited header whose key is, up to
    case, the trace-ID header; its span ID that of the last parent-ID
    header (0 if there is none); its origin the value of the last origin
    header (empty if there is none); its sampling priority the number of the
    last priority header (unset if there is none): whatever the other
    headers are and wherever these sit. *)
Theorem extractTextMap_fields (cfg : PropagatorConfig)
  (reader : list (string * string)) (ctx : spanContext)
  (err : option error) :
  extractTextMap cfg reader = (ptrSpanContext ctx, err) ->
  (exists v, lastOfKind cfg TraceIDKey reader = Some v
             /\ parseUint64 v = Some (traceID ctx))
  /\ match lastOfKind cfg ParentIDKey reader with
     | Some v => parseUint64 v = Some (spanID ctx)
     | None => spanID ctx = 0%N
     end
  /\ origin ctx = match lastOfKind cfg OriginKey reader with
                  | Some v => v
                  | None => ""
                  end
  /\ match lastOfKind cfg PriorityKey reader with
     | Some v => exists p, Strconv.Atoi v = Some p
                           /\ samplingPriority ctx = (p, true)
     | None => samplingPriority ctx = (0%Z, false)
     end.
Proof.
  unfold extractTextMap. intros H.
  destruct (ForeachKey reader (extractVisitor cfg) zeroSpanContext)
    as [c|e] eqn:Hf; [|discriminate H].
  destruct (extractedContextMissing c) eqn:Hm; [discriminate H|].
  injection H as -> _.
  destruct (ForeachKey_fields cfg reader zeroSpanContext ctx Hf)
    as [F1 [F2 [F3 F4]]].
  unfold samplingPriority. split; [|split; [|split]].
  - destruct (lastOfKind cfg TraceIDKey reader) as [v|].
    + exists v. split; [reflexivity | exact F1].
    + exfalso. unfold extractedContextMissing in Hm. rewrite F1 in Hm.
      discriminate Hm.
  - exact F2.
  - destruct (lastOfKind cfg OriginKey reader); exact F3.
  - destruct (lastOfKind cfg PriorityKey reader).
    + destruct F4 as [p [Hp Hprio]]. exists p. rewrite Hprio.
      split; [exact Hp | reflexivity].
    + rewrite F4. reflexivity.
Qed.

End ExtractFields.

(** X18, on a run: two trace-ID headers in different case, the later one
    wins; a parent ID; no origin and no priority. *)
Lemma extractTextMap_fields_witness :
  (exists v,
     lastOfKind (E := SpecExternals.externals) (configDefaults None)
       TraceIDKey
       [("x-datadog-trace-id", "41"); ("ot-baggage-k", "v");
        ("X-Datadog-Trace-Id", "42"); ("x-datadog-parent-id", "52")]
     = Some v
     /\ SpecExternals.parseUint64 v = Some 42%N).
Proof.
  apply (extractTextMap_fields (E := SpecExternals.externals)
           (configDefaults None)
           [("x-datadog-trace-id", "41"); ("ot-baggage-k", "v");
            ("X-Datadog-Trace-Id", "42"); ("x-datadog-parent-id", "52")]
           (mkSpanContext false None 42 52 [("k", "v")] "" None) None
           eq_refl).
Defined.

(** ** Numbers in decimal *)

Module DecimalFacts.
Import Strconv StrconvFacts.

Lemma isDecDigit_digitChar (d : N) :
  (d < 10)%N -> isDecDigit (digitChar d) = true.
Proof.
  intros H.
  destruct d as [|p]; [reflexivity|].
  do 4 (destruct p as [p|p|]; try reflexivity; try lia).
Qed.

Lemma parseDigits_formatBits_10 (fuel : nat) (n : N) :
  (n < 10 ^ N.of_nat fuel)%N ->
  parseDigits 10 (formatBits fuel 10 n "") 0 = Some n.
Proof.
  revert n. induction fuel as [|f IH]; intros n Hn.
  - simpl in Hn. assert (n = 0%N) by lia. subst. reflexivity.
  - simpl formatBits.
    assert (Hd : (n mod 10 < 10)%N) by (apply N.mod_lt; lia).
    assert (Hd16 : (n mod 10 < 16)%N) by lia.
    destruct (N.eqb_spec (n / 10) 0) as [Hq|Hq].
    + simpl. rewrite digitVal_digitChar by exact Hd16.
      apply N.ltb_lt in Hd. rewrite Hd. simpl.
      f_equal. apply N.div_small_iff in Hq; [|lia].
      rewrite N.mod_small by exact Hq. reflexivity.
    + rewrite formatBits_acc, parseDigits_append.
      rewrite IH.
      * simpl. rewrite digitVal_digitChar by exact Hd16.
        apply N.ltb_lt in Hd. rewrite Hd.
        f_equal. rewrite (N.div_mod n 10) at 3 by lia. lia.
      * apply N.Div0.div_lt_upper_bound.
        rewrite Nat2N.inj_succ, N.pow_succ_r' in Hn. exact Hn.
Qed.

Lemma formatBits_dec_digits (fuel : nat) (n : N) :
  Strings.allBytes isDecDigit (formatBits fuel 10 n "") = true.
Proof.
  revert n. induction fuel as [|f IH]; intros n; simpl; [reflexivity|].
  assert (Hd : isDecDigit (digitChar (n mod 10)) = true)
    by (apply isDecDigit_digitChar, N.mod_lt; lia).
  destruct (n / 10 =? 0)%N; simpl.
  - rewrite Hd. reflexivity.
  - rewrite formatBits_acc, allBytes_append, IH. simpl.
    rewrite Hd. reflexivity.
Qed.

Lemma fuel_enough_10 (n : N) :
  (n < 10 ^ N.of_nat (S (N.to_nat (N.size n))))%N.
Proof.
  rewrite Nat2N.inj_succ, N2Nat.id.
  apply N.lt_le_trans with (2 ^ N.size n)%N; [apply N.size_gt|].
  apply N.le_trans with (10 ^ N.size n)%N.
  - apply N.pow_le_mono_l. lia.
  - apply N.pow_le_mono_r; lia.
Qed.

(** A decimal string: it is not empty, starts with a digit and reads back
    as the number. *)
Lemma FormatUint_10_spec (n : N) :
  exists c r,
    FormatUint n 10 = String c r
    /\ isDecDigit c = true
    /\ parseDigits 10 (String c r) 0 = Some n.
Proof.
  unfold FormatUint.
  pose proof (parseDigits_formatBits_10 _ n (fuel_enough_10 n)) as Hp.
  pose proof (formatBits_dec_digits (S (N.to_nat (N.size n))) n) as Hd.
  destruct (formatBits (S (N.to_nat (N.size n))) 10 n "") as [|c r] eqn:Hs.
  - exfalso. simpl in Hs. destruct (n / 10 =? 0)%N; [discriminate Hs|].
    rewrite formatBits_acc in Hs.
    destruct (formatBits (N.to_nat (N.size n)) 10 (n / 10) "");
      discriminate Hs.
  - exists c, r. simpl in Hd. apply andb_prop in Hd as [Hc _].
    repeat split; assumption.
Qed.

Lemma ParseUint_FormatUint_10 (n : N) :
  (n <= maxUint64)%N -> ParseUint (FormatUint n 10) 10 = Some n.
Proof.
  intros Hn. destruct (FormatUint_10_spec n) as [c [r [Hs [_ Hp]]]].
  rewrite Hs. unfold ParseUint. rewrite Hp.
  apply N.leb_le in Hn. rewrite Hn. reflexivity.
Qed.

Lemma isDecDigit_not_sign (c : ascii) :
  isDecDigit c = true -> Ascii.eqb c "-" = false /\ Ascii.eqb c "+" = false.
Proof.
  destruct c as [b0 b1 b2 b3 b4 b5 b6 b7].
  destruct b0, b1, b2, b3, b4, b5, b6, b7; intros H;
    try discriminate H; split; reflexivity.
Qed.

(** [Atoi] reads back what [Itoa] writes for a 64-bit [int]. *)
Lemma Atoi_Itoa (p : Z) :
  (- 9223372036854775808 <= p < 9223372036854775808)%Z ->
  Atoi (Itoa p) = Some p.
Proof.
  intros Hp. unfold Itoa.
  destruct (Z.ltb_spec p 0) as [Hneg|Hpos].
  - destruct (FormatUint_10_spec (Z.to_N (- p))) as [c [r [Hs [_ Hparse]]]].
    rewrite Hs. cbn [Atoi Ascii.eqb Bool.eqb orb]. rewrite Hparse.
    destruct (N.leb_spec (Z.to_N (- p)) 9223372036854775808); [|lia].
    f_equal. lia.
  - destruct (FormatUint_10_spec (Z.to_N p)) as [c [r [Hs [Hc Hparse]]]].
    rewrite Hs. unfold Atoi.
    destruct (isDecDigit_not_sign c Hc) as [Hm Hpl]. rewrite Hm, Hpl.
    cbn [orb]. rewrite Hparse.
    destruct (N.ltb_spec (Z.to_N p) 9223372036854775808); [|lia].
    f_equal. lia.
Qed.

End DecimalFacts.

(** ** First-party round trip *)

Section FirstPartyRoundTrip.

Context {E : Externals}.

Import DecimalFacts.

Lemma mapSet_In_inv (m : gomap) (k v : string) (x : string * string) :
  In x (mapSet m k v) -> x = (k, v) \/ In x m.
Proof.
  induction m as [|[k' v'] m IH]; simpl.
  - intros [H|[]]. left. symmetry. exact H.
  - destruct (String.eqb k' k); simpl.
    + intros [H|H]; [left; symmetry; exact H | right; right; exact H].
    + intros [H|H]; [right; left; exact H|].
      destruct (IH H) as [H'|H']; [left | right; right]; exact H'.
Qed.

Lemma mapSet_In_other (m : gomap) (k v k' v' : string) :
  In (k, v) m -> k <> k' -> In (k, v) (mapSet m k' v').
Proof.
  intros Hin Hne. induction m as [|[k0 v0] m IH]; simpl; [destruct Hin|].
  destruct (String.eqb_spec k0 k') as [Heq|Hneq]; simpl.
  - destruct Hin as [H|H]; [|right; exact H].
    injection H as -> ->. contradiction.
  - destruct Hin as [H|H]; [left; exact H | right; apply IH; exact H].
Qed.

Lemma injectBaggage_In_inv (prefix : string) (l : gomap)
  (w : TextMapCarrier) (x : string * string) :
  In x (injectBaggage prefix l w) ->
  In x w \/ exists bk bv, In (bk, bv) l /\ x = (prefix ++ bk, bv).
Proof.
  revert w. induction l as [|[bk bv] l IH]; intros w; simpl.
  - intros H. left. exact H.
  - intros H. destruct (IH _ H) as [H'|[bk' [bv' [Hin Hx]]]].
    + destruct (mapSet_In_inv _ _ _ _ H') as [Hx|Hw];
        [right; exists bk, bv; split; [left; reflexivity | exact Hx]
        | left; exact Hw].
    + right. exists bk', bv'. split; [right; exact Hin | exact Hx].
Qed.

Lemma injectBaggage_In_keep (prefix : string) (l : gomap)
  (w : TextMapCarrier) (k v : string) :
  In (k, v) w -> (forall bk, prefix ++ bk <> k) ->
  In (k, v) (injectBaggage prefix l w).
Proof.
  intros Hin Hne. revert w Hin.
  induction l as [|[bk bv] l IH]; intros w Hin; simpl; [exact Hin|].
  apply IH. apply mapSet_In_other; [exact Hin|].
  intros Heq. apply (Hne bk). symmetry. exact Heq.
Qed.

Lemma isASCII_append (a b : string) :
  Strings.isASCII (a ++ b) = Strings.isASCII a && Strings.isASCII b.
Proof.
  induction a as [|c a IH]; simpl; [reflexivity|].
  now rewrite IH, andb_assoc.
Qed.

Lemma mapBytes_append (f : ascii -> ascii) (a b : string) :
  Strings.mapBytes f (a ++ b) = Strings.mapBytes f a ++ Strings.mapBytes f b.
Proof. induction a as [|c a IH]; simpl; [reflexivity | now rewrite IH]. Qed.

Lemma headerKind_eqb_eq (a b : headerKind) :
  headerKind_eqb a b = true <-> a = b.
Proof. destruct a, b; simpl; split; intros H; congruence. Qed.

Lemma HasPrefix_append (p s : string) : Strings.HasPrefix (p ++ s) p = true.
Proof.
  induction p as [|c p IH]; simpl; [destruct s; reflexivity|].
  now rewrite Ascii.eqb_refl, IH.
Qed.

Lemma baggage_key_kind (maxLen : Z) (b3 : bool) (bk : string) :
  Strings.isASCII bk = true ->
  headerKindOf (defaultNames maxLen b3) (DefaultBaggageHeaderPrefix ++ bk)
  = BaggageKey.
Proof.
  intros Hbk.
  assert (Hkey : toLower (DefaultBaggageHeaderPrefix ++ bk)
                 = DefaultBaggageHeaderPrefix
                   ++ Strings.mapBytes Strings.lowerByte bk).
  { unfold toLower, Strings.ToLower.
    rewrite isASCII_append, Hbk, mapBytes_append. reflexivity. }
  unfold headerKindOf. rewrite Hkey.
  cbn [defaultNames TraceHeader ParentHeader PriorityHeader BaggagePrefix].
  rewrite HasPrefix_append. reflexivity.
Qed.

Lemma headerParses_by_kind (cfg : PropagatorConfig) (k v : string) :
  headerParses cfg (k, v)
  = match headerKindOf cfg k with
    | TraceIDKey | ParentIDKey =>
        match parseUint64 v with Some _ => true | None => false end
    | PriorityKey =>
        match Strconv.Atoi v with Some _ => true | None => false end
    | _ => true
    end.
Proof.
  unfold headerParses, extractVisitor, headerKindOf. cbn [fst snd].
  repeat match goal with
         | |- context [String.eqb ?a ?b] => destruct (String.eqb a b)
         | |- context [parseUint64 ?s] => destruct (parseUint64 s)
         | |- context [Strconv.Atoi ?s] => destruct (Strconv.Atoi s)
         | |- context [Strings.HasPrefix ?a ?b] =>
             destruct (Strings.HasPrefix a b)
         end; reflexivity.
Qed.

Lemma lastOfKind_In (cfg : PropagatorConfig) (kind : headerKind)
  (reader : list (string * string)) (v : string) :
  lastOfKind cfg kind reader = Some v ->
  exists k, In (k, v) reader /\ headerKindOf cfg k = kind.
Proof.
  revert v. induction reader as [|[k1 v1] rest IH]; intros v Hl;
    [discriminate Hl|].
  cbn [lastOfKind] in Hl.
  destruct (lastOfKind cfg kind rest) as [v2|] eqn:Hl2.
  - injection Hl as <-. destruct (IH v2 eq_refl) as [k2 [H2 H3]].
    exists k2. split; [right; exact H2 | exact H3].
  - destruct (headerKind_eqb (headerKindOf cfg k1) kind) eqn:Hk1;
      [|discriminate Hl].
    injection Hl as <-. exists k1.
    split; [left; reflexivity | apply headerKind_eqb_eq; exact Hk1].
Qed.

Lemma lastOfKind_some (cfg : PropagatorConfig) (kind : headerKind)
  (reader : list (string * string)) (v : string) :
  (exists k, In (k, v) reader /\ headerKindOf cfg k = kind) ->
  (forall k' v', In (k', v') reader -> headerKindOf cfg k' = kind ->
                 v' = v) ->
  lastOfKind cfg kind reader = Some v.
Proof.
  induction reader as [|[k0 v0] rest IH]; intros [k [Hin Hk]] Hall.
  - destruct Hin.
  - assert (Hrest : forall k' v', In (k', v') rest ->
                                  headerKindOf cfg k' = kind -> v' = v)
      by (intros k' v' H; apply Hall; right; exact H).
    cbn [lastOfKind]. destruct Hin as [Heq|Hin'].
    + injection Heq as -> ->.
      destruct (lastOfKind cfg kind rest) as [v'|] eqn:Hl.
      * destruct (lastOfKind_In _ _ _ _ Hl) as [k1 [H1 H2]].
        f_equal. apply (Hrest k1 v' H1 H2).
      * apply headerKind_eqb_eq in Hk. rewrite Hk. reflexivity.
    + rewrite IH; [reflexivity | exists k; split; assumption | exact Hrest].
Qed.

Lemma lastOfKind_none (cfg : PropagatorConfig) (kind : headerKind)
  (reader : list (string * string)) :
  (forall k' v', In (k', v') reader -> headerKindOf cfg k' <> kind) ->
  lastOfKind cfg kind reader = None.
Proof.
  induction reader as [|[k0 v0] rest IH]; intros Hall; [reflexivity|].
  cbn [lastOfKind]. rewrite IH.
  - destruct (headerKind_eqb (headerKindOf cfg k0) kind) eqn:Hk;
      [|reflexivity].
    apply headerKind_eqb_eq in Hk. exfalso.
    apply (Hall k0 v0); [left; reflexivity | exact Hk].
  - intros k' v' H. apply (Hall k' v'). right. exact H.
Qed.

Lemma tail_entries (prefix : string) (bag : gomap) (w4 w : TextMapCarrier) :
  w = injectBaggage prefix bag w4
  \/ (exists s, w = mapSet (injectBaggage prefix bag w4) traceTagsHeader s) ->
  (forall x, In x w ->
             In x w4
             \/ (exists bk bv, In (bk, bv) bag /\ x = (prefix ++ bk, bv))
             \/ fst x = traceTagsHeader)
  /\ (forall k v, In (k, v) w4 -> (forall bk, prefix ++ bk <> k) ->
                  k <> traceTagsHeader -> In (k, v) w).
Proof.
  intros [Hw|[s Hw]]; subst w; split.
  - intros x Hx. destruct (injectBaggage_In_inv _ _ _ _ Hx) as [H|H];
      [left | right; left]; exact H.
  - intros k v Hin Hne _. apply injectBaggage_In_keep; assumption.
  - intros x Hx. destruct (mapSet_In_inv _ _ _ _ Hx) as [H|H].
    + right. right. rewrite H. reflexivity.
    + destruct (injectBaggage_In_inv _ _ _ _ H) as [H'|H'];
        [left | right; left]; exact H'.
  - intros k v Hin Hne Htags. apply mapSet_In_other; [|exact Htags].
    apply injectBaggage_In_keep; assumption.
Qed.

Lemma injectTextMap_entries (maxLen : Z) (b3 : bool) (ctx : spanContext)
  (w : TextMapCarrier) (sc : SpanContext) :
  traceID ctx <> 0%N -> spanID ctx <> 0%N ->
  injectTextMap (defaultNames maxLen b3) (ptrSpanContext ctx)
    ([] : TextMapCarrier) = Ret (None, w, sc) ->
  (forall x, In x w ->
     x = (DefaultTraceIDHeader, Strconv.FormatUint (traceID ctx) 10)
     \/ x = (DefaultParentIDHeader, Strconv.FormatUint (spanID ctx) 10)
     \/ (exists p s, priority ctx = Some (p, s)
                     /\ x = (DefaultPriorityHeader, Strconv.Itoa p))
     \/ (origin ctx <> "" /\ x = (originHeader, origin ctx))
     \/ (exists bk bv, In (bk, bv) (baggage ctx)
                       /\ x = (DefaultBaggageHeaderPrefix ++ bk, bv))
     \/ fst x = traceTagsHeader)
  /\ In (DefaultTraceIDHeader, Strconv.FormatUint (traceID ctx) 10) w
  /\ In (DefaultParentIDHeader, Strconv.FormatUint (spanID ctx) 10) w
  /\ (forall p s, priority ctx = Some (p, s) ->
                  In (DefaultPriorityHeader, Strconv.Itoa p) w)
  /\ (origin ctx <> "" -> In (originHeader, origin ctx) w).
Proof.
  intros Ht Hs Hinj.
  apply N.eqb_neq in Ht. apply N.eqb_neq in Hs.
  unfold injectTextMap in Hinj. rewrite Ht, Hs in Hinj.
  cbn [orb] in Hinj. cbv zeta in Hinj.
  remember (Strconv.FormatUint (traceID ctx) 10) as tv eqn:Htv.
  remember (Strconv.FormatUint (spanID ctx) 10) as pv eqn:Hpv.
  match type of Hinj with
  | context [injectBaggage ?p ?l ?w4] =>
      remember w4 as w4v eqn:Hw4;
      assert (Htail :
        w = injectBaggage p l w4v
        \/ (exists s, w = mapSet (injectBaggage p l w4v) traceTagsHeader s))
  end.
  { destruct (MaxTagsHeaderLen (defaultNames maxLen b3) <=? 0)%Z.
    - injection Hinj as <- _. left. reflexivity.
    - destruct (marshalPropagatingTags (defaultNames maxLen b3) ctx)
        as [s ctx2].
      destruct (0 <? String.length s)%nat; injection Hinj as <- _;
        [right; exists s; reflexivity | left; reflexivity]. }
  clear Hinj.
  destruct (tail_entries _ _ _ _ Htail) as [Hinv Hkeep]. clear Htail.
  cbn [BaggagePrefix defaultNames] in Hinv, Hkeep.
  assert (Hbag : forall k, k = DefaultTraceIDHeader
                           \/ k = DefaultParentIDHeader
                           \/ k = DefaultPriorityHeader
                           \/ k = originHeader ->
                 (forall bk, DefaultBaggageHeaderPrefix ++ bk <> k)
                 /\ k <> traceTagsHeader).
  { intros k [H|[H|[H|H]]]; subst k; split; try discriminate;
      intros bk Hbk; discriminate Hbk. }
  assert (Hform : forall x, In x w4v ->
     x = (DefaultTraceIDHeader, tv)
     \/ x = (DefaultParentIDHeader, pv)
     \/ (exists p s, priority ctx = Some (p, s)
                     /\ x = (DefaultPriorityHeader, Strconv.Itoa p))
     \/ (origin ctx <> "" /\ x = (originHeader, origin ctx))).
  { unfold samplingPriority in Hw4.
    destruct (priority ctx) as [[p s]|] eqn:Hprio;
      destruct (String.eqb_spec (origin ctx) "") as [Ho|Ho];
      try remember (Strconv.Itoa p) as prv eqn:Hprv;
      cbn in Hw4; subst w4v; intros x Hx; simpl in Hx;
      repeat match goal with
             | H : _ \/ _ |- _ => destruct H as [H|H]
             | H : False |- _ => destruct H
             end; subst x;
      try (left; reflexivity);
      try (right; left; reflexivity);
      try (right; right; left; exists p, s; subst prv; split; reflexivity);
      try (right; right; right; split; [exact Ho | reflexivity]). }
  assert (Hpresent :
     In (DefaultTraceIDHeader, tv) w4v
     /\ In (DefaultParentIDHeader, pv) w4v
     /\ (forall p s, priority ctx = Some (p, s) ->
                     In (DefaultPriorityHeader, Strconv.Itoa p) w4v)
     /\ (origin ctx <> "" -> In (originHeader, origin ctx) w4v)).
  { unfold samplingPriority in Hw4.
    destruct (priority ctx) as [[p s]|] eqn:Hprio;
      destruct (String.eqb_spec (origin ctx) "") as [Ho|Ho];
      try remember (Strconv.Itoa p) as prv eqn:Hprv;
      cbn in Hw4; subst w4v;
      (split; [simpl; tauto|]); (split; [simpl; tauto|]);
      (split; [intros p' s' Hp'; try discriminate Hp';
               injection Hp' as <- <-; subst prv; simpl; tauto|]);
      intros Ho'; try contradiction; simpl; tauto. }
  destruct Hpresent as [P1 [P2 [P3 P4]]].
  split; [|split; [|split; [|split]]].
  - intros x Hx. destruct (Hinv x Hx) as [H4|[Hb|Htag]].
    + destruct (Hform x H4) as [H|[H|[H|H]]]; tauto.
    + right. right. right. right. left. exact Hb.
    + right. right. right. right. right. exact Htag.
  - apply Hkeep; [exact P1 | apply Hbag; tauto | apply Hbag; tauto].
  - apply Hkeep; [exact P2 | apply Hbag; tauto | apply Hbag; tauto].
  - intros p s Hp. apply Hkeep; [apply (P3 p s Hp) | apply Hbag; tauto
                                 | apply Hbag; tauto].
  - intros Ho. apply Hkeep; [apply (P4 Ho) | apply Hbag; tauto
                             | apply Hbag; tauto].
Qed.

(** X19. First-party round trip.  With the default header names, what
    injection writes into an empty text map for a context with non-zero
    64-bit IDs, extraction reads back, in whatever order the map yields its
    entries: a context with the same trace ID, span ID, origin and sampling
    priority.  This needs [parseUint64] to read back the decimal form of a
    64-bit number, the priority to be a 64-bit [int], and the baggage keys
    to be ASCII. *)
Theorem first_party_round_trip (maxLen : Z) (b3 : bool) (ctx : spanContext)
  (w : TextMapCarrier) (sc : SpanContext)
  (reader : list (string * string)) :
  (forall n, (n <= Strconv.maxUint64)%N ->
             parseUint64 (Strconv.FormatUint n 10) = Some n) ->
  traceID ctx <> 0%N -> spanID ctx <> 0%N ->
  (traceID ctx <= Strconv.maxUint64)%N ->
  (spanID ctx <= Strconv.maxUint64)%N ->
  (forall p s, priority ctx = Some (p, s) ->
               (- 9223372036854775808 <= p < 9223372036854775808)%Z) ->
  forallb (fun kv => Strings.isASCII (fst kv)) (baggage ctx) = true ->
  injectTextMap (defaultNames maxLen b3) (ptrSpanContext ctx)
    ([] : TextMapCarrier) = Ret (None, w, sc) ->
  Permutation w reader ->
  exists ctx',
    extractTextMap (defaultNames maxLen b3) reader
    = (ptrSpanContext ctx', None)
    /\ traceID ctx' = traceID ctx
    /\ spanID ctx' = spanID ctx
    /\ origin ctx' = origin ctx
    /\ samplingPriority ctx' = samplingPriority ctx.
Proof.
  intros Hparse Ht Hs Htb Hsb Hprio Hbag Hinj Hperm.
  set (cfg := defaultNames maxLen b3) in *.
  destruct (injectTextMap_entries maxLen b3 ctx w sc Ht Hs Hinj)
    as [Hforms [In1 [In2 [In3 In4]]]].
  remember (Strconv.FormatUint (traceID ctx) 10) as tv eqn:Htv.
  remember (Strconv.FormatUint (spanID ctx) 10) as pv eqn:Hpv.
  assert (KT : headerKindOf cfg DefaultTraceIDHeader = TraceIDKey)
    by reflexivity.
  assert (KP : headerKindOf cfg DefaultParentIDHeader = ParentIDKey)
    by reflexivity.
  assert (KR : headerKindOf cfg DefaultPriorityHeader = PriorityKey)
    by reflexivity.
  assert (KO : headerKindOf cfg originHeader = OriginKey) by reflexivity.
  assert (KG : headerKindOf cfg traceTagsHeader = TagsKey) by reflexivity.
  assert (Hkind : forall k v, In (k, v) reader ->
     (headerKindOf cfg k = TraceIDKey /\ v = tv)
     \/ (headerKindOf cfg k = ParentIDKey /\ v = pv)
     \/ (exists p s, priority ctx = Some (p, s)
                     /\ headerKindOf cfg k = PriorityKey
                     /\ v = Strconv.Itoa p)
     \/ (origin ctx <> "" /\ headerKindOf cfg k = OriginKey
         /\ v = origin ctx)
     \/ headerKindOf cfg k = BaggageKey
     \/ headerKindOf cfg k = TagsKey).
  { intros k v Hin.
    apply (Permutation_in _ (Permutation_sym Hperm)) in Hin.
    destruct (Hforms _ Hin)
      as [H|[H|[[p [s [Hp H]]]|[[Ho H]|[[bk [bv [Hb H]]]|H]]]]].
    - injection H as -> ->. left. split; [exact KT | reflexivity].
    - injection H as -> ->. right. left. split; [exact KP | reflexivity].
    - injection H as -> ->. right. right. left. exists p, s.
      split; [exact Hp | split; [exact KR | reflexivity]].
    - injection H as -> ->. right. right. right. left.
      split; [exact Ho | split; [exact KO | reflexivity]].
    - injection H as -> ->. right. right. right. right. left.
      apply baggage_key_kind.
      rewrite forallb_forall in Hbag. apply (Hbag (bk, bv) Hb).
    - simpl in H. subst k. right. right. right. right. right. exact KG. }
  assert (Hall : forallb (headerParses cfg) reader = true).
  { apply forallb_forall. intros [k v] Hin.
    rewrite headerParses_by_kind.
    destruct (Hkind k v Hin)
      as [[K V]|[[K V]|[[p [s [Hp [K V]]]]|[[Ho [K V]]|[K|K]]]]];
      rewrite K; try reflexivity; subst v.
    - rewrite Htv, Hparse by exact Htb. reflexivity.
    - rewrite Hpv, Hparse by exact Hsb. reflexivity.
    - rewrite Atoi_Itoa by (apply (Hprio p s Hp)). reflexivity. }
  destruct (ForeachKey_parses cfg reader zeroSpanContext Hall) as [c Hf].
  destruct (ForeachKey_fields cfg reader zeroSpanContext c Hf)
    as [F1 [F2 [F3 F4]]].
  assert (L1 : lastOfKind cfg TraceIDKey reader = Some tv).
  { apply lastOfKind_some.
    - exists DefaultTraceIDHeader.
      split; [apply (Permutation_in _ Hperm); exact In1 | exact KT].
    - intros k v Hin K.
      destruct (Hkind k v Hin)
        as [[K' V]|[[K' V]|[[p [s [Hp [K' V]]]]|[[Ho [K' V]]|[K'|K']]]]];
        congruence. }
  assert (L2 : lastOfKind cfg ParentIDKey reader = Some pv).
  { apply lastOfKind_some.
    - exists DefaultParentIDHeader.
      split; [apply (Permutation_in _ Hperm); exact In2 | exact KP].
    - intros k v Hin K.
      destruct (Hkind k v Hin)
        as [[K' V]|[[K' V]|[[p [s [Hp [K' V]]]]|[[Ho [K' V]]|[K'|K']]]]];
        congruence. }
  rewrite L1 in F1. rewrite L2 in F2.
  rewrite Htv, Hparse in F1 by exact Htb.
  rewrite Hpv, Hparse in F2 by exact Hsb.
  injection F1 as F1. injection F2 as F2.
  assert (G3 : origin c = origin ctx).
  { destruct (String.eqb_spec (origin ctx) "") as [Ho|Ho].
    - rewrite lastOfKind_none in F3; [rewrite F3, Ho; reflexivity|].
      intros k v Hin K.
      destruct (Hkind k v Hin)
        as [[K' V]|[[K' V]|[[p [s [Hp [K' V]]]]|[[Ho' [K' V]]|[K'|K']]]]];
        congruence.
    - rewrite (lastOfKind_some cfg OriginKey reader (origin ctx)) in F3;
        [exact F3 | |].
      + exists originHeader.
        split; [apply (Permutation_in _ Hperm); exact (In4 Ho) | exact KO].
      + intros k v Hin K.
        destruct (Hkind k v Hin)
          as [[K' V]|[[K' V]|[[p [s [Hp [K' V]]]]|[[Ho' [K' V]]|[K'|K']]]]];
          congruence. }
  assert (G4 : samplingPriority c = samplingPriority ctx).
  { unfold samplingPriority.
    destruct (priority ctx) as [[p s]|] eqn:Hp.
    - rewrite (lastOfKind_some cfg PriorityKey reader (Strconv.Itoa p))
        in F4.
      + destruct F4 as [p' [Ha Hc]].
        rewrite Atoi_Itoa in Ha by (apply (Hprio p s eq_refl)).
        injection Ha as <-. rewrite Hc. reflexivity.
      + exists DefaultPriorityHeader.
        split; [apply (Permutation_in _ Hperm); exact (In3 p s eq_refl)
               | exact KR].
      + intros k v Hin K.
        destruct (Hkind k v Hin)
          as [[K' V]|[[K' V]|[[p' [s' [Hp' [K' V]]]]|[[Ho' [K' V]]|[K'|K']]]]];
          congruence.
    - rewrite lastOfKind_none in F4; [rewrite F4; reflexivity|].
      intros k v Hin K.
      destruct (Hkind k v Hin)
        as [[K' V]|[[K' V]|[[p' [s' [Hp' [K' V]]]]|[[Ho' [K' V]]|[K'|K']]]]];
        congruence. }
  exists c. unfold extractTextMap. rewrite Hf.
  unfold extractedContextMissing. rewrite <- F1, <- F2.
  apply N.eqb_neq in Ht. apply N.eqb_neq in Hs. rewrite Ht, Hs. cbn.
  repeat split; congruence.
Qed.

End FirstPartyRoundTrip.

(** X19, on a run: IDs, origin, priority, one baggage item and a
    propagating tag, read back in reverse order. *)
Lemma first_party_round_trip_witness :
  exists ctx',
    extractTextMap (E := SpecExternals.externals) (defaultNames 128 false)
      [("x-datadog-tags", "_dd.p.dm=-4"); ("ot-baggage-user", "u1");
       ("x-datadog-origin", "rum"); ("x-datadog-sampling-priority", "2");
       ("x-datadog-parent-id", "52"); ("x-datadog-trace-id", "42")]
    = (ptrSpanContext ctx', None)
    /\ traceID ctx' = 42%N /\ spanID ctx' = 52%N /\ origin ctx' = "rum"
    /\ samplingPriority ctx' = (2%Z, true).
Proof.
  apply (first_party_round_trip (E := SpecExternals.externals) 128 false
           (mkSpanContext false
              (Some (mkTrace (Some [("_dd.p.dm", "-4")]) None))
              42 52 [("user", "u1")] "rum" (Some (2%Z, SamplerOther 4)))
           [("x-datadog-trace-id", "42"); ("x-datadog-parent-id", "52");
            ("x-datadog-sampling-priority", "2"); ("x-datadog-origin", "rum");
            ("ot-baggage-user", "u1"); ("x-datadog-tags", "_dd.p.dm=-4")]
           (ptrSpanContext
              (mkSpanContext false
                 (Some (mkTrace (Some [("_dd.p.dm", "-4")]) None))
                 42 52 [("user", "u1")] "rum" (Some (2%Z, SamplerOther 4))))).
  - intros n Hn. apply DecimalFacts.ParseUint_FormatUint_10. exact Hn.
  - discriminate.
  - discriminate.
  - vm_compute. discriminate.
  - vm_compute. discriminate.
  - intros p s H. injection H as <- _. lia.
  - reflexivity.
  - reflexivity.
  - exact (Permutation_rev
             [("x-datadog-trace-id", "42"); ("x-datadog-parent-id", "52");
              ("x-datadog-sampling-priority", "2");
              ("x-datadog-origin", "rum"); ("ot-baggage-user", "u1");
              ("x-datadog-tags", "_dd.p.dm=-4")]).
Defined.

(** ** Baggage read by first-party extraction *)

Section ExtractBaggage.

Context {E : Externals}.

Lemma mapGet_mapSet_other (m : gomap) (k k' v : string) :
  k <> k' -> mapGet (mapSet m k' v) k = mapGet m k.
Proof.
  intros Hne. induction m as [|[k0 v0] m IH]; simpl.
  - destruct (String.eqb_spec k' k); [congruence | reflexivity].
  - destruct (String.eqb_spec k0 k') as [H0|H0]; simpl.
    + subst k0. destruct (String.eqb_spec k' k); [congruence | reflexivity].
    + destruct (String.eqb k0 k); [reflexivity | exact IH].
Qed.

Lemma extractVisitor_baggage (cfg : PropagatorConfig) (k v : string)
  (ctx ctx' : spanContext) :
  extractVisitor cfg k v ctx = Continue ctx' ->
  baggage ctx'
  = if headerKind_eqb (headerKindOf cfg k) BaggageKey
    then mapSet (baggage ctx) (baggageKeyOf cfg k) v
    else baggage ctx.
Proof.
  unfold extractVisitor, headerKindOf, baggageKeyOf.
  assert (U : baggage (unmarshalPropagatingTags ctx v) = baggage ctx).
  { unfold unmarshalPropagatingTags.
    destruct (propagationExtractMaxSize <? String.length v)%nat;
      [reflexivity|].
    destruct (parsePropagatableTraceTags v). reflexivity. }
  repeat match goal with
         | |- context [String.eqb ?a ?b] => destruct (String.eqb a b)
         | |- context [parseUint64 ?s] => destruct (parseUint64 s)
         | |- context [Strconv.Atoi ?s] => destruct (Strconv.Atoi s)
         | |- context [Strings.HasPrefix ?a ?b] =>
             destruct (Strings.HasPrefix a b)
         end;
    intros H; try discriminate H; injection H as <-; cbn;
    try reflexivity; exact U.
Qed.

Lemma ForeachKey_baggage (cfg : PropagatorConfig)
  (reader : list (string * string)) (ctx0 ctx : spanContext)
  (key : string) :
  ForeachKey reader (extractVisitor cfg) ctx0 = Continue ctx ->
  mapGet (baggage ctx) key
  = match lastBaggage cfg key reader with
    | Some v => v
    | None => mapGet (baggage ctx0) key
    end.
Proof.
  revert ctx0. induction reader as [|[k v] rest IH]; intros ctx0 H.
  - simpl in H. injection H as <-. reflexivity.
  - cbn [ForeachKey] in H.
    destruct (extractVisitor cfg k v ctx0) as [ctx1|e] eqn:Hv;
      [|discriminate H].
    rewrite (IH ctx1 H). cbn [lastBaggage].
    destruct (lastBaggage cfg key rest); [reflexivity|].
    rewrite (extractVisitor_baggage cfg k v ctx0 ctx1 Hv).
    destruct (headerKind_eqb (headerKindOf cfg k) BaggageKey);
      cbn [andb]; [|reflexivity].
    destruct (String.eqb_spec (baggageKeyOf cfg k) key) as [Hk|Hk].
    + subst key. apply mapGet_mapSet.
    + apply mapGet_mapSet_other. congruence.
Qed.

(** X21. When first-party extraction returns a context, its baggage holds
    under [key] the value of the last visited pair whose key, in lower
    case, starts with the baggage prefix without being one of the other
    headers, and is [key] once the prefix is removed; and nothing (the empty
    string) if there is no such pair.  Baggage keys thus come back in lower
    case, and values as they were. *)
Theorem extractTextMap_baggage (cfg : PropagatorConfig)
  (reader : list (string * string)) (ctx : spanContext)
  (err : option error) (key : string) :
  extractTextMap cfg reader = (ptrSpanContext ctx, err) ->
  mapGet (baggage ctx) key
  = match lastBaggage cfg key reader with
    | Some v => v
    | None => ""
    end.
Proof.
  unfold extractTextMap. intros H.
  destruct (ForeachKey reader (extractVisitor cfg) zeroSpanContext)
    as [c|e] eqn:Hf; [|discriminate H].
  destruct (extractedContextMissing c); [discriminate H|].
  injection H as -> _.
  apply (ForeachKey_baggage cfg reader zeroSpanContext ctx key Hf).
Qed.

End ExtractBaggage.

(** X21, on a run: a baggage key in mixed case, set twice. *)
Lemma extractTextMap_baggage_witness :
  exists ctx,
    extractTextMap (E := SpecExternals.externals) (configDefaults None)
      [("x-datadog-trace-id", "42"); ("ot-baggage-user", "Al");
       ("x-datadog-parent-id", "52"); ("OT-Baggage-User", "Bob")]
    = (ptrSpanContext ctx, None)
    /\ mapGet (baggage ctx) "user" = "Bob"
    /\ mapGet (baggage ctx) "User" = "".
Proof.
  eexists. split; [reflexivity|]. split.
  - apply (extractTextMap_baggage (E := SpecExternals.externals)
             (configDefaults None)
             [("x-datadog-trace-id", "42"); ("ot-baggage-user", "Al");
              ("x-datadog-parent-id", "52"); ("OT-Baggage-User", "Bob")]
             _ None "user" eq_refl).
  - apply (extractTextMap_baggage (E := SpecExternals.externals)
             (configDefaults None)
             [("x-datadog-trace-id", "42"); ("ot-baggage-user", "Al");
              ("x-datadog-parent-id", "52"); ("OT-Baggage-User", "Bob")]
             _ None "User" eq_refl).
Defined.

(** ** What the tracestate sanitizers leave *)

Section Sanitizers.

Lemma replaceAll_clean (single : ascii -> bool) (inRun : bool) (s : string) :
  single "_"%char = false ->
  Strings.allBytes
    (fun c => negb (single c) && negb (Regexp.nonPrintable c))
    (Regexp.replaceAll single inRun s) = true.
Proof.
  intros Hu. revert inRun.
  induction s as [|c s IH]; intros inRun; simpl; [reflexivity|].
  destruct (single c) eqn:Hs; simpl.
  - rewrite Hu, IH. reflexivity.
  - destruct (Regexp.nonPrintable c) eqn:Hn.
    + destruct inRun; simpl; [apply IH|]. rewrite Hu, IH. reflexivity.
    + simpl. rewrite Hs, Hn, IH. reflexivity.
Qed.

Lemma allBytes_impl (p q : ascii -> bool) (s : string) :
  (forall c, p c = true -> q c = true) ->
  Strings.allBytes p s = true -> Strings.allBytes q s = true.
Proof.
  intros Hpq. induction s as [|c s IH]; simpl; [reflexivity|].
  intros H. apply andb_prop in H as [Hc Hs].
  rewrite (Hpq c Hc), (IH Hs). reflexivity.
Qed.

Lemma allBytes_mapBytes (p : ascii -> bool) (f : ascii -> ascii)
  (s : string) :
  Strings.allBytes p (Strings.mapBytes f s)
  = Strings.allBytes (fun c => p (f c)) s.
Proof. induction s as [|c s IH]; simpl; [reflexivity | now rewrite IH]. Qed.

(** X22. What [composeTracestate] writes of an origin, a tag key and a tag
    value holds none of the bytes that delimit the tracestate: the
    sanitized origin has no comma, semicolon, colon or byte outside
    printable ASCII; the sanitized key no comma, equals sign or such byte;
    the sanitized tag value none of these, and no equals sign. *)
Theorem tracestate_sanitized (s : string) :
  Strings.allBytes (fun c => negb (isValueSeparator c)) (Regexp.valueRgx s)
  = true
  /\ Strings.allBytes (fun c => negb (isKeySeparator c)) (Regexp.keyRgx s)
     = true
  /\ Strings.allBytes
       (fun c => negb (isValueSeparator c) && negb (Ascii.eqb c "="))
       (Strings.ReplaceAll (Regexp.valueRgx s) "=" "~") = true.
Proof.
  assert (Hv : Strings.allBytes (fun c => negb (isValueSeparator c))
                 (Regexp.valueRgx s) = true).
  { unfold Regexp.valueRgx.
    eapply allBytes_impl; [|apply replaceAll_clean; reflexivity].
    intros c H. unfold isValueSeparator. cbn beta in H.
    apply andb_prop in H as [H1 H2].
    rewrite negb_true_iff in H1, H2. rewrite H1, H2. reflexivity. }
  split; [exact Hv | split].
  - unfold Regexp.keyRgx.
    eapply allBytes_impl; [|apply replaceAll_clean; reflexivity].
    intros c H. unfold isKeySeparator. cbn beta in H.
    apply andb_prop in H as [H1 H2].
    rewrite negb_true_iff in H1, H2. rewrite H1, H2. reflexivity.
  - unfold Strings.ReplaceAll. rewrite allBytes_mapBytes.
    eapply allBytes_impl; [|exact Hv].
    intros c H. cbn beta in *.
    destruct (Ascii.eqb c "=") eqn:He; [reflexivity|].
    rewrite H, He. reflexivity.
Qed.

End Sanitizers.
